(** * Dropper: a shallow embedding of [dropper.py]

    The development follows the layout of the program: Python primitives the
    program calls (strings, base64, UTF-8, floats, pathlib, the file system),
    then the program's own functions under their own names, then the
    properties of the specification.

    Conventions.
    - A Python [int] is a [Z].
    - A Python [str] whose code points are all below 256 is a Rocq [string]
      (one [ascii] per code point).  This is exactly the shape of the header
      values a WSGI server hands to the application (latin-1 decoded), and it
      is the model used for file names, paths and queries.  A [str] with
      arbitrary code points (the configured credential, the result of a
      UTF-8 decode) is a [ustr], the list of its code points.
    - Python [bytes] are a [list byte].
    - A Python call either returns or raises: [result A]. Flask's [abort(c)]
      raises an [HTTPException c], which the framework turns into the
      response with status [c]. *)

From Stdlib Require Import ZArith QArith Qabs List String Ascii Bool Lia.
From Stdlib Require Import Strings.Byte.
From stdpp Require Import base tactics option list sorting strings pretty gmap.

Set Warnings "-register-all".
Local Open Scope string_scope.
Local Open Scope list_scope.
Local Open Scope Z_scope.

(** ** Exceptions and results *)

Inductive exn : Type :=
| ValueError
| binascii_Error
| UnicodeDecodeError
| OverflowError
| FileNotFoundError
| NotADirectoryError
| OSError
| RuntimeError
| HTTPException (code : Z).

Inductive result (A : Type) : Type :=
| Ret (a : A)
| Raise (e : exn).
Arguments Ret {A} a.
Arguments Raise {A} e.

Definition result_bind {A B : Type} (f : A -> result B) (m : result A) : result B :=
  match m with
  | Ret a => f a
  | Raise e => Raise e
  end.

#[global] Instance result_ret : MRet result := @Ret.
#[global] Instance result_mbind : MBind result := @result_bind.

(** [try: body except Exception: handler] *)
Definition try_except {A : Type} (body : result A) (handler : exn -> result A) : result A :=
  match body with
  | Ret a => Ret a
  | Raise e => handler e
  end.

(** [abort(code)] *)
Definition abort {A : Type} (code : Z) : result A := Raise (HTTPException code).

(** ** Python strings *)

Definition ustr : Type := list Z.

Definition ord (c : ascii) : Z := Z.of_N (N_of_ascii c).
Definition chr (n : Z) : ascii := ascii_of_N (Z.to_N n).

(** The code points of a [str] given as a Rocq string. *)
Definition codepoints (s : string) : ustr := map ord (list_ascii_of_string s).

(** [str.isspace] on one character: the Unicode white space below 256. *)
Definition isspace (c : ascii) : bool :=
  let n := ord c in
  ((9 <=? n) && (n <=? 13)) || ((28 <=? n) && (n <=? 32)) || (n =? 133) || (n =? 160).

(** [str.lower] on one character: A-Z, and the upper-case letters of
    Latin-1 (U+00C0..U+00DE without the multiplication sign U+00D7). *)
Definition lower_char (c : ascii) : ascii :=
  let n := ord c in
  if ((65 <=? n) && (n <=? 90)) || ((192 <=? n) && (n <=? 222) && negb (n =? 215))
  then chr (n + 32) else c.

Fixpoint str_lower (s : string) : string :=
  match s with
  | EmptyString => EmptyString
  | String c s' => String (lower_char c) (str_lower s')
  end.

Fixpoint str_lstrip (s : string) : string :=
  match s with
  | EmptyString => EmptyString
  | String c s' => if isspace c then str_lstrip s' else s
  end.

(** The longest prefix without white space, and what follows it. *)
Fixpoint span_word (s : string) : string * string :=
  match s with
  | EmptyString => (EmptyString, EmptyString)
  | String c s' =>
      if isspace c then (EmptyString, s)
      else let '(w, r) := span_word s' in (String c w, r)
  end.

(** [s.split(None, 1)]: skip leading white space, take one word, skip white
    space again and keep the rest as it is (trailing white space included). *)
Definition str_split_1 (s : string) : list string :=
  match str_lstrip s with
  | EmptyString => []
  | s1 =>
      let '(w, r) := span_word s1 in
      match str_lstrip r with
      | EmptyString => [w]
      | r' => [w; r']
      end
  end.

(** [a, b = xs]: unpacking a list into exactly two names. *)
Definition unpack2 {A : Type} (xs : list A) : result (A * A) :=
  match xs with
  | [a; b] => Ret (a, b)
  | _ => Raise ValueError
  end.

Fixpoint str_rstrip_aux (s : string) : string * bool :=
  match s with
  | EmptyString => (EmptyString, true)
  | String c s' =>
      let '(t, blank) := str_rstrip_aux s' in
      if blank && isspace c then (EmptyString, true) else (String c t, false)
  end.

Definition str_rstrip (s : string) : string := fst (str_rstrip_aux s).

(** [s.strip()] *)
Definition str_strip (s : string) : string := str_rstrip (str_lstrip s).

Fixpoint str_startswith (p s : string) : bool :=
  match p, s with
  | EmptyString, _ => true
  | String a p', String b s' => bool_decide (a = b) && str_startswith p' s'
  | String _ _, EmptyString => false
  end.

(** [q in s] on strings: [q] occurs in [s] as a substring. *)
Fixpoint str_in (q s : string) : bool :=
  str_startswith q s ||
  match s with
  | EmptyString => false
  | String _ s' => str_in q s'
  end.

(** ** base64 and UTF-8 *)

Definition byte_of_Z (n : Z) : byte := byte_of_ascii (chr (n mod 256)).
Definition Z_of_byte (b : byte) : Z := Z.of_N (Byte.to_N b).

(** [table_a2b_base64]: the value of a character of the standard alphabet. *)
Definition table_a2b_base64 (c : ascii) : option Z :=
  let n := ord c in
  if (65 <=? n) && (n <=? 90) then Some (n - 65)
  else if (97 <=? n) && (n <=? 122) then Some (n - 97 + 26)
  else if (48 <=? n) && (n <=? 57) then Some (n - 48 + 52)
  else if n =? 43 then Some 62
  else if n =? 47 then Some 63
  else None.

Definition BASE64_PAD : ascii := chr 61.

(** [binascii.a2b_base64(data)] with [strict_mode] off: characters outside
    the alphabet are skipped, a pad that completes a quad ends the input,
    and what is left of an unfinished quad is an error. *)
Fixpoint a2b_base64_loop (data : list ascii) (quad_pos leftchar pads : Z)
  : result (list byte) :=
  match data with
  | [] => if quad_pos =? 0 then Ret [] else Raise binascii_Error
  | this_ch :: data' =>
      if bool_decide (this_ch = BASE64_PAD) then
        if (2 <=? quad_pos) && (4 <=? quad_pos + (pads + 1)) then Ret []
        else a2b_base64_loop data' quad_pos leftchar
               (if 2 <=? quad_pos then pads + 1 else pads)
      else
        match table_a2b_base64 this_ch with
        | None => a2b_base64_loop data' quad_pos leftchar pads
        | Some v =>
            if quad_pos =? 0 then a2b_base64_loop data' 1 v 0
            else if quad_pos =? 1 then
              out ← a2b_base64_loop data' 2 (Z.land v 15) 0;
              Ret (byte_of_Z (Z.lor (Z.shiftl leftchar 2) (Z.shiftr v 4)) :: out)
            else if quad_pos =? 2 then
              out ← a2b_base64_loop data' 3 (Z.land v 3) 0;
              Ret (byte_of_Z (Z.lor (Z.shiftl leftchar 4) (Z.shiftr v 2)) :: out)
            else
              out ← a2b_base64_loop data' 0 0 0;
              Ret (byte_of_Z (Z.lor (Z.shiftl leftchar 6) v) :: out)
        end
  end.

Definition a2b_base64 (data : list ascii) : result (list byte) :=
  a2b_base64_loop data 0 0 0.

Definition isascii (s : string) : bool :=
  forallb (fun c => ord c <? 128) (list_ascii_of_string s).

(** [base64.b64decode(s)] on a [str]: the string is encoded as ASCII first
    ([ValueError] when it cannot be), then decoded without validation. *)
Definition b64decode (s : string) : result (list byte) :=
  if isascii s then a2b_base64 (list_ascii_of_string s) else Raise ValueError.

Definition is_continuation (b : Z) : bool := (128 <=? b) && (b <=? 191).

(** [bytes.decode("utf-8")]: the well-formed byte sequences of the Unicode
    standard; anything else is a [UnicodeDecodeError]. *)
Fixpoint utf8_decode (bs : list byte) : result ustr :=
  match bs with
  | [] => Ret []
  | x0 :: bs1 =>
      let b0 := Z_of_byte x0 in
      if b0 <? 128 then
        cs ← utf8_decode bs1; Ret (b0 :: cs)
      else if (194 <=? b0) && (b0 <=? 223) then
        match bs1 with
        | x1 :: bs2 =>
            let b1 := Z_of_byte x1 in
            if is_continuation b1 then
              cs ← utf8_decode bs2;
              Ret ((b0 - 192) * 64 + (b1 - 128) :: cs)
            else Raise UnicodeDecodeError
        | _ => Raise UnicodeDecodeError
        end
      else if (224 <=? b0) && (b0 <=? 239) then
        match bs1 with
        | x1 :: x2 :: bs3 =>
            let b1 := Z_of_byte x1 in
            let b2 := Z_of_byte x2 in
            let lo := if b0 =? 224 then 160 else 128 in
            let hi := if b0 =? 237 then 159 else 191 in
            if (lo <=? b1) && (b1 <=? hi) && is_continuation b2 then
              cs ← utf8_decode bs3;
              Ret ((b0 - 224) * 4096 + (b1 - 128) * 64 + (b2 - 128) :: cs)
            else Raise UnicodeDecodeError
        | _ => Raise UnicodeDecodeError
        end
      else if (240 <=? b0) && (b0 <=? 244) then
        match bs1 with
        | x1 :: x2 :: x3 :: bs4 =>
            let b1 := Z_of_byte x1 in
            let b2 := Z_of_byte x2 in
            let b3 := Z_of_byte x3 in
            let lo := if b0 =? 240 then 144 else 128 in
            let hi := if b0 =? 244 then 143 else 191 in
            if (lo <=? b1) && (b1 <=? hi) && is_continuation b2 && is_continuation b3 then
              cs ← utf8_decode bs4;
              Ret ((b0 - 240) * 262144 + (b1 - 128) * 4096
                   + (b2 - 128) * 64 + (b3 - 128) :: cs)
            else Raise UnicodeDecodeError
        | _ => Raise UnicodeDecodeError
        end
      else Raise UnicodeDecodeError
  end.

(** ** Authentication ([AUTH], [check_auth_header], [requires_auth]) *)

(** [not header] for a header that is [None] or a [str]. *)
Definition header_is_empty (header : option string) : bool :=
  match header with
  | None => true
  | Some EmptyString => true
  | Some _ => false
  end.

Definition check_auth_header (AUTH : option ustr) (header : option string) : result bool :=
  if header_is_empty header then Ret false
  else
    try_except
      ('(typ, creds) ← unpack2 (str_split_1 (default EmptyString header));
       if negb (bool_decide (str_lower typ = "basic")) then Ret false
       else
         raw ← b64decode creds;
         decoded ← utf8_decode raw;
         Ret (bool_decide (Some decoded = AUTH)))
      (fun _ => Ret false).

(** ** Numbers: [int], [float], and the [.1f] format *)

(** A finite binary64 value, kept as the exact rational it denotes.  Every
    float below comes from [float_of_int] or from dividing such a value by
    [1024.0]; a division by a power of two is exact in binary64 (the values
    stay far from the subnormal range), so no rounding is lost by computing
    in [Q]. *)
Definition float : Type := Q.

Inductive number : Type :=
| Int (z : Z)
| Float (x : float).

(** [float(n)] for an [int]: rounded to 53 significant bits, ties to even;
    [OverflowError] when the rounded value does not fit binary64. *)
Definition float_of_int (n : Z) : result float :=
  let a := Z.abs n in
  let bits := Z.log2 a + 1 in
  if bits <=? 53 then Ret (inject_Z n)
  else
    let sh := bits - 53 in
    let q := Z.shiftr a sh in
    let r := a - Z.shiftl q sh in
    let half := Z.shiftl 1 (sh - 1) in
    let q' := if (half <? r) || ((r =? half) && Z.odd q) then q + 1 else q in
    let v := Z.shiftl q' sh in
    if 2 ^ 1024 <=? v then Raise OverflowError
    else Ret (inject_Z (Z.sgn n * v)).

(** [n < 1024.0]: Python compares an [int] with a [float] exactly. *)
Definition number_lt (n : number) (bound : Z) : bool :=
  match n with
  | Int z => z <? bound
  | Float x => if Qlt_le_dec x (inject_Z bound) then true else false
  end.

(** [n / 1024.0] *)
Definition number_div (n : number) (d : Z) : result number :=
  match n with
  | Int z => x ← float_of_int z; Ret (Float (x / inject_Z d)%Q)
  | Float x => Ret (Float (x / inject_Z d)%Q)
  end.

(** The nearest integer to a rational, ties to even. *)
Definition round_half_even (x : Q) : Z :=
  let num := Qnum x in
  let den := Z.pos (Qden x) in
  let t := num / den in
  let r := num mod den in
  if den <? 2 * r then t + 1
  else if (2 * r =? den) && Z.odd t then t + 1
  else t.

(** [str(n)] for an [int]: its decimal digits. *)
Definition str_of_int (n : Z) : string := pretty n.

(** [format(x, ".1f")] for a float: the decimal with one digit after the
    point nearest to the exact value, ties to even. *)
Definition format_1f_float (x : float) : string :=
  let tenths := round_half_even (Qabs x * 10)%Q in
  (if Qlt_le_dec x 0 then "-" else "")
  +:+ str_of_int (tenths / 10) +:+ "." +:+ str_of_int (tenths mod 10).

(** [f"{n:3.1f}"] and [f"{n:.1f}"]: an [int] is converted to [float]
    first; the minimum width 3 never pads, the shortest output being
    three characters long. *)
Definition format_1f (n : number) : result string :=
  match n with
  | Int z => x ← float_of_int z; Ret (format_1f_float x)
  | Float x => Ret (format_1f_float x)
  end.

(** ** [human_size] *)

Fixpoint human_size_loop (units : list string) (n : number) : result string :=
  match units with
  | [] => s ← format_1f n; Ret (s +:+ "PB")
  | unit :: units' =>
      if number_lt n 1024 then s ← format_1f n; Ret (s +:+ unit)
      else n' ← number_div n 1024; human_size_loop units' n'
  end.

Definition human_size (n : Z) : result string :=
  human_size_loop ["B"; "KB"; "MB"; "GB"; "TB"] (Int n).

(** ** [pathlib] (POSIX flavour) *)

(** A pure path: its root ([""], ["/"] or ["//"]) and its components. *)
Record PurePath : Type := mkPath { root : string; parts : list string }.

#[global] Instance PurePath_eq_dec : EqDecision PurePath.
Proof. solve_decision. Defined.

(** [s.split("/")] *)
Fixpoint str_split_slash (s : string) : list string :=
  match s with
  | EmptyString => [EmptyString]
  | String c s' =>
      if bool_decide (c = "/"%char) then EmptyString :: str_split_slash s'
      else match str_split_slash s' with
           | w :: ws => String c w :: ws
           | [] => [String c EmptyString]
           end
  end.

Fixpoint lstrip_slash (s : string) : string :=
  match s with
  | String c s' => if bool_decide (c = "/"%char) then lstrip_slash s' else s
  | EmptyString => EmptyString
  end.

(** [splitroot]: exactly two leading slashes are a root of their own, any
    other number of them is the root ["/"]. *)
Definition splitroot (part : string) : string * string :=
  match part with
  | String "/" _ =>
      let stripped := lstrip_slash part in
      if (String.length part - String.length stripped =? 2)%nat
      then ("//", stripped) else ("/", stripped)
  | _ => (EmptyString, part)
  end.

Definition is_component (x : string) : bool :=
  negb (bool_decide (x = EmptyString)) && negb (bool_decide (x = ".")).

(** [PurePosixPath(s)]: empty components and ["."] are dropped, [".."] stays. *)
Definition Path (s : string) : PurePath :=
  let '(r, rel) := splitroot s in
  mkPath r (List.filter is_component (str_split_slash rel)).

(** [a / s]: a rooted right operand replaces the left one. *)
Definition joinpath (a : PurePath) (s : string) : PurePath :=
  let b := Path s in
  if bool_decide (root b = EmptyString) then mkPath (root a) (parts a ++ parts b) else b.

Fixpoint str_join (sep : string) (l : list string) : string :=
  match l with
  | [] => EmptyString
  | [x] => x
  | x :: l' => x +:+ sep +:+ str_join sep l'
  end.

(** [p.as_posix()], which is [str(p)] on POSIX. *)
Definition as_posix (p : PurePath) : string :=
  match root p, parts p with
  | EmptyString, [] => "."
  | r, ps => r +:+ str_join "/" ps
  end.

(** [p.name] *)
Definition name (p : PurePath) : string := List.last (parts p) EmptyString.

(** [p.parent] *)
Definition parent (p : PurePath) : PurePath := mkPath (root p) (removelast (parts p)).

Fixpoint is_prefix (a b : list string) : bool :=
  match a, b with
  | [], _ => true
  | x :: a', y :: b' => bool_decide (x = y) && is_prefix a' b'
  | _ :: _, [] => false
  end.

(** [p.relative_to(other)] raises [ValueError] unless [other] has the root
    of [p] and its components begin those of [p]; the comparison is by
    whole components. *)
Definition relative_to (p other : PurePath) : result PurePath :=
  if bool_decide (root p = root other) && is_prefix (parts other) (parts p)
  then Ret (mkPath EmptyString (drop (length (parts other)) (parts p)))
  else Raise ValueError.

(** ** The file system *)

(** A file system is the tree under ["/"].  A directory lists its entries
    in the order the platform enumerates them (names within one directory
    are distinct); a symbolic link keeps its target as written. *)
Inductive node : Type :=
| File (mtime : Z) (data : list byte)
| Dir (mtime : Z) (entries : list (string * node))
| Symlink (target : string).

Fixpoint entry_lookup (x : string) (entries : list (string * node)) : option node :=
  match entries with
  | [] => None
  | (y, n) :: entries' => if bool_decide (x = y) then Some n else entry_lookup x entries'
  end.

(** The node a sequence of names leads to from ["/"], no link followed. *)
Fixpoint lookup_node (fs : node) (p : list string) : option node :=
  match p with
  | [] => Some fs
  | x :: p' =>
      match fs with
      | Dir _ entries =>
          match entry_lookup x entries with
          | Some n => lookup_node n p'
          | None => None
          end
      | _ => None
      end
  end.

Definition is_absolute (s : string) : bool :=
  match s with
  | String "/" _ => true
  | _ => false
  end.

(** Path resolution as the kernel does it for [stat]: every component is
    looked up in a directory, links are followed (nested at most [depth]
    deep), [".."] is the parent.  [None] stands for the errors [ENOENT],
    [ENOTDIR] and [ELOOP]. *)
Fixpoint namei (depth : nat) (fs : node) (cur rest : list string) : option (list string) :=
  (fix loop (cur rest : list string) {struct rest} : option (list string) :=
     match rest with
     | [] => Some cur
     | x :: rest' =>
         match lookup_node fs cur with
         | Some (Dir _ _) =>
             if negb (is_component x) then loop cur rest'
             else if bool_decide (x = "..") then loop (removelast cur) rest'
             else
               match lookup_node fs (cur ++ [x]) with
               | Some (Symlink target) =>
                   match depth with
                   | O => None
                   | S depth' =>
                       if bool_decide (target = EmptyString) then None
                       else
                         match namei depth' fs (if is_absolute target then [] else cur)
                                 (str_split_slash target) with
                         | Some cur' => loop cur' rest'
                         | None => None
                         end
                   end
               | Some _ => loop (cur ++ [x]) rest'
               | None => None
               end
         | _ => None
         end
     end) cur rest.

Definition MAXSYMLINKS : nat := 40.

(** The node [stat] reports on: the one the path leads to, links followed. *)
Definition stat_node (fs : node) (p : list string) : option node :=
  match namei MAXSYMLINKS fs [] p with
  | Some q => lookup_node fs q
  | None => None
  end.

(** The error the resolution of [namei] ends with, where it gives no
    path: [ENOENT] ([FileNotFoundError]) for a name that is not there and
    for a link with an empty target, [ENOTDIR] ([NotADirectoryError]) for
    a name looked up in what is no directory, [ELOOP] (an [OSError] of no
    more special class) for links nested deeper than [depth]. *)
Fixpoint namei_error (depth : nat) (fs : node) (cur rest : list string) : option exn :=
  (fix loop (cur rest : list string) {struct rest} : option exn :=
     match rest with
     | [] => None
     | x :: rest' =>
         match lookup_node fs cur with
         | Some (Dir _ _) =>
             if negb (is_component x) then loop cur rest'
             else if bool_decide (x = "..") then loop (removelast cur) rest'
             else
               match lookup_node fs (cur ++ [x]) with
               | Some (Symlink target) =>
                   match depth with
                   | O => Some OSError
                   | S depth' =>
                       if bool_decide (target = EmptyString) then Some FileNotFoundError
                       else
                         let start := if is_absolute target then [] else cur in
                         match namei depth' fs start (str_split_slash target) with
                         | Some cur' => loop cur' rest'
                         | None => namei_error depth' fs start (str_split_slash target)
                         end
                   end
               | Some _ => loop (cur ++ [x]) rest'
               | None => Some FileNotFoundError
               end
         | Some _ => Some NotADirectoryError
         | None => Some FileNotFoundError
         end
     end) cur rest.

Record stat_result : Type := mkStat { st_isdir : bool; st_size : Z; st_mtime : Z }.

(** [os.stat(p)] ([p.stat()]); the size of a directory is never read by
    the program and is left at 0.  Where the path leads to no file and
    no directory, the exception is the one of the error the resolution
    ended with. *)
Definition os_stat (fs : node) (p : list string) : result stat_result :=
  match stat_node fs p with
  | Some (File mtime data) => Ret (mkStat false (Z.of_nat (length data)) mtime)
  | Some (Dir mtime _) => Ret (mkStat true 0 mtime)
  | _ => Raise (default FileNotFoundError (namei_error MAXSYMLINKS fs [] p))
  end.

(** [p.exists()], [p.is_dir()], [p.is_file()]: [False] when [stat] fails. *)
Definition exists_ (fs : node) (p : list string) : bool :=
  match stat_node fs p with
  | Some _ => true
  | None => false
  end.

Definition is_dir (fs : node) (p : list string) : bool :=
  match stat_node fs p with
  | Some (Dir _ _) => true
  | _ => false
  end.

Definition is_file (fs : node) (p : list string) : bool :=
  match stat_node fs p with
  | Some (File _ _) => true
  | _ => false
  end.

(** [os.listdir(p)] for a directory: the names in the platform's order. *)
Definition listdir (fs : node) (p : list string) : list string :=
  match stat_node fs p with
  | Some (Dir _ entries) => map fst entries
  | _ => []
  end.

(** The bytes of the regular file at [p]. *)
Definition read_bytes (fs : node) (p : list string) : option (list byte) :=
  match stat_node fs p with
  | Some (File _ data) => Some data
  | _ => None
  end.

(** *** [os.path.realpath] and [Path.resolve] *)

(** The [seen] dictionary of [_joinrealpath]: a link maps to [None] while
    it is being resolved and to its resolved path afterwards. *)
Definition seen_dict : Type := list (list string * option (list string)).

Fixpoint seen_get (k : list string) (seen : seen_dict) : option (option (list string)) :=
  match seen with
  | [] => None
  | (k', v) :: seen' => if bool_decide (k = k') then Some v else seen_get k seen'
  end.

Fixpoint count_links (n : node) : nat :=
  match n with
  | File _ _ => O
  | Symlink _ => 1%nat
  | Dir _ entries =>
      (fix go (es : list (string * node)) : nat :=
         match es with
         | [] => O
         | (_, ch) :: es' => (count_links ch + go es')%nat
         end) entries
  end.

(** [_joinrealpath(path, rest, strict=False, seen)] on absolute paths, as
    lists of components.  A name that cannot be looked up is kept as it
    is; a link met again while it is being resolved ends the resolution
    with [ok = False].  [budget] bounds the nesting of links being
    resolved: these are distinct links of the tree, so a budget above
    their number is never used up. *)
Fixpoint joinrealpath (budget : nat) (fs : node) (path rest : list string) (seen : seen_dict)
  : list string * bool * seen_dict :=
  (fix loop (path rest : list string) (seen : seen_dict) {struct rest}
     : list string * bool * seen_dict :=
     match rest with
     | [] => (path, true, seen)
     | x :: rest' =>
         if negb (is_component x) then loop path rest' seen
         else if bool_decide (x = "..") then loop (removelast path) rest' seen
         else
           let newpath := path ++ [x] in
           match lookup_node fs newpath with
           | Some (Symlink target) =>
               match seen_get newpath seen with
               | Some (Some cached) => loop cached rest' seen
               | Some None => (newpath ++ rest', false, seen)
               | None =>
                   match budget with
                   | O => (newpath ++ rest', false, seen)
                   | S budget' =>
                       let '(path', ok, seen') :=
                         joinrealpath budget' fs (if is_absolute target then [] else path)
                           (str_split_slash target) ((newpath, None) :: seen) in
                       if ok then loop path' rest' ((newpath, Some path') :: seen')
                       else (path' ++ rest', false, seen')
                   end
               end
           | _ => loop newpath rest' seen
           end
     end) path rest seen.

Definition has_nul (s : string) : bool :=
  existsb (fun c => bool_decide (c = zero)) (list_ascii_of_string s).

(** [p.resolve()] (not strict).  The components are resolved from ["/"],
    or from the working directory for a relative path.  A name with a NUL
    character makes [os.lstat] raise [ValueError]; a loop of links is a
    [RuntimeError] (CPython up to 3.12, where [resolve] checks the result
    of [realpath] for a loop). *)
Definition resolve (fs : node) (cwd : list string) (p : PurePath) : result PurePath :=
  if existsb has_nul (parts p) then Raise ValueError
  else
    let start := if bool_decide (root p = EmptyString) then cwd else [] in
    let '(path, ok, _) := joinrealpath (S (count_links fs)) fs start (parts p) [] in
    if ok then Ret (mkPath "/" path) else Raise RuntimeError.

(** *** [os.walk] *)

(** [entry.is_dir()] for an entry of [scandir(top)]: links are followed. *)
Definition entry_is_dir (fs : node) (top : list string) (e : string * node) : bool :=
  match snd e with
  | Dir _ _ => true
  | File _ _ => false
  | Symlink _ => is_dir fs (top ++ [fst e])
  end.

(** [os.walk(top)], top down, links to directories not entered: for each
    directory its path, the names of its directories and the names of its
    other entries. *)
Fixpoint walk_node (fs : node) (top : list string) (n : node)
  : list (list string * list string * list string) :=
  match n with
  | Dir _ entries =>
      (top,
       map fst (List.filter (entry_is_dir fs top) entries),
       map fst (List.filter (fun e => negb (entry_is_dir fs top e)) entries))
      :: (fix sub (es : list (string * node)) : list (list string * list string * list string) :=
            match es with
            | [] => []
            | (x, ch) :: es' =>
                match ch with
                | Dir _ _ => walk_node fs (top ++ [x]) ch
                | _ => []
                end ++ sub es'
            end) entries
  | _ => []
  end.

Definition os_walk (fs : node) (top : list string)
  : list (list string * list string * list string) :=
  match lookup_node fs top with
  | Some n => walk_node fs top n
  | None => []
  end.

(** * The program *)

(** The entries of a listing (the dictionaries [list_dir] and
    [build_index] build) and the listing itself. *)
Record dir_entry : Type :=
  mkDirEntry { dir_name : string; dir_relpath : string; dir_mtime : string }.

Record file_entry : Type :=
  mkFileEntry { file_name : string; file_relpath : string; file_size : string;
                file_mtime : string }.

Record listing : Type :=
  mkListing { dirs : list dir_entry; files : list file_entry; cwd : string }.

#[global] Instance dir_entry_eq_dec : EqDecision dir_entry.
Proof. solve_decision. Defined.
#[global] Instance file_entry_eq_dec : EqDecision file_entry.
Proof. solve_decision. Defined.

(** [sorted(p.iterdir())]: the children of one directory compare by their
    names, code point by code point. *)
Definition sorted_names (l : list string) : list string := merge_sort String.le l.

Section Dropper.

(** [datetime.fromtimestamp(t).strftime("%Y-%m-%d %H:%M:%S")]: the text
    depends on the time zone of the process. *)
Variable format_mtime : Z -> string.

(** [os.getcwd()]; the program never changes it. *)
Variable getcwd : list string.

(** ** Filesystem helpers *)

Definition safe_resolve (fs : node) (ROOT : PurePath) (rel_path : string) : result PurePath :=
  target ← resolve fs getcwd (joinpath ROOT rel_path);
  _ ← try_except (relative_to target ROOT) (fun _ => abort 404);
  Ret target.

(** The body of [for child in sorted(p.iterdir())] in [list_dir]. *)
Fixpoint list_dir_loop (fs : node) (rel_path : string) (p : PurePath)
    (children : list string) (dirs : list dir_entry) (files : list file_entry)
  : result (list dir_entry * list file_entry) :=
  match children with
  | [] => Ret (dirs, files)
  | child :: children' =>
      let child_path := parts p ++ [child] in
      if is_dir fs child_path then
        st ← os_stat fs child_path;
        list_dir_loop fs rel_path p children'
          (dirs ++ [mkDirEntry child (as_posix (joinpath (Path rel_path) child))
                      (format_mtime (st_mtime st))])
          files
      else if is_file fs child_path then
        st ← os_stat fs child_path;
        size ← human_size (st_size st);
        st' ← os_stat fs child_path;
        list_dir_loop fs rel_path p children' dirs
          (files ++ [mkFileEntry child (as_posix (joinpath (Path rel_path) child))
                       size (format_mtime (st_mtime st'))])
      else list_dir_loop fs rel_path p children' dirs files
  end.

Definition list_dir (fs : node) (ROOT : PurePath) (rel_path : string) : result listing :=
  p ← safe_resolve fs ROOT rel_path;
  if negb (exists_ fs (parts p)) || negb (is_dir fs (parts p)) then abort 404
  else
    '(dirs, files) ← list_dir_loop fs rel_path p (sorted_names (listdir fs (parts p))) [] [];
    Ret (mkListing dirs files (as_posix (Path rel_path))).

(** The root-relative path of the file [f] found in the directory whose
    root-relative path is [rel_root]. *)
Definition walk_relpath (rel_root f : string) : string :=
  if negb (bool_decide (rel_root = ".")) then as_posix (joinpath (Path rel_root) f) else f.

(** The body of [for f in files] in [build_index]. *)
Fixpoint build_index_files (fs : node) (root_p : PurePath) (rel_root : string)
    (files : list string) (out : list file_entry) : result (list file_entry) :=
  match files with
  | [] => Ret out
  | f :: files' =>
      let fp := joinpath root_p f in
      st ← os_stat fs (parts fp);
      size ← human_size (st_size st);
      st' ← os_stat fs (parts fp);
      build_index_files fs root_p rel_root files'
        (out ++ [mkFileEntry f (walk_relpath rel_root f) size (format_mtime (st_mtime st'))])
  end.

(** The body of [for root, dirs, files in os.walk(ROOT)] in [build_index]. *)
Fixpoint build_index_loop (fs : node) (ROOT : PurePath)
    (walk : list (list string * list string * list string)) (out : list file_entry)
  : result (list file_entry) :=
  match walk with
  | [] => Ret out
  | (top, _, files) :: walk' =>
      let root_p := mkPath "/" top in
      rel ← relative_to root_p ROOT;
      out' ← build_index_files fs root_p (as_posix rel) files out;
      build_index_loop fs ROOT walk' out'
  end.

Definition build_index (fs : node) (ROOT : PurePath) : result (list file_entry) :=
  build_index_loop fs ROOT (os_walk fs (parts ROOT)) [].

(** ** The short-name table *)

(** [p.rfind(c)]: the index of the last [c] in [p], or -1. *)
Fixpoint str_rfind_from (c : ascii) (p : string) (i found : Z) : Z :=
  match p with
  | EmptyString => found
  | String a p' => str_rfind_from c p' (i + 1) (if bool_decide (a = c) then i else found)
  end.

Definition str_rfind (c : ascii) (p : string) : Z := str_rfind_from c p 0 (-1).

(** [p[:i]] and [p[i:]] for an index [0 <= i]. *)
Definition str_take (i : Z) (p : string) : string := substring 0 (Z.to_nat i) p.
Definition str_drop (i : Z) (p : string) : string :=
  substring (Z.to_nat i) (String.length p - Z.to_nat i) p.

(** The [while filenameIndex < dotIndex] loop of [os.path.splitext], with
    the number of iterations left: leading dots are skipped. *)
Fixpoint splitext_loop (left : nat) (p : string) (filenameIndex dotIndex : Z)
  : option (string * string) :=
  match left with
  | O => None
  | S left' =>
      if negb (bool_decide (String.get (Z.to_nat filenameIndex) p = Some "."%char))
      then Some (str_take dotIndex p, str_drop dotIndex p)
      else splitext_loop left' p (filenameIndex + 1) dotIndex
  end.

(** [os.path.splitext(p)] *)
Definition splitext (p : string) : string * string :=
  let sepIndex := str_rfind "/" p in
  let dotIndex := str_rfind "." p in
  if sepIndex <? dotIndex then
    match splitext_loop (Z.to_nat (dotIndex - (sepIndex + 1))) p (sepIndex + 1) dotIndex with
    | Some r => r
    | None => (p, EmptyString)
    end
  else (p, EmptyString).

(** [f"{base}_{i}{ext}"] *)
Definition suffixed (base ext : string) (i : Z) : string :=
  base +:+ "_" +:+ str_of_int i +:+ ext.

(** [while f"{base}_{i}{ext}" in SHORT_URLS: i += 1], started at [i]; the
    value of [i] when the loop ends.  The loop cannot run more often than
    the table has keys, which [steps] counts down from. *)
Fixpoint next_free (steps : nat) (SHORT_URLS : gmap string string) (base ext : string) (i : Z)
  : Z :=
  match steps with
  | O => i
  | S steps' =>
      if bool_decide (is_Some (SHORT_URLS !! suffixed base ext i))
      then next_free steps' SHORT_URLS base ext (i + 1)
      else i
  end.

(** The short name the file [f] gets, given the table built so far. *)
Definition short_name (SHORT_URLS : gmap string string) (f : string) : string :=
  if bool_decide (is_Some (SHORT_URLS !! f)) then
    let '(base, ext) := splitext f in
    let i := next_free (size SHORT_URLS) SHORT_URLS base ext 1 in
    suffixed base ext i
  else f.

(** The body of [for f in files]. *)
Fixpoint short_urls_files (rel_root : string) (files : list string)
    (SHORT_URLS : gmap string string) : gmap string string :=
  match files with
  | [] => SHORT_URLS
  | f :: files' =>
      short_urls_files rel_root files'
        (<[short_name SHORT_URLS f := walk_relpath rel_root f]> SHORT_URLS)
  end.

(** The body of [for root, dirs, files in os.walk(ROOT)]. *)
Fixpoint short_urls_loop (ROOT : PurePath)
    (walk : list (list string * list string * list string))
    (SHORT_URLS : gmap string string) : result (gmap string string) :=
  match walk with
  | [] => Ret SHORT_URLS
  | (top, _, files) :: walk' =>
      rel ← relative_to (mkPath "/" top) ROOT;
      short_urls_loop ROOT walk' (short_urls_files (as_posix rel) files SHORT_URLS)
  end.

Definition build_short_urls (fs : node) (ROOT : PurePath) : result (gmap string string) :=
  short_urls_loop ROOT (os_walk fs (parts ROOT)) ∅.

(** ** Requests, responses and the authentication gate *)

(** The routes of the application with the arguments Flask's URL matching
    hands to the view ([GET] requests).  A query parameter that is missing
    is [None]. *)
Inductive route : Type :=
| index_route
| ls_route (path : option string)
| search_route (q : option string)
| dl_route (relpath : string)
| download_route (relpath : string)
| drop_route (filename : string)
| ping_route.

(** A request: the route it matched and its [Authorization] header.  It
    carries no other header; in particular none that asks for a range of
    the file or makes the answer conditional. *)
Record request : Type := mkRequest { url : route; authorization : option string }.

Inductive body : Type :=
| Text (s : string)
| IndexPage (root_shown start : string)
| JsonListing (l : listing)
| JsonEntries (l : list file_entry)
| FileBytes (data : list byte)
| ErrorPage.

(** A response: its status, the [WWW-Authenticate] header, the file name
    of a [Content-Disposition: attachment], the route a redirect leads
    to, and the body. *)
Record response : Type :=
  mkResponse { status : Z; www_authenticate : option string; attachment : option string;
               location : option route; content : body }.

Definition ok (b : body) : response := mkResponse 200 None None None b.

Record config : Type :=
  mkConfig { ROOT : PurePath; AUTH : option ustr; SHORT_URLS : gmap string string }.

Definition dquote : string := String (chr 34) EmptyString.

(** [requires_auth(func)], applied to the request at hand. *)
Definition requires_auth (cfg : config) (req : request) (func : result response)
  : result response :=
  passed ← match AUTH cfg with
            | None => Ret true
            | Some _ => check_auth_header (AUTH cfg) (authorization req)
            end;
  if (passed : bool) then func
  else Ret (mkResponse 401 (Some ("Basic realm=" +:+ dquote +:+ "Dropper" +:+ dquote))
              None None (Text "Authentication required")).

(** ** Routes

    Each view is a function under [@requires_auth] (except [ping]): the
    function as written is [f_view], and the name [f] is what the
    decorator makes of it. *)

Definition index_page_view (cfg : config) : result response :=
  let start := EmptyString in
  Ret (ok (IndexPage (as_posix (ROOT cfg)) start)).

Definition index_page (cfg : config) (req : request) : result response :=
  requires_auth cfg req (index_page_view cfg).

Definition api_ls_view (cfg : config) (fs : node) (path : option string) : result response :=
  let rel := default "." path in
  let rel := if bool_decide (rel = ".") then EmptyString else rel in
  l ← list_dir fs (ROOT cfg) rel;
  Ret (ok (JsonListing l)).

Definition api_ls (cfg : config) (fs : node) (req : request) (path : option string)
  : result response :=
  requires_auth cfg req (api_ls_view cfg fs path).

(** The body of [for e in idx] in [api_search]. *)
Fixpoint api_search_loop (q : string) (idx out : list file_entry) : list file_entry :=
  match idx with
  | [] => out
  | e :: idx' =>
      if str_in q (str_lower (file_name e)) || str_in q (str_lower (file_relpath e))
      then api_search_loop q idx' (out ++ [e])
      else api_search_loop q idx' out
  end.

Definition api_search_view (cfg : config) (fs : node) (q : option string) : result response :=
  let q := str_lower (str_strip (default EmptyString q)) in
  if bool_decide (q = EmptyString) then Ret (ok (JsonEntries []))
  else
    idx ← build_index fs (ROOT cfg);
    Ret (ok (JsonEntries (api_search_loop q idx []))).

Definition api_search (cfg : config) (fs : node) (req : request) (q : option string)
  : result response :=
  requires_auth cfg req (api_search_view cfg fs q).

(** [send_from_directory(directory, filename, as_attachment=True)] for a
    plain file name and a request without range or conditional headers:
    the file is sent when it is a regular file, and is not found
    otherwise. *)
Definition send_from_directory (fs : node) (directory : PurePath) (filename : string)
  : result response :=
  match read_bytes fs (parts directory ++ [filename]) with
  | Some data => Ret (mkResponse 200 None (Some filename) None (FileBytes data))
  | None => abort 404
  end.

Definition dl_view (cfg : config) (fs : node) (relpath : string) : result response :=
  target ← safe_resolve fs (ROOT cfg) relpath;
  if negb (exists_ fs (parts target)) || negb (is_file fs (parts target)) then abort 404
  else send_from_directory fs (parent target) (name target).

Definition dl (cfg : config) (fs : node) (req : request) (relpath : string)
  : result response :=
  requires_auth cfg req (dl_view cfg fs relpath).

Definition legacy_dl_view (relpath : string) : result response :=
  Ret (mkResponse 302 None None (Some (dl_route relpath)) (Text EmptyString)).

Definition legacy_dl (cfg : config) (req : request) (relpath : string) : result response :=
  requires_auth cfg req (legacy_dl_view relpath).

(** [drop] calls [dl], the decorated view. *)
Definition drop_view (cfg : config) (fs : node) (req : request) (filename : string)
  : result response :=
  if negb (bool_decide (is_Some (SHORT_URLS cfg !! filename))) then abort 404
  else dl cfg fs req (default EmptyString (SHORT_URLS cfg !! filename)).

Definition drop (cfg : config) (fs : node) (req : request) (filename : string)
  : result response :=
  requires_auth cfg req (drop_view cfg fs req filename).

Definition ping : result response := Ret (ok (Text "ok")).

(** What Flask makes of a view that raises: the response of an
    [HTTPException], and 500 for any other exception. *)
Definition handle_exception (r : result response) : response :=
  match r with
  | Ret resp => resp
  | Raise (HTTPException code) => mkResponse code None None None ErrorPage
  | Raise _ => mkResponse 500 None None None ErrorPage
  end.

(** The application: the view of the route, run on the file system as it
    is when the request arrives. *)
Definition app (cfg : config) (fs : node) (req : request) : response :=
  handle_exception
    match url req with
    | index_route => index_page cfg req
    | ls_route path => api_ls cfg fs req path
    | search_route q => api_search cfg fs req q
    | dl_route relpath => dl cfg fs req relpath
    | download_route relpath => legacy_dl cfg req relpath
    | drop_route filename => drop cfg fs req filename
    | ping_route => ping
    end.

(** ** Start-up *)

(** The parsed command line and the environment variable [DROP_AUTH]. *)
Record arguments : Type :=
  mkArguments { arg_dir : string; arg_host : string; arg_port : string; arg_no_auth : bool }.

(** What the process does that can be seen from outside, in order. *)
Inductive event : Type :=
| Print (line : string)
| Mkdir (p : PurePath)
| Run (host : string) (port : Z).

(** How the script ends: [sys.exit(code)], an exception nobody catches, or
    the server serving requests with its configuration. *)
Inductive outcome : Type :=
| Exited (code : Z)
| Crashed (e : exn)
| Serving (cfg : config) (fs : node).

(** [int(s)] for a decimal literal: white space around it, a sign, and
    digits that single underscores may separate. *)
Fixpoint int_digits (l : list ascii) (acc : Z) (after_digit : bool) : option Z :=
  match l with
  | [] => if after_digit then Some acc else None
  | c :: l' =>
      let n := ord c in
      if (48 <=? n) && (n <=? 57) then int_digits l' (10 * acc + (n - 48)) true
      else if bool_decide (c = "_"%char) && after_digit then int_digits l' acc false
      else None
  end.

Definition int_of_str (s : string) : result Z :=
  let digits sign l :=
    match int_digits l 0 false with
    | Some n => Ret (sign * n)
    | None => Raise ValueError
    end in
  match list_ascii_of_string (str_strip s) with
  | "-"%char :: l => digits (-1) l
  | "+"%char :: l => digits 1 l
  | l => digits 1 l
  end.

Fixpoint new_dirs (now : Z) (p : list string) : node :=
  match p with
  | [] => Dir now []
  | x :: p' => Dir now [(x, new_dirs now p')]
  end.

(** [os.makedirs(p, exist_ok=True)] at time [now]: the missing directories
    of [p] are created; a component that is no directory is an error. *)
Fixpoint makedirs (now : Z) (fs : node) (p : list string) : result node :=
  match p with
  | [] => match fs with
          | Dir _ _ => Ret fs
          | _ => Raise OSError
          end
  | x :: p' =>
      match fs with
      | Dir mtime entries =>
          match entry_lookup x entries with
          | None => Ret (Dir now (entries ++ [(x, new_dirs now p')]))
          | Some _ =>
              entries' ←
                (fix update (es : list (string * node)) : result (list (string * node)) :=
                   match es with
                   | [] => Ret []
                   | (y, n) :: es' =>
                       if bool_decide (x = y) then
                         n' ← makedirs now n p'; Ret ((y, n') :: es')
                       else es'' ← update es'; Ret ((y, n) :: es'')
                   end) entries;
              Ret (Dir mtime entries')
          end
      | _ => Raise OSError
      end
  end.

Definition newline : string := String (chr 10) EmptyString.

(** The lines printed when no credential is configured. *)
Definition missing_auth_message : list string :=
  [ newline +:+ "ERROR: DROP_AUTH environment variable is not set.";
    "Please set a username and password to secure the server. Format: user:pass";
    newline +:+ "Example:";
    "  On Linux/macOS terminal:";
    "    export DROP_AUTH=" +:+ dquote +:+ "admin:mypassword" +:+ dquote;
    "  On Windows CMD:";
    "    set DROP_AUTH=admin:mypassword";
    "  On Windows PowerShell:";
    "    $env:DROP_AUTH=" +:+ dquote +:+ "admin:mypassword" +:+ dquote +:+ newline;
    "If you want to run the server without authentication, use the --no-auth flag." ].

(** [not AUTH] *)
Definition auth_is_empty (a : option ustr) : bool :=
  match a with
  | None => true
  | Some [] => true
  | Some _ => false
  end.

(** The first lines of the script: the root is resolved, and created when
    it does not exist. *)
Definition setup_root (now : Z) (args : arguments) (fs : node)
  : list event * result (PurePath * node) :=
  match resolve fs getcwd (Path (arg_dir args)) with
  | Raise e => ([], Raise e)
  | Ret ROOT =>
      if negb (exists_ fs (parts ROOT)) then
        ([Print ("Creating root: " +:+ as_posix ROOT); Mkdir ROOT],
         fs' ← makedirs now fs (parts ROOT); Ret (ROOT, fs'))
      else ([], Ret (ROOT, fs))
  end.

(** The script from top to bottom, run as [__main__] at time [now] with
    the parsed arguments, the value of [DROP_AUTH] and the file system:
    the events in order, and how it ends. *)
Definition main (now : Z) (args : arguments) (DROP_AUTH : option ustr) (fs : node)
  : list event * outcome :=
  match setup_root now args fs with
  | (events, Raise e) => (events, Crashed e)
  | (events, Ret (ROOT, fs)) =>
      let AUTH := if arg_no_auth args then None else DROP_AUTH in
      if negb (arg_no_auth args) && auth_is_empty AUTH then
        (events ++ map Print missing_auth_message, Exited 1)
      else
        match build_short_urls fs ROOT with
        | Raise e => (events, Crashed e)
        | Ret SHORT_URLS =>
            let host := arg_host args in
            match int_of_str (arg_port args) with
            | Raise e => (events, Crashed e)
            | Ret port =>
                (events ++
                 [ Print ("Dropper serving root: " +:+ as_posix ROOT);
                   Print (if negb (auth_is_empty AUTH)
                          then "Basic auth enabled. Set DROP_AUTH=USER:PASS to change credentials."
                          else "Authentication disabled (--no-auth). Anyone can access files.");
                   Print ("Open http://" +:+ host +:+ ":" +:+ str_of_int port +:+ " in your browser.");
                   Run host port ],
                 Serving (mkConfig ROOT AUTH SHORT_URLS) fs)
            end
        end
  end.

End Dropper.

(** * What the specification says, and examples *)

(** The response of the gate to a request it rejects. *)
Definition challenge : response :=
  mkResponse 401 (Some ("Basic realm=" +:+ dquote +:+ "Dropper" +:+ dquote)) None None
    (Text "Authentication required").

(** The response Flask makes of [abort(404)]. *)
Definition not_found : response := mkResponse 404 None None None ErrorPage.

(** The function a route is bound to, before [requires_auth] is applied. *)
Definition view_of (format_mtime : Z -> string) (getcwd : list string)
    (cfg : config) (fs : node) (req : request) : result response :=
  match url req with
  | index_route => index_page_view cfg
  | ls_route path => api_ls_view format_mtime getcwd cfg fs path
  | search_route q => api_search_view format_mtime cfg fs q
  | dl_route relpath => dl_view getcwd cfg fs relpath
  | download_route relpath => legacy_dl_view relpath
  | drop_route filename => drop_view getcwd cfg fs req filename
  | ping_route => ping
  end.

(** The header carries the credential [cred]: it splits into a scheme
    that is "basic" up to case and a portion that Python's [b64decode]
    and UTF-8 decoding turn into [cred]. *)
Definition carries_credential (cred : ustr) (header : option string) : Prop :=
  exists h typ creds raw,
    header = Some h /\ str_split_1 h = [typ; creds] /\ str_lower typ = "basic"
    /\ b64decode creds = Ret raw /\ utf8_decode raw = Ret cred.

(** Standard base64 as the specification words it (RFC 4648, section 4):
    quads of characters of the alphabet, the last quad possibly ending in
    one or two pads, and nothing else. *)
Definition in_alphabet (c : ascii) : bool :=
  match table_a2b_base64 c with
  | Some _ => true
  | None => false
  end.

Definition is_pad (c : ascii) : bool := bool_decide (c = BASE64_PAD).

Fixpoint valid_base64_chars (l : list ascii) : bool :=
  match l with
  | [] => true
  | a :: b :: c :: d :: l' =>
      in_alphabet a && in_alphabet b &&
      match l' with
      | [] => (in_alphabet c && (in_alphabet d || is_pad d)) || (is_pad c && is_pad d)
      | _ => in_alphabet c && in_alphabet d && valid_base64_chars l'
      end
  | _ => false
  end.

Definition valid_base64 (s : string) : bool := valid_base64_chars (list_ascii_of_string s).

(** The search result as the specification words it: the entries whose
    lower-cased name or path contains the lower-cased query. *)
Definition search_as_specified (q : string) (idx : list file_entry) : list file_entry :=
  List.filter
    (fun e => str_in (str_lower q) (str_lower (file_name e))
              || str_in (str_lower q) (str_lower (file_relpath e)))
    idx.

(** Every regular file of the tree is smaller than 2^63 bytes, the range
    of [st_size]. *)
Fixpoint sizes_in_range (n : node) : bool :=
  match n with
  | File _ data => Z.of_nat (length data) <? 2 ^ 63
  | Symlink _ => true
  | Dir _ entries =>
      (fix all (es : list (string * node)) : bool :=
         match es with
         | [] => true
         | (_, ch) :: es' => sizes_in_range ch && all es'
         end) entries
  end.

(** One division by [1024.0]. *)
Definition div1024 (x : float) : float := (x / inject_Z 1024)%Q.

(** ** Example file systems *)

Definition bytes_of (s : string) : list byte := map byte_of_ascii (list_ascii_of_string s).

(** A stand-in for the local time format: the time stamp in decimal. *)
Definition example_format (t : Z) : string := str_of_int t.

(** [/srv/root] holds [a.txt] and [sub/b.txt]; beside it are
    [/srv/root2/secret.txt] and [/etc/passwd]. *)
Definition example_tree : node :=
  Dir 0
    [ ("srv", Dir 0
         [ ("root", Dir 0
              [ ("sub", Dir 10 [ ("b.txt", File 20 (bytes_of "bbb")) ]);
                ("a.txt", File 30 (repeat Byte.x61 1536)) ]);
           ("root2", Dir 0 [ ("secret.txt", File 40 (bytes_of "secret")) ]) ]);
      ("etc", Dir 0 [ ("passwd", File 50 (bytes_of "root:x:0:0")) ]) ].

Definition example_root : PurePath := mkPath "/" ["srv"; "root"].

(** [Login.txt], [catalog/data.csv] and [notes.md] under [/srv/root]. *)
Definition search_tree : node :=
  Dir 0
    [ ("srv", Dir 0
         [ ("root", Dir 0
              [ ("Login.txt", File 1 (bytes_of "x"));
                ("catalog", Dir 2 [ ("data.csv", File 3 (bytes_of "1,2")) ]);
                ("notes.md", File 4 (bytes_of "n")) ]) ]) ].

(** [a.txt] and [a_1.txt] in the root, and a second [a.txt] in [sub]. *)
Definition collision_tree : node :=
  Dir 0
    [ ("srv", Dir 0
         [ ("root", Dir 0
              [ ("a.txt", File 1 (bytes_of "first"));
                ("a_1.txt", File 2 (bytes_of "other"));
                ("sub", Dir 3 [ ("a.txt", File 4 (bytes_of "second")) ]) ]) ]) ].

(** [a.txt] in the root and a second [a.txt] in [sub], nothing else. *)
Definition two_files_tree : node :=
  Dir 0
    [ ("srv", Dir 0
         [ ("root", Dir 0
              [ ("a.txt", File 1 (bytes_of "first"));
                ("sub", Dir 3 [ ("a.txt", File 4 (bytes_of "second")) ]) ]) ]) ].

Definition admin_admin : ustr := codepoints "admin:admin".

(** The configuration the script computes for [example_tree], guarded by
    the credential [admin:admin], and the same one without a gate. *)
Definition guarded_config : config :=
  mkConfig example_root (Some admin_admin)
    (<["a.txt" := "a.txt"]> (<["b.txt" := "sub/b.txt"]> ∅)).

Definition open_config : config :=
  mkConfig example_root None (<["a.txt" := "a.txt"]> (<["b.txt" := "sub/b.txt"]> ∅)).

Definition example_arguments : arguments :=
  mkArguments "/srv/root" "127.0.0.1" "8000" false.

(** [t] is [ROOT] itself or lies below it: same root, and the components
    of [ROOT] begin those of [t]. *)
Definition is_inside (ROOT t : PurePath) : Prop :=
  root t = root ROOT /\ exists rest, parts t = parts ROOT ++ rest.

(** A tree with symbolic links under [/srv/root]: [out] leads outside the
    root, [in] to a file inside it, [loop] to itself. *)
Definition linked_tree : node :=
  Dir 0
    [ ("srv", Dir 0
         [ ("root", Dir 0
              [ ("sub", Dir 10 [ ("b.txt", File 20 (bytes_of "bbb")) ]);
                ("out", Symlink "/etc");
                ("in", Symlink "sub/b.txt");
                ("loop", Symlink "loop") ]) ]);
      ("etc", Dir 0 [ ("passwd", File 50 (bytes_of "root:x:0:0")) ]) ].

(** The number of files a walk yields. *)
Definition walk_file_count (walk : list (list string * list string * list string)) : nat :=
  sum_list (map (fun entry => length entry.2) walk).

(** The files of a walk in its order, each with its root-relative path:
    the directories as the walk yields them, and within one directory the
    files as its list has them. *)
Definition walk_files (root_dir : PurePath)
    (walk : list (list string * list string * list string)) : list (string * string) :=
  flat_map (fun entry =>
              match relative_to (mkPath "/" entry.1.1) root_dir with
              | Ret rel => map (fun f => (f, walk_relpath (as_posix rel) f)) entry.2
              | Raise _ => []
              end) walk.

(** The short name the specification gives the file name [f] when the
    names [used] are taken: [f] itself when it is unused, and otherwise
    [f] with [_i] before its extension, for the least [i >= 1] whose name
    is unused. *)
Definition spec_short_name (used : list string) (f k : string) : Prop :=
  (splitext f).1 +:+ (splitext f).2 = f
  /\ (k ∉ used)
  /\ (f ∉ used -> k = f)
  /\ (f ∈ used ->
      exists i, 1 <= i
        /\ k = (splitext f).1 +:+ "_" +:+ str_of_int i +:+ (splitext f).2
        /\ forall j, 1 <= j < i ->
             (splitext f).1 +:+ "_" +:+ str_of_int j +:+ (splitext f).2 ∈ used).

Definition search_config : config := mkConfig example_root None ∅.

(** The entry [list_dir] makes for the directory [child] of [p]. *)
Definition dir_entry_of (format_mtime : Z -> string) (fs : node) (rel_path : string)
    (p : PurePath) (child : string) (e : dir_entry) : Prop :=
  dir_name e = child
  /\ dir_relpath e = as_posix (joinpath (Path rel_path) child)
  /\ exists st, os_stat fs (parts p ++ [child]) = Ret st
                /\ dir_mtime e = format_mtime (st_mtime st).

(** The entry [list_dir] makes for the file [child] of [p]. *)
Definition file_entry_of (format_mtime : Z -> string) (fs : node) (rel_path : string)
    (p : PurePath) (child : string) (e : file_entry) : Prop :=
  file_name e = child
  /\ file_relpath e = as_posix (joinpath (Path rel_path) child)
  /\ exists st, os_stat fs (parts p ++ [child]) = Ret st
                /\ human_size (st_size st) = Ret (file_size e)
                /\ file_mtime e = format_mtime (st_mtime st).

(** A size as a person reads it: the number of bytes [n], as a float,
    divided by 1024 as often as the unit says (as often as it takes to
    get below 1024, and five times for PB), printed as the nearest decimal
    with one digit after the point, and followed by the unit. *)
Definition human_readable (n : Z) (s : string) : Prop :=
  exists (k : nat) (x : float),
    (k <= 5)%nat
    /\ (k <> O -> 1024 ^ Z.of_nat k <= n)
    /\ (k <> 5%nat -> n < 1024 ^ Z.of_nat (S k))
    /\ float_of_int n = Ret x
    /\ (n < 2 ^ 53 -> x = inject_Z n)
    /\ let t := round_half_even (Nat.iter k div1024 x * 10) in
       s = str_of_int (t / 10) +:+ "." +:+ str_of_int (t mod 10)
           +:+ nth k ["B"; "KB"; "MB"; "GB"; "TB"; "PB"] EmptyString.

(** A name a directory entry can have: not empty, not ["."] or [".."],
    and without a slash. *)
Definition plain_name (x : string) : bool :=
  is_component x && negb (bool_decide (x = ".."))
  && forallb (fun c => negb (bool_decide (c = "/"%char))) (list_ascii_of_string x).

(** The names of every directory of the tree are plain and distinct. *)
Fixpoint names_plain (n : node) : bool :=
  match n with
  | File _ _ => true
  | Symlink _ => true
  | Dir _ entries =>
      forallb plain_name (map fst entries)
      && bool_decide (NoDup (map fst entries))
      && (fix all (es : list (string * node)) : bool :=
            match es with
            | [] => true
            | (_, ch) :: es' => names_plain ch && all es'
            end) entries
  end.

(** What a walk yields for one directory: the directory is in the tree,
    and the files it names are entries of it that are no directories. *)
Definition walk_entry_ok (fs : node) (entry : list string * list string * list string)
  : Prop :=
  exists mtime entries,
    lookup_node fs entry.1.1 = Some (Dir mtime entries)
    /\ names_plain (Dir mtime entries) = true
    /\ forall f, In f entry.2 ->
         exists ch, entry_lookup f entries = Some ch
                    /\ forall mtime' entries', ch <> Dir mtime' entries'.

(** The paths of the symbolic links of a tree. *)
Fixpoint link_paths (n : node) : list (list string) :=
  match n with
  | File _ _ => []
  | Symlink _ => [[]]
  | Dir _ entries =>
      (fix go (es : list (string * node)) : list (list string) :=
         match es with
         | [] => []
         | (x, ch) :: es' => map (cons x) (link_paths ch) ++ go es'
         end) entries
  end.

(** The links being resolved according to [seen] are exactly those of
    [stack], which are distinct links of the tree. *)
Definition seen_matches (fs : node) (seen : seen_dict) (stack : list (list string)) : Prop :=
  NoDup stack
  /\ (forall k, seen_get k seen = Some None <-> k ∈ stack)
  /\ (forall k, k ∈ stack -> k ∈ link_paths fs).

(** ** Notions for the further properties *)

(** A name without a slash. *)
Definition no_slash (x : string) : bool :=
  forallb (fun c => negb (bool_decide (c = "/"%char))) (list_ascii_of_string x).

(** What [PurePosixPath] keeps of a string: one of the three roots, and
    components that are not empty, not ["."] and hold no slash. *)
Definition normal_path (p : PurePath) : Prop :=
  (root p = EmptyString \/ root p = "/" \/ root p = "//")
  /\ Forall (fun x => is_component x = true /\ no_slash x = true) (parts p).

(** No name of the tree holds a NUL character. *)
Fixpoint names_nul_free (n : node) : bool :=
  match n with
  | File _ _ => true
  | Symlink _ => true
  | Dir _ entries =>
      (fix all (es : list (string * node)) : bool :=
         match es with
         | [] => true
         | (x, ch) :: es' => negb (has_nul x) && names_nul_free ch && all es'
         end) entries
  end.

(** The root-relative paths of the files of a walk, in its order. *)
Definition walk_relpaths (root_dir : PurePath)
    (walk : list (list string * list string * list string)) : list string :=
  flat_map (fun entry => match relative_to (mkPath "/" entry.1.1) root_dir with
                         | Ret rel => map (walk_relpath (as_posix rel)) entry.2
                         | Raise _ => []
                         end) walk.

(** The entry [build_index] makes for the file [f] of the directory
    [root_p], whose root-relative path is [rel_root]. *)
Definition index_entry_of (format_mtime : Z -> string) (fs : node) (root_p : PurePath)
    (rel_root f : string) (e : file_entry) : Prop :=
  file_name e = f
  /\ file_relpath e = walk_relpath rel_root f
  /\ exists st, os_stat fs (parts (joinpath root_p f)) = Ret st
                /\ human_size (st_size st) = Ret (file_size e)
                /\ file_mtime e = format_mtime (st_mtime st).

(** The exceptions a failing [stat] raises: [FileNotFoundError],
    [NotADirectoryError], or the [OSError] of a loop of links. *)
Definition stat_failure (e : exn) : Prop :=
  e = FileNotFoundError \/ e = NotADirectoryError \/ e = OSError.

(** [/srv/root] holds [a.txt] and the link [gone], whose target does not
    exist. *)
Definition dangling_tree : node :=
  Dir 0
    [ ("srv", Dir 0
         [ ("root", Dir 0 [ ("a.txt", File 1 []); ("gone", Symlink "nowhere") ]) ]) ].

(** A short name of the file name [f]: the name itself, or the name with
    [_i] before its extension for some [i >= 1]. *)
Definition short_name_of (f k : string) : Prop :=
  k = f \/ exists i, 1 <= i /\ k = suffixed (splitext f).1 (splitext f).2 i.

(** The paths of the files of a walk, from ["/"], in its order. *)
Definition walk_paths (walk : list (list string * list string * list string))
  : list (list string) :=
  flat_map (fun entry => map (fun f => entry.1.1 ++ [f]) entry.2) walk.

(** The response Flask makes of an exception that is no [HTTPException]. *)
Definition internal_server_error : response := mkResponse 500 None None None ErrorPage.

(** A start with a root that does not exist yet, and the tree it leaves. *)
Definition new_root_arguments : arguments :=
  mkArguments "/srv/new/root" "127.0.0.1" "8000" false.

Definition created_tree : node :=
  Eval vm_compute in
    match setup_root [] 7 new_root_arguments example_tree with
    | (_, Ret (_, fs')) => fs'
    | _ => example_tree
    end.

(** ** What a client sends (RFC 7617)

    The header of a client that authenticates with the credential [cred]:
    the word [Basic], a space, and the standard base64 encoding of the
    UTF-8 encoding of [cred]. *)

(** A code point that UTF-8 can encode: not a surrogate, at most U+10FFFF. *)
Definition is_scalar (c : Z) : bool :=
  ((0 <=? c) && (c <? 55296)) || ((57344 <=? c) && (c <=? 1114111)).

(** [chr(c).encode("utf-8")] *)
Definition utf8_encode_char (c : Z) : list byte :=
  if c <? 128 then [byte_of_Z c]
  else if c <? 2048 then [byte_of_Z (192 + c / 64); byte_of_Z (128 + c mod 64)]
  else if c <? 65536 then
    [byte_of_Z (224 + c / 4096); byte_of_Z (128 + (c / 64) mod 64); byte_of_Z (128 + c mod 64)]
  else
    [byte_of_Z (240 + c / 262144); byte_of_Z (128 + (c / 4096) mod 64);
     byte_of_Z (128 + (c / 64) mod 64); byte_of_Z (128 + c mod 64)].

(** [s.encode("utf-8")] *)
Definition utf8_encode (s : ustr) : list byte := flat_map utf8_encode_char s.

(** [table_b2a_base64]: the character of a value below 64. *)
Definition table_b2a_base64 (v : Z) : ascii :=
  if v <? 26 then chr (65 + v)
  else if v <? 52 then chr (97 + (v - 26))
  else if v <? 62 then chr (48 + (v - 52))
  else if v =? 62 then chr 43
  else chr 47.

(** [binascii.b2a_base64(data, newline=False)]: three bytes give four
    characters; one or two bytes left over give two or three characters
    and pads. *)
Fixpoint b2a_base64 (data : list byte) : list ascii :=
  match data with
  | [] => []
  | [x] =>
      let a := Z_of_byte x in
      [table_b2a_base64 (Z.shiftr a 2); table_b2a_base64 (Z.shiftl (Z.land a 3) 4);
       BASE64_PAD; BASE64_PAD]
  | [x; y] =>
      let a := Z_of_byte x in
      let b := Z_of_byte y in
      [table_b2a_base64 (Z.shiftr a 2);
       table_b2a_base64 (Z.lor (Z.shiftl (Z.land a 3) 4) (Z.shiftr b 4));
       table_b2a_base64 (Z.shiftl (Z.land b 15) 2); BASE64_PAD]
  | x :: y :: z :: data' =>
      let a := Z_of_byte x in
      let b := Z_of_byte y in
      let c := Z_of_byte z in
      table_b2a_base64 (Z.shiftr a 2)
      :: table_b2a_base64 (Z.lor (Z.shiftl (Z.land a 3) 4) (Z.shiftr b 4))
      :: table_b2a_base64 (Z.lor (Z.shiftl (Z.land b 15) 2) (Z.shiftr c 6))
      :: table_b2a_base64 (Z.land c 63)
      :: b2a_base64 data'
  end.

(** [base64.b64encode(data).decode("ascii")] *)
Definition b64encode (data : list byte) : string := string_of_list_ascii (b2a_base64 data).

Definition basic_header (cred : ustr) : string :=
  "Basic " +:+ b64encode (utf8_encode cred).

(** The characters of a credential portion that the decoder looks at:
    those of the base64 alphabet, and the pad. *)
Definition base64_relevant (s : string) : list ascii :=
  List.filter (fun c => is_pad c || in_alphabet c) (list_ascii_of_string s).

(** An exception that Flask answers with 404 or with 500: the only
    [HTTPException] the program raises is the one of [abort(404)]. *)
Definition not_found_or_error (e : exn) : Prop :=
  match e with
  | HTTPException code => code = 404
  | _ => True
  end.

(** What a view returns or raises: a response with status 200 or 302, or
    an exception answered with 404 or 500. *)
Definition view_answers (r : result response) : Prop :=
  match r with
  | Ret resp => status resp = 200 \/ status resp = 302
  | Raise e => not_found_or_error e
  end.

(** A path without symbolic links: its names are proper names, and no
    part of it from ["/"] on is a link of the tree. *)
Definition real_path (fs : node) (p : list string) : Prop :=
  Forall (fun x => is_component x = true /\ x <> "..") p
  /\ forall q x k target, p = (q ++ [x]) ++ k -> lookup_node fs (q ++ [x]) <> Some (Symlink target).

(** The paths [seen] remembers for resolved links are without links. *)
Definition seen_real (fs : node) (seen : seen_dict) : Prop :=
  forall k v, seen_get k seen = Some (Some v) -> real_path fs v.

(** * Properties *)

(** ** The authentication check *)

Lemma try_except_false (body : result bool) :
  exists b : bool, try_except body (fun _ => Ret false) = Ret b.
Proof. destruct body as [b|e]; simpl; eauto. Qed.

Lemma check_auth_header_unfold (AUTH : option ustr) (h : string) :
  check_auth_header AUTH (Some h) =
  if bool_decide (h = EmptyString) then Ret false
  else try_except
         ('(typ, creds) ← unpack2 (str_split_1 h);
          if negb (bool_decide (str_lower typ = "basic")) then Ret false
          else
            raw ← b64decode creds;
            decoded ← utf8_decode raw;
            Ret (bool_decide (Some decoded = AUTH)))
         (fun _ => Ret false).
Proof. destruct h; reflexivity. Qed.

Lemma unpack2_other {A : Type} (xs : list A) :
  (forall a b, xs <> [a; b]) -> unpack2 xs = Raise ValueError.
Proof.
  intros H. destruct xs as [|a [|b [|c xs]]]; try reflexivity.
  exfalso. by apply (H a b).
Qed.

Lemma check_auth_header_returns (AUTH : option ustr) (header : option string) :
  exists b : bool, check_auth_header AUTH header = Ret b.
Proof.
  unfold check_auth_header. destruct (header_is_empty header); [by exists false|].
  apply try_except_false.
Qed.

(** C10: [check_auth_header] returns a boolean for every header and never
    raises; the answer is [False] when the header is absent or empty, when
    it does not split into a scheme and a credential portion, when the
    scheme is not "basic", when base64 decoding fails and when the decoded
    bytes are not UTF-8. *)
Theorem check_auth_header_total (AUTH : option ustr) (header : option string) :
  (exists b : bool, check_auth_header AUTH header = Ret b)
  /\ (header_is_empty header = true -> check_auth_header AUTH header = Ret false)
  /\ (forall h, header = Some h ->
        (forall typ creds, str_split_1 h <> [typ; creds]) ->
        check_auth_header AUTH header = Ret false)
  /\ (forall h typ creds, header = Some h -> str_split_1 h = [typ; creds] ->
        (str_lower typ <> "basic" -> check_auth_header AUTH header = Ret false)
        /\ (forall e, b64decode creds = Raise e ->
              check_auth_header AUTH header = Ret false)
        /\ (forall raw e, b64decode creds = Ret raw -> utf8_decode raw = Raise e ->
              check_auth_header AUTH header = Ret false)).
Proof.
  split; [|split; [|split]].
  - apply check_auth_header_returns.
  - unfold check_auth_header. by intros ->.
  - intros h -> Hsplit. rewrite check_auth_header_unfold.
    case_bool_decide; [done|]. by rewrite unpack2_other.
  - intros h typ creds -> Hsplit. rewrite check_auth_header_unfold, Hsplit.
    case_bool_decide; [by repeat split|]. simpl.
    split; [|split].
    + intros Hty. by rewrite bool_decide_eq_false_2.
    + intros e He. rewrite He. by case_bool_decide.
    + intros raw e Hraw He. rewrite Hraw. simpl. rewrite He. by case_bool_decide.
Qed.

(** ** The gate *)

Lemma check_auth_header_true (cred : ustr) (header : option string) :
  check_auth_header (Some cred) header = Ret true <-> carries_credential cred header.
Proof.
  split.
  - destruct header as [h|]; [|by unfold check_auth_header].
    rewrite check_auth_header_unfold. case_bool_decide; [done|].
    destruct (str_split_1 h) as [|typ [|creds [|? ?]]] eqn:Hsplit; try done.
    simpl. case_bool_decide as Htyp; [|done]. simpl.
    destruct (b64decode creds) as [raw|] eqn:Hraw; [|done]. simpl.
    destruct (utf8_decode raw) as [decoded|] eqn:Hdec; [|done]. simpl.
    intros Heq. injection Heq as Heq. apply bool_decide_eq_true_1 in Heq.
    injection Heq as ->. by exists h, typ, creds, raw.
  - intros (h & typ & creds & raw & -> & Hsplit & Htyp & Hraw & Hdec).
    rewrite check_auth_header_unfold. case_bool_decide as Hh.
    + subst h. discriminate Hsplit.
    + rewrite Hsplit. simpl. rewrite bool_decide_eq_true_2 by done. simpl.
      rewrite Hraw. simpl. rewrite Hdec. simpl. by rewrite bool_decide_eq_true_2.
Qed.

Lemma requires_auth_guarded (cfg : config) (req : request) (func : result response)
    (cred : ustr) :
  AUTH cfg = Some cred ->
  (carries_credential cred (authorization req) -> requires_auth cfg req func = func)
  /\ (~ carries_credential cred (authorization req)
      -> requires_auth cfg req func = Ret challenge).
Proof.
  intros HA. unfold requires_auth. rewrite HA. split.
  - intros H. apply check_auth_header_true in H. by rewrite H.
  - intros H.
    destruct (check_auth_header_returns (Some cred) (authorization req)) as [b Hb].
    rewrite Hb. destruct b; [|done].
    exfalso. by apply H, check_auth_header_true.
Qed.

Lemma requires_auth_open (cfg : config) (req : request) (func : result response) :
  AUTH cfg = None -> requires_auth cfg req func = func.
Proof. intros HA. unfold requires_auth. by rewrite HA. Qed.

Lemma app_gated (format_mtime : Z -> string) (getcwd : list string)
    (cfg : config) (fs : node) (req : request) :
  url req <> ping_route ->
  app format_mtime getcwd cfg fs req =
  handle_exception (requires_auth cfg req (view_of format_mtime getcwd cfg fs req)).
Proof. intros H. unfold app, view_of. by destruct (url req). Qed.

(** Valid standard base64 is accepted by the lenient decoder. *)
Lemma in_alphabet_not_pad (c : ascii) : in_alphabet c = true -> bool_decide (c = BASE64_PAD) = false.
Proof.
  intros H. apply bool_decide_eq_false_2. intros ->. discriminate H.
Qed.

Lemma in_alphabet_value (c : ascii) :
  in_alphabet c = true -> exists v, table_a2b_base64 c = Some v.
Proof. unfold in_alphabet. destruct (table_a2b_base64 c); [eauto|done]. Qed.

Lemma a2b_base64_loop_letter (c : ascii) (l : list ascii) (quad_pos leftchar pads : Z) :
  in_alphabet c = true ->
  exists v,
    a2b_base64_loop (c :: l) quad_pos leftchar pads =
    if quad_pos =? 0 then a2b_base64_loop l 1 v 0
    else if quad_pos =? 1 then
      out ← a2b_base64_loop l 2 (Z.land v 15) 0;
      Ret (byte_of_Z (Z.lor (Z.shiftl leftchar 2) (Z.shiftr v 4)) :: out)
    else if quad_pos =? 2 then
      out ← a2b_base64_loop l 3 (Z.land v 3) 0;
      Ret (byte_of_Z (Z.lor (Z.shiftl leftchar 4) (Z.shiftr v 2)) :: out)
    else
      out ← a2b_base64_loop l 0 0 0;
      Ret (byte_of_Z (Z.lor (Z.shiftl leftchar 6) v) :: out).
Proof.
  intros Hc. destruct (in_alphabet_value c Hc) as [v Hv]. exists v.
  cbn [a2b_base64_loop]. by rewrite (in_alphabet_not_pad c Hc), Hv.
Qed.

Lemma a2b_base64_loop_pad (c : ascii) (l : list ascii) (quad_pos leftchar pads : Z) :
  is_pad c = true ->
  a2b_base64_loop (c :: l) quad_pos leftchar pads =
  if (2 <=? quad_pos) && (4 <=? quad_pos + (pads + 1)) then Ret []
  else a2b_base64_loop l quad_pos leftchar (if 2 <=? quad_pos then pads + 1 else pads).
Proof. unfold is_pad. intros Hc. cbn [a2b_base64_loop]. by rewrite Hc. Qed.

Lemma a2b_base64_loop_valid (n : nat) (l : list ascii) (leftchar : Z) :
  (length l <= n)%nat -> valid_base64_chars l = true ->
  exists out, a2b_base64_loop l 0 leftchar 0 = Ret out.
Proof.
  revert l leftchar. induction n as [|n IH]; intros l leftchar Hlen Hv.
  - destruct l; [by exists []|simpl in Hlen; lia].
  - destruct l as [|a [|b [|c [|d l']]]]; try done; [by exists []|].
    cbn [valid_base64_chars] in Hv. apply andb_true_iff in Hv as [Hab Hv].
    apply andb_true_iff in Hab as [Ha Hb].
    destruct (a2b_base64_loop_letter a (b :: c :: d :: l') 0 leftchar 0 Ha) as [va ->].
    destruct (a2b_base64_loop_letter b (c :: d :: l') 1 va 0 Hb) as [vb ->].
    cbn [Z.eqb Pos.eqb].
    assert (Htail : exists out, a2b_base64_loop (c :: d :: l') 2 (Z.land vb 15) 0 = Ret out);
      [|destruct Htail as [out ->]; cbn; eauto].
    destruct l' as [|e l'].
    + apply orb_true_iff in Hv as [Hv|Hv]; apply andb_true_iff in Hv as [Hc Hd].
      * destruct (a2b_base64_loop_letter c [d] 2 (Z.land vb 15) 0 Hc) as [vc ->].
        cbn [Z.eqb Pos.eqb].
        apply orb_true_iff in Hd as [Hd|Hd].
        -- destruct (a2b_base64_loop_letter d [] 3 (Z.land vc 3) 0 Hd) as [vd ->].
           cbn. eauto.
        -- rewrite (a2b_base64_loop_pad d [] 3 (Z.land vc 3) 0 Hd). cbn. eauto.
      * rewrite (a2b_base64_loop_pad c [d] 2 (Z.land vb 15) 0 Hc).
        change (exists out, a2b_base64_loop [d] 2 (Z.land vb 15) 1 = Ret out).
        rewrite (a2b_base64_loop_pad d [] 2 (Z.land vb 15) 1 Hd). cbn. eauto.
    + apply andb_true_iff in Hv as [Hcd Hv]. apply andb_true_iff in Hcd as [Hc Hd].
      destruct (a2b_base64_loop_letter c (d :: e :: l') 2 (Z.land vb 15) 0 Hc) as [vc ->].
      cbn [Z.eqb Pos.eqb].
      destruct (a2b_base64_loop_letter d (e :: l') 3 (Z.land vc 3) 0 Hd) as [vd ->].
      cbn [Z.eqb Pos.eqb].
      destruct (IH (e :: l') 0) as [out Hout]; [simpl in *; lia|done|].
      rewrite Hout. cbn. eauto.
Qed.

Lemma in_alphabet_ascii (c : ascii) : in_alphabet c = true -> (ord c <? 128) = true.
Proof.
  unfold in_alphabet. destruct (table_a2b_base64 c) as [v|] eqn:H; [intros _|done].
  unfold table_a2b_base64 in H. apply Z.ltb_lt.
  repeat match type of H with
         | context [if ?b then _ else _] => destruct b eqn:?
         end; try discriminate;
  repeat match goal with
         | E : _ && _ = true |- _ => apply andb_true_iff in E as [? ?]
         | E : (_ <=? _) = true |- _ => apply Z.leb_le in E
         | E : (_ =? _) = true |- _ => apply Z.eqb_eq in E
         end; lia.
Qed.

Lemma is_pad_ascii (c : ascii) : is_pad c = true -> (ord c <? 128) = true.
Proof. unfold is_pad. intros H. apply bool_decide_eq_true_1 in H. by subst c. Qed.

Lemma valid_base64_chars_ascii (n : nat) (l : list ascii) :
  (length l <= n)%nat -> valid_base64_chars l = true ->
  forallb (fun c => ord c <? 128) l = true.
Proof.
  revert l. induction n as [|n IH]; intros l Hlen Hv.
  - destruct l; [done|simpl in Hlen; lia].
  - destruct l as [|a [|b [|c [|d l']]]]; try done.
    simpl in Hv. apply andb_true_iff in Hv as [Hab Hv].
    apply andb_true_iff in Hab as [Ha Hb].
    cbn [forallb]. rewrite (in_alphabet_ascii a Ha), (in_alphabet_ascii b Hb). cbn [andb].
    destruct l' as [|e l'].
    + apply orb_true_iff in Hv as [Hv|Hv]; apply andb_true_iff in Hv as [Hc Hd].
      * rewrite (in_alphabet_ascii c Hc).
        apply orb_true_iff in Hd as [Hd|Hd];
          [rewrite (in_alphabet_ascii d Hd)|rewrite (is_pad_ascii d Hd)]; done.
      * by rewrite (is_pad_ascii c Hc), (is_pad_ascii d Hd).
    + apply andb_true_iff in Hv as [Hcd Hv]. apply andb_true_iff in Hcd as [Hc Hd].
      rewrite (in_alphabet_ascii c Hc), (in_alphabet_ascii d Hd). cbn [andb].
      apply IH; [simpl in *; lia|done].
Qed.

Lemma valid_base64_decodes (s : string) :
  valid_base64 s = true -> exists raw, b64decode s = Ret raw.
Proof.
  unfold valid_base64, b64decode, isascii, a2b_base64. intros Hv.
  rewrite (valid_base64_chars_ascii _ _ (Nat.le_refl _) Hv).
  by apply (a2b_base64_loop_valid _ _ 0 (Nat.le_refl _)).
Qed.

(** C2 (as the code has it): in guarded mode a request to a gated route
    is accepted exactly when its [Authorization] header splits into a
    scheme equal to "basic" up to case and a portion that Python's lenient
    base64 decoding and UTF-8 decoding turn into the configured
    credential; every other request gets the one 401 response with the
    challenge [Basic realm="Dropper"]; without authentication every
    request reaches its view; and valid standard base64 always decodes. *)
Theorem gate_accepts_exactly (format_mtime : Z -> string) (getcwd : list string)
    (cfg : config) (fs : node) (req : request) :
  url req <> ping_route ->
  (forall cred, AUTH cfg = Some cred ->
     (carries_credential cred (authorization req) ->
      app format_mtime getcwd cfg fs req
      = handle_exception (view_of format_mtime getcwd cfg fs req))
     /\ (~ carries_credential cred (authorization req) ->
         app format_mtime getcwd cfg fs req = challenge))
  /\ (AUTH cfg = None ->
      app format_mtime getcwd cfg fs req
      = handle_exception (view_of format_mtime getcwd cfg fs req))
  /\ status challenge = 401
  /\ www_authenticate challenge = Some ("Basic realm=" +:+ dquote +:+ "Dropper" +:+ dquote)
  /\ (forall creds, valid_base64 creds = true -> exists raw, b64decode creds = Ret raw).
Proof.
  intros Hgated. rewrite (app_gated _ _ _ _ _ Hgated).
  split; [|split; [|split; [|split]]]; try reflexivity.
  - intros cred HA.
    destruct (requires_auth_guarded cfg req (view_of format_mtime getcwd cfg fs req) cred HA)
      as [Hyes Hno].
    split; intros H; [by rewrite (Hyes H)|by rewrite (Hno H)].
  - intros HA. by rewrite requires_auth_open.
  - apply valid_base64_decodes.
Qed.

Lemma gate_accepts_exactly_witness :
  app example_format [] guarded_config example_tree
    (mkRequest (dl_route "a.txt") (Some "Bearer YWRtaW46YWRtaW4=")) = challenge.
Proof.
  refine (proj2 (proj1 (gate_accepts_exactly example_format [] guarded_config example_tree
             (mkRequest (dl_route "a.txt") (Some "Bearer YWRtaW46YWRtaW4=")) _)
             admin_admin eq_refl) _).
  - discriminate.
  - intros (h & typ & creds & raw & Hh & Hsplit & Htyp & _).
    injection Hh as <-. vm_compute in Hsplit. injection Hsplit as <- <-.
    vm_compute in Htyp. discriminate Htyp.
Defined.

(** C2, counterexample: the gate accepts a credential portion that is not
    valid standard base64 (a [*] in it is skipped by the decoder). *)
Lemma gate_accepts_invalid_base64 :
  app example_format [] guarded_config example_tree
    (mkRequest index_route (Some "Basic YWRt*aW46YWRtaW4="))
  = ok (IndexPage "/srv/root" EmptyString)
  /\ valid_base64 "YWRt*aW46YWRtaW4=" = false
  /\ valid_base64 "YWRtaW46YWRtaW4=" = true.
Proof. repeat split; vm_compute; reflexivity. Qed.

(** The examples of the specification: [admin:admin] in base64 is
    accepted under that credential only; another scheme, malformed base64
    and another value are answered with the challenge; without
    authentication no header is needed. *)
Example gate_examples :
  let get h := app example_format [] guarded_config example_tree (mkRequest index_route h) in
  get (Some "Basic YWRtaW46YWRtaW4=") = ok (IndexPage "/srv/root" EmptyString)
  /\ get (Some "basic YWRtaW46YWRtaW4=") = ok (IndexPage "/srv/root" EmptyString)
  /\ get None = challenge
  /\ get (Some "Bearer YWRtaW46YWRtaW4=") = challenge
  /\ get (Some "Basic YWRtaW46YWRtaW4") = challenge
  /\ get (Some "Basic YWRtaW46cm9vdA==") = challenge
  /\ get (Some "Basic /w==") = challenge
  /\ app example_format [] open_config example_tree (mkRequest index_route None)
     = ok (IndexPage "/srv/root" EmptyString).
Proof. repeat split; vm_compute; reflexivity. Qed.

(** ** [human_size] *)

Lemma float_of_int_exact (n : Z) :
  0 <= n < 2 ^ 53 -> float_of_int n = Ret (inject_Z n).
Proof.
  intros [H0 H53]. unfold float_of_int.
  assert (Hb : Z.log2 (Z.abs n) + 1 <= 53).
  { rewrite Z.abs_eq by done. destruct (decide (n = 0)) as [->|Hn]; [done|].
    assert (Z.log2 n < 53); [|lia]. apply Z.log2_lt_pow2; lia. }
  by rewrite (proj2 (Z.leb_le _ _) Hb).
Qed.

Lemma float_of_int_large (n : Z) :
  2 ^ 50 <= n < 2 ^ 1023 ->
  exists v, float_of_int n = Ret (inject_Z v) /\ 2 ^ 50 <= v.
Proof.
  intros [Hlo Hhi]. unfold float_of_int.
  assert (Hn : 0 < n) by (clear Hhi; lia).
  assert (Hlog : Z.log2 n < 1023) by (apply Z.log2_lt_pow2; [done|exact Hhi]).
  clear Hhi.
  rewrite Z.abs_eq by lia. rewrite (Z.sgn_pos n Hn).
  destruct (Z.log2 n + 1 <=? 53) eqn:Hbits; [by exists n|].
  apply Z.leb_gt in Hbits.
  set (sh := Z.log2 n + 1 - 53). assert (Hsh : 0 < sh) by (unfold sh; lia).
  destruct (Z.log2_spec n Hn) as [Hl Hu].
  rewrite !Z.shiftr_div_pow2, !Z.shiftl_mul_pow2 by lia.
  set (q := n / 2 ^ sh).
  assert (Hp : 2 <= 2 ^ sh).
  { change 2 with (2 ^ 1) at 1. apply Z.pow_le_mono_r; lia. }
  assert (Hsplit : 2 ^ (Z.log2 n) = 2 ^ 52 * 2 ^ sh).
  { rewrite <- Z.pow_add_r by lia. f_equal. unfold sh. lia. }
  assert (Hsplit' : 2 ^ Z.succ (Z.log2 n) = 2 ^ 53 * 2 ^ sh).
  { rewrite <- Z.pow_add_r by lia. f_equal. unfold sh. lia. }
  assert (Hq : 2 ^ 52 <= q < 2 ^ 53).
  { unfold q. split.
    - apply Z.div_le_lower_bound; lia.
    - apply Z.div_lt_upper_bound; lia. }
  match goal with
  | |- context [if ?c then q + 1 else q] => set (q' := if c then q + 1 else q)
  end.
  assert (Hq' : 2 ^ 52 <= q' <= 2 ^ 53) by (unfold q'; case_match; lia).
  clearbody q'. clear Hq Hl Hu Hsplit. 
  assert (Hlow : 2 ^ 53 <= q' * 2 ^ sh).
  { generalize dependent (2 ^ sh). intros p _ Hp. nia. }
  assert (Hup : q' * 2 ^ sh < 2 ^ 1024).
  { apply Z.le_lt_trans with (2 ^ Z.succ (Z.log2 n)).
    - rewrite Hsplit'. apply Z.mul_le_mono_nonneg_r; lia.
    - apply Z.pow_lt_mono_r; lia. }
  rewrite (proj2 (Z.leb_gt _ _) Hup).
  exists (1 * (q' * 2 ^ sh)). split; [done|].
  rewrite Z.mul_1_l. etrans; [|exact Hlow]. done.
Qed.

Lemma float_of_int_overflow (n : Z) : 2 ^ 1024 <= n -> float_of_int n = Raise OverflowError.
Proof.
  intros Hlo. unfold float_of_int.
  assert (Hn : 0 < n) by (apply Z.lt_le_trans with (2 ^ 1024); [done|exact Hlo]).
  assert (Hlog : 1024 <= Z.log2 n) by (apply Z.log2_le_pow2; [done|exact Hlo]).
  clear Hlo. rewrite Z.abs_eq by lia.
  rewrite (proj2 (Z.leb_gt _ _)) by lia.
  set (sh := Z.log2 n + 1 - 53). assert (Hsh : 0 < sh) by (unfold sh; lia).
  destruct (Z.log2_spec n Hn) as [Hl _].
  rewrite !Z.shiftr_div_pow2, !Z.shiftl_mul_pow2 by lia.
  set (q := n / 2 ^ sh).
  assert (Hp : 0 < 2 ^ sh) by (apply Z.pow_pos_nonneg; lia).
  assert (Hsplit : 2 ^ (Z.log2 n) = 2 ^ 52 * 2 ^ sh).
  { rewrite <- Z.pow_add_r by lia. f_equal. unfold sh. lia. }
  assert (Hq : 2 ^ 52 <= q).
  { unfold q. apply Z.div_le_lower_bound; lia. }
  match goal with
  | |- context [if ?c then q + 1 else q] => set (q' := if c then q + 1 else q)
  end.
  assert (Hq' : 2 ^ 52 <= q') by (unfold q'; case_match; lia).
  assert (Hv : 2 ^ 1024 <= q' * 2 ^ sh).
  { etrans; [apply (Z.pow_le_mono_r 2 1024 (Z.log2 n)); lia|]. rewrite Hsplit.
    apply Z.mul_le_mono_nonneg_r; lia. }
  by rewrite (proj2 (Z.leb_le _ _) Hv).
Qed.

(** The last binade: an integer from 2^1023 on has 1024 bits, so its
    low 971 bits are rounded away; the result is 2^1024, which is no
    float, exactly from 2^1024 - 2^970 on. *)
Lemma float_of_int_last_binade (n : Z) :
  2 ^ 1023 <= n < 2 ^ 1024 ->
  (n < 2 ^ 1024 - 2 ^ 970 ->
   exists v, float_of_int n = Ret (inject_Z v) /\ 2 ^ 50 <= v)
  /\ (2 ^ 1024 - 2 ^ 970 <= n -> float_of_int n = Raise OverflowError).
Proof.
  intros [Hlo Hhi]. unfold float_of_int.
  assert (Hn : 0 < n) by (apply Z.lt_le_trans with (2 ^ 1023); [done|exact Hlo]).
  assert (Hlog : Z.log2 n = 1023) by (apply Z.log2_unique; [done|by split]).
  rewrite Z.abs_eq by lia. rewrite (Z.sgn_pos n Hn), Hlog.
  change (1023 + 1 <=? 53) with false. cbv iota.
  change (1023 + 1 - 53) with 971. change (971 - 1) with 970.
  rewrite Z.shiftr_div_pow2, !Z.shiftl_mul_pow2 by done.
  revert Hlo Hhi.
  replace (2 ^ 1023) with (2 ^ 53 * 2 ^ 970) by (vm_compute; reflexivity).
  replace (2 ^ 1024) with (2 ^ 54 * 2 ^ 970) by (vm_compute; reflexivity).
  replace (2 ^ 971) with (2 * 2 ^ 970) by (vm_compute; reflexivity).
  assert (HP : 0 < 2 ^ 970) by done.
  generalize dependent (2 ^ 970). intros P HP Hlo Hhi.
  pose proof (Z.div_mod n (2 * P) ltac:(lia)) as Hdm.
  pose proof (Z.mod_pos_bound n (2 * P) ltac:(lia)) as Hr.
  set (q := n / (2 * P)) in *. set (m := n mod (2 * P)) in *.
  assert (Hq : 2 ^ 52 <= q < 2 ^ 53) by (clearbody q m; nia).
  replace (n - q * (2 * P)) with m by lia. rewrite Z.mul_1_l.
  assert (H50 : 2 ^ 50 <= 1 * (q * (2 * P)) /\ 2 ^ 50 <= 1 * ((q + 1) * (2 * P)))
    by (clearbody q m; nia).
  split.
  - intros Hbelow.
    assert (Hcase : q < 2 ^ 53 - 1 \/ m < P) by (clearbody q m; nia).
    destruct ((P <? m) || (m =? P) && Z.odd q) eqn:Hup.
    + assert (Hq' : q < 2 ^ 53 - 1).
      { destruct Hcase as [?|Hm]; [done|]. exfalso.
        apply orb_true_iff in Hup as [Hup|Hup].
        - apply Z.ltb_lt in Hup. lia.
        - apply andb_true_iff in Hup as [Hup _]. apply Z.eqb_eq in Hup. lia. }
      rewrite (proj2 (Z.leb_gt _ _)) by (clearbody q m; nia).
      eexists. split; [done|]. apply H50.
    + rewrite (proj2 (Z.leb_gt _ _)) by (clearbody q m; nia).
      eexists. split; [done|]. apply H50.
  - intros Habove.
    assert (Hq' : q = 2 ^ 53 - 1 /\ P <= m) by (clearbody q m; nia).
    destruct Hq' as [Hq' Hm].
    assert (Hup : (P <? m) || (m =? P) && Z.odd q = true).
    { destruct (Z.ltb_spec P m) as [|Hle]; [done|]. cbn [orb].
      rewrite (proj2 (Z.eqb_eq m P)) by lia. by rewrite Hq'. }
    rewrite Hup. by rewrite (proj2 (Z.leb_le _ _)) by (clearbody q m; nia).
Qed.

(** [float(n)] for an integer that is not small: a finite float below
    2^1024 - 2^970, and [OverflowError] from there on. *)
Lemma float_of_int_finite (n : Z) :
  2 ^ 50 <= n < 2 ^ 1024 - 2 ^ 970 ->
  exists v, float_of_int n = Ret (inject_Z v) /\ 2 ^ 50 <= v.
Proof.
  intros [Hlo Hhi]. destruct (decide (n < 2 ^ 1023)) as [Hn|Hn].
  - by apply float_of_int_large.
  - apply float_of_int_last_binade; [|done]. split; [lia|].
    eapply Z.lt_trans; [exact Hhi|]. done.
Qed.

Lemma float_of_int_too_large (n : Z) :
  2 ^ 1024 - 2 ^ 970 <= n -> float_of_int n = Raise OverflowError.
Proof.
  intros Hlo. destruct (decide (n < 2 ^ 1024)) as [Hn|Hn].
  - apply float_of_int_last_binade; [|done]. split; [|done].
    etrans; [|exact Hlo]. done.
  - apply float_of_int_overflow. lia.
Qed.

Lemma div1024_lt (x : Q) (c : Z) :
  (div1024 x < inject_Z c)%Q <-> (x < inject_Z (c * 1024))%Q.
Proof.
  unfold div1024. rewrite inject_Z_mult.
  rewrite <- (Qmult_lt_r (x / inject_Z 1024) (inject_Z c) (inject_Z 1024)) by reflexivity.
  rewrite (Qmult_comm (x / inject_Z 1024)), Qmult_div_r by discriminate.
  reflexivity.
Qed.

Lemma iter_div1024_lt (j : nat) (x : Q) (c : Z) :
  (Nat.iter j div1024 x < inject_Z c)%Q <-> (x < inject_Z (c * 1024 ^ Z.of_nat j))%Q.
Proof.
  revert c. induction j as [|j IH]; intros c.
  - simpl. by rewrite Z.mul_1_r.
  - rewrite Nat.iter_succ, div1024_lt, IH.
    rewrite Nat2Z.inj_succ, Z.pow_succ_r by lia.
    by rewrite Z.mul_assoc.
Qed.

Lemma number_lt_iter (j : nat) (v bound : Z) :
  number_lt (Float (Nat.iter j div1024 (inject_Z v))) bound
  = (v <? bound * 1024 ^ Z.of_nat j).
Proof.
  unfold number_lt. destruct (Qlt_le_dec _ _) as [H|H]; symmetry.
  - apply Z.ltb_lt. apply iter_div1024_lt in H. by rewrite <- Zlt_Qlt in H.
  - apply Z.ltb_ge. apply Qle_not_lt in H. rewrite iter_div1024_lt in H.
    rewrite <- Zlt_Qlt in H. lia.
Qed.

Lemma human_size_loop_scaled (us : list string) (j k : nat) (v : Z) :
  (k < length us)%nat ->
  (forall i, (i < k)%nat -> 1024 * 1024 ^ Z.of_nat (j + i) <= v) ->
  v < 1024 * 1024 ^ Z.of_nat (j + k) ->
  human_size_loop us (Float (Nat.iter j div1024 (inject_Z v)))
  = Ret (format_1f_float (Nat.iter (j + k) div1024 (inject_Z v)) +:+ nth k us EmptyString).
Proof.
  revert j k. induction us as [|u us IH]; intros j k Hk Hge Hlt; [simpl in Hk; lia|].
  cbn [human_size_loop]. rewrite number_lt_iter.
  destruct k as [|k].
  - rewrite Nat.add_0_r in *. by rewrite (proj2 (Z.ltb_lt _ _) Hlt).
  - assert (H0 := Hge O ltac:(lia)). rewrite Nat.add_0_r in H0.
    rewrite (proj2 (Z.ltb_ge _ _) H0).
    change (number_div (Float ?x) 1024) with (Ret (Float (div1024 x))).
    change (mbind ?f (Ret ?a)) with (f a). cbv beta.
    change (div1024 (Nat.iter j div1024 ?y)) with (Nat.iter (S j) div1024 y).
    rewrite (IH (S j) k); [|simpl in Hk; lia| |].
    + by replace (S j + k)%nat with (j + S k)%nat by lia.
    + intros i Hi. replace (S j + i)%nat with (j + S i)%nat by lia. apply Hge. lia.
    + by replace (S j + k)%nat with (j + S k)%nat by lia.
Qed.

Lemma human_size_loop_beyond (us : list string) (j : nat) (v : Z) :
  (forall i, (i < length us)%nat -> 1024 * 1024 ^ Z.of_nat (j + i) <= v) ->
  human_size_loop us (Float (Nat.iter j div1024 (inject_Z v)))
  = Ret (format_1f_float (Nat.iter (j + length us) div1024 (inject_Z v)) +:+ "PB").
Proof.
  revert j. induction us as [|u us IH]; intros j Hge.
  - simpl. by rewrite Nat.add_0_r.
  - cbn [human_size_loop]. rewrite number_lt_iter.
    assert (H0 := Hge O ltac:(simpl; lia)). rewrite Nat.add_0_r in H0.
    rewrite (proj2 (Z.ltb_ge _ _) H0).
    change (number_div (Float ?x) 1024) with (Ret (Float (div1024 x))).
    change (mbind ?f (Ret ?a)) with (f a). cbv beta.
    change (div1024 (Nat.iter j div1024 ?y)) with (Nat.iter (S j) div1024 y).
    rewrite (IH (S j)).
    + by replace (S j + length us)%nat with (j + length (u :: us))%nat by (simpl; lia).
    + intros i Hi. replace (S j + i)%nat with (j + S i)%nat by lia.
      apply Hge. simpl. lia.
Qed.

Lemma human_size_first_division (n v : Z) :
  1024 <= n -> float_of_int n = Ret (inject_Z v) ->
  human_size n
  = human_size_loop ["KB"; "MB"; "GB"; "TB"] (Float (Nat.iter 1 div1024 (inject_Z v))).
Proof.
  intros Hn Hv. unfold human_size. cbn [human_size_loop number_lt].
  rewrite (proj2 (Z.ltb_ge _ _) Hn). cbn [number_div]. by rewrite Hv.
Qed.

Lemma pow1024_mono (a b : nat) : (a <= b)%nat -> 1024 ^ Z.of_nat a <= 1024 ^ Z.of_nat b.
Proof. intros H. apply Z.pow_le_mono_r; lia. Qed.

Lemma pow1024_succ (a : nat) : 1024 * 1024 ^ Z.of_nat a = 1024 ^ Z.of_nat (S a).
Proof. by rewrite Nat2Z.inj_succ, Z.pow_succ_r by lia. Qed.

(** Rounding to the nearest integer, ties to even, in integers: for
    [x = num / den] the result [t] is within one half of [x], and is even
    when [x] lies half way between two integers. *)
Lemma round_half_even_nearest (x : Q) :
  let t := round_half_even x in
  let den := Z.pos (Qden x) in
  2 * Z.abs (Qnum x - t * den) <= den
  /\ (2 * Z.abs (Qnum x - t * den) = den -> Z.even t = true).
Proof.
  unfold round_half_even. set (num := Qnum x). set (den := Z.pos (Qden x)).
  assert (Hden : 0 < den) by done.
  pose proof (Z.div_mod num den ltac:(lia)) as Hdm.
  pose proof (Z.mod_pos_bound num den Hden) as Hr.
  set (t := num / den) in *. set (r := num mod den) in *.
  cbv zeta. destruct (den <? 2 * r) eqn:H1.
  - apply Z.ltb_lt in H1. split; [nia|]. intros Heq. nia.
  - apply Z.ltb_ge in H1. destruct (2 * r =? den) eqn:H2.
    + apply Z.eqb_eq in H2. destruct (Z.odd t) eqn:Hodd; cbn [andb].
      * split; [nia|]. intros _. rewrite Z.even_add, <- Z.negb_odd, Hodd. done.
      * split; [nia|]. intros _. by rewrite <- Z.negb_odd, Hodd.
    + apply Z.eqb_neq in H2. cbn [andb]. split; [nia|]. intros Heq. nia.
Qed.

Lemma format_1f_float_nonneg (x : Q) :
  (0 <= x)%Q ->
  format_1f_float x
  = str_of_int (round_half_even (x * 10) / 10) +:+ "."
    +:+ str_of_int (round_half_even (x * 10) mod 10).
Proof.
  intros Hx. unfold format_1f_float.
  destruct (Qlt_le_dec x 0) as [Hneg|_]; [exfalso; by apply (Qlt_not_le _ _ Hneg)|].
  destruct x as [a b]. unfold Qle in Hx. simpl in Hx.
  unfold Qabs. rewrite Z.abs_eq by lia. reflexivity.
Qed.

Lemma human_size_petabytes (n : Z) :
  1024 ^ 5 <= n < 2 ^ 1023 ->
  exists x, float_of_int n = Ret x
    /\ human_size n = Ret (format_1f_float (Nat.iter 5 div1024 x) +:+ "PB").
Proof.
  intros [Hlo Hhi].
  assert (Hlo' : 2 ^ 50 <= n) by (clear Hhi; lia).
  destruct (float_of_int_large n (conj Hlo' Hhi)) as (v & Hv & Hge).
  exists (inject_Z v). split; [done|].
  rewrite (human_size_first_division n v) by (clear Hhi; lia || done).
  rewrite (human_size_loop_beyond _ 1 v); [done|].
  intros i Hi. simpl in Hi. rewrite pow1024_succ.
  etrans; [apply (pow1024_mono _ 5); lia|]. exact Hge.
Qed.

Lemma human_size_petabytes_finite (n : Z) :
  1024 ^ 5 <= n < 2 ^ 1024 - 2 ^ 970 ->
  exists x, float_of_int n = Ret x
    /\ human_size n = Ret (format_1f_float (Nat.iter 5 div1024 x) +:+ "PB").
Proof.
  intros [Hlo Hhi].
  assert (Hlo' : 2 ^ 50 <= n) by (clear Hhi; lia).
  destruct (float_of_int_finite n (conj Hlo' Hhi)) as (v & Hv & Hge).
  exists (inject_Z v). split; [done|].
  rewrite (human_size_first_division n v) by (clear Hhi; lia || done).
  rewrite (human_size_loop_beyond _ 1 v); [done|].
  intros i Hi. simpl in Hi. rewrite pow1024_succ.
  etrans; [apply (pow1024_mono _ 5); lia|]. exact Hge.
Qed.

Lemma human_size_too_large (n : Z) :
  2 ^ 1024 - 2 ^ 970 <= n -> human_size n = Raise OverflowError.
Proof.
  intros Hn. unfold human_size. cbn [human_size_loop number_lt].
  assert (Hbig : (n <? 1024) = false).
  { apply Z.ltb_ge. etrans; [|exact Hn]. done. }
  rewrite Hbig. cbn [number_div]. by rewrite (float_of_int_too_large n Hn).
Qed.

Lemma human_size_scaled (k : nat) (n : Z) :
  (k < 5)%nat -> 0 <= n -> (k <> O -> 1024 ^ Z.of_nat k <= n) ->
  n < 1024 ^ Z.of_nat (S k) ->
  human_size n
  = Ret (format_1f_float (Nat.iter k div1024 (inject_Z n))
         +:+ nth k ["B"; "KB"; "MB"; "GB"; "TB"] EmptyString).
Proof.
  intros Hk Hn Hlo Hhi. destruct k as [|k].
  - unfold human_size. cbn [human_size_loop number_lt].
    change (1024 ^ Z.of_nat 1) with 1024 in Hhi.
    rewrite (proj2 (Z.ltb_lt _ _) Hhi). cbn [format_1f].
    by rewrite float_of_int_exact by lia.
  - specialize (Hlo ltac:(done)).
    assert (Hn' : 1024 <= n).
    { etrans; [|exact Hlo]. apply (pow1024_mono 1). lia. }
    assert (Hsmall : n < 2 ^ 53).
    { eapply Z.lt_le_trans; [exact Hhi|].
      etrans; [apply (pow1024_mono _ 5); lia|]. done. }
    rewrite (human_size_first_division n n Hn') by (apply float_of_int_exact; lia).
    rewrite (human_size_loop_scaled _ 1 k n); [done|simpl; lia| |].
    + intros i Hi. rewrite pow1024_succ. etrans; [|exact Hlo].
      apply pow1024_mono. lia.
    + by rewrite pow1024_succ.
Qed.

(** C7 (as the code has it): [human_size] gives "0.0B" for 0 and "1.5KB"
    for 1536; a size of at least 1024^5 that is a float, which is every
    size below 2^1024 - 2^970, is divided by 1024 five times and printed
    with one decimal and the unit PB, and a size from 2^1024 - 2^970 on
    raises [OverflowError]; a size below 1024^5 is divided by 1024 until
    it is below 1024, as many times as the unit among B, KB, MB, GB, TB
    says, and printed with one decimal: the decimal nearest to the
    value. *)
Theorem human_size_spec :
  human_size 0 = Ret "0.0B"
  /\ human_size 1536 = Ret "1.5KB"
  /\ (forall n, 1024 ^ 5 <= n < 2 ^ 1024 - 2 ^ 970 ->
        exists x, float_of_int n = Ret x
          /\ human_size n = Ret (format_1f_float (Nat.iter 5 div1024 x) +:+ "PB"))
  /\ (forall n, 2 ^ 1024 - 2 ^ 970 <= n -> human_size n = Raise OverflowError)
  /\ (forall (k : nat) (n : Z),
        (k < 5)%nat -> 0 <= n -> (k <> O -> 1024 ^ Z.of_nat k <= n) ->
        n < 1024 ^ Z.of_nat (S k) ->
        human_size n
        = Ret (format_1f_float (Nat.iter k div1024 (inject_Z n))
               +:+ nth k ["B"; "KB"; "MB"; "GB"; "TB"] EmptyString))
  /\ (forall x : float, (0 <= x)%Q ->
        let t := round_half_even (x * 10) in
        let den := Z.pos (Qden (x * 10)) in
        format_1f_float x = str_of_int (t / 10) +:+ "." +:+ str_of_int (t mod 10)
        /\ 0 <= t mod 10 <= 9
        /\ 2 * Z.abs (Qnum (x * 10) - t * den) <= den).
Proof.
  split; [by vm_compute|]. split; [by vm_compute|].
  split; [exact human_size_petabytes_finite|]. split; [exact human_size_too_large|].
  split; [exact human_size_scaled|].
  intros x Hx t den. split; [by apply format_1f_float_nonneg|]. split.
  - pose proof (Z.mod_pos_bound t 10 ltac:(lia)). lia.
  - apply round_half_even_nearest.
Qed.

(** C7, counterexample: 2^1024 - 2^970 is at least 1024^5, and
    [human_size] does not fall back to PB for it: the conversion to a
    float overflows. *)
Lemma human_size_no_fallback :
  1024 ^ 5 <= 2 ^ 1024 - 2 ^ 970
  /\ human_size (2 ^ 1024 - 2 ^ 970) = Raise OverflowError.
Proof. split; vm_compute; [discriminate|reflexivity]. Qed.

(** ** The health check *)

(** C8: [/_ping] is answered with 200 and the body "ok" whatever the
    configuration (guarded or open), the file system and the
    [Authorization] header are. *)
Theorem ping_is_exempt (format_mtime : Z -> string) (getcwd : list string)
    (cfg : config) (fs : node) (header : option string) :
  app format_mtime getcwd cfg fs (mkRequest ping_route header)
  = mkResponse 200 None None None (Text "ok").
Proof. reflexivity. Qed.

(** ** Start-up *)

Lemma setup_root_no_run (getcwd : list string) (now : Z) (args : arguments) (fs : node)
    (host : string) (port : Z) :
  ~ In (Run host port) (fst (setup_root getcwd now args fs)).
Proof.
  unfold setup_root. destruct (resolve fs getcwd (Path (arg_dir args))); [|simpl; tauto].
  destruct (negb (exists_ fs (parts a))); simpl; [|tauto].
  intros [H|[H|[]]]; discriminate H.
Qed.

(** C9: when authentication is not disabled and [DROP_AUTH] is unset or
    empty, the script never runs the server: no request is served.  Once
    the root directory is set up, it prints the remediation message (the
    ten lines that name the variable [DROP_AUTH], its format
    [user:pass], how to set it in three shells, and the flag
    [--no-auth]) and exits with status 1; the only other end is a crash
    while the root directory is set up, before the check. *)
Theorem refuses_to_start_without_credential (getcwd : list string) (now : Z)
    (args : arguments) (DROP_AUTH : option ustr) (fs : node) :
  arg_no_auth args = false ->
  auth_is_empty DROP_AUTH = true ->
  (forall host port, ~ In (Run host port) (fst (main getcwd now args DROP_AUTH fs)))
  /\ (forall cfg fs', snd (main getcwd now args DROP_AUTH fs) <> Serving cfg fs')
  /\ (forall events ROOT fs',
        setup_root getcwd now args fs = (events, Ret (ROOT, fs')) ->
        main getcwd now args DROP_AUTH fs
        = (events ++
           [ Print (newline +:+ "ERROR: DROP_AUTH environment variable is not set.");
             Print "Please set a username and password to secure the server. Format: user:pass";
             Print (newline +:+ "Example:");
             Print "  On Linux/macOS terminal:";
             Print ("    export DROP_AUTH=" +:+ dquote +:+ "admin:mypassword" +:+ dquote);
             Print "  On Windows CMD:";
             Print "    set DROP_AUTH=admin:mypassword";
             Print "  On Windows PowerShell:";
             Print ("    $env:DROP_AUTH=" +:+ dquote +:+ "admin:mypassword" +:+ dquote
                    +:+ newline);
             Print "If you want to run the server without authentication, use the --no-auth flag." ],
           Exited 1))
  /\ (forall events e,
        setup_root getcwd now args fs = (events, Raise e) ->
        main getcwd now args DROP_AUTH fs = (events, Crashed e)).
Proof.
  intros Hno Hempty.
  assert (Hmain : forall events ROOT fs',
             setup_root getcwd now args fs = (events, Ret (ROOT, fs')) ->
             main getcwd now args DROP_AUTH fs
             = (events ++ map Print missing_auth_message, Exited 1)).
  { intros events ROOT fs' Hs. unfold main. rewrite Hs, Hno. simpl. by rewrite Hempty. }
  assert (Hcrash : forall events e,
             setup_root getcwd now args fs = (events, Raise e) ->
             main getcwd now args DROP_AUTH fs = (events, Crashed e)).
  { intros events e Hs. unfold main. by rewrite Hs. }
  pose proof (setup_root_no_run getcwd now args fs) as Hrun.
  destruct (setup_root getcwd now args fs) as [events [[ROOT fs']|e]] eqn:Hs.
  - rewrite (Hmain _ _ _ eq_refl). split; [|split; [|split]].
    + intros host port Hin. cbn [fst] in Hin. apply in_app_or in Hin as [Hin|Hin].
      * by apply (Hrun host port).
      * apply in_map_iff in Hin as (line & Hline & _). discriminate Hline.
    + done.
    + by intros events' ROOT' fs'' [= <- _ _].
    + done.
  - rewrite (Hcrash _ _ eq_refl). split; [|split; [|split]].
    + intros host port Hin. by apply (Hrun host port).
    + done.
    + done.
    + by intros events' e' [= <- <-].
Qed.

Lemma refuses_to_start_witness :
  main [] 0 example_arguments None example_tree
  = ([] ++
     [ Print (newline +:+ "ERROR: DROP_AUTH environment variable is not set.");
       Print "Please set a username and password to secure the server. Format: user:pass";
       Print (newline +:+ "Example:");
       Print "  On Linux/macOS terminal:";
       Print ("    export DROP_AUTH=" +:+ dquote +:+ "admin:mypassword" +:+ dquote);
       Print "  On Windows CMD:";
       Print "    set DROP_AUTH=admin:mypassword";
       Print "  On Windows PowerShell:";
       Print ("    $env:DROP_AUTH=" +:+ dquote +:+ "admin:mypassword" +:+ dquote
              +:+ newline);
       Print "If you want to run the server without authentication, use the --no-auth flag." ],
     Exited 1).
Proof.
  apply (proj1 (proj2 (proj2 (refuses_to_start_without_credential [] 0 example_arguments
                                 None example_tree eq_refl eq_refl)))
           [] example_root example_tree).
  vm_compute. reflexivity.
Defined.

(** With a credential the same start-up serves: what is printed, and the
    configuration the server runs with. *)
Example starts_with_credential :
  match main [] 0 example_arguments (Some admin_admin) example_tree with
  | (events, Serving cfg fs) =>
      Some (events, ROOT cfg, AUTH cfg, SHORT_URLS cfg !! "a.txt", SHORT_URLS cfg !! "b.txt",
            size (SHORT_URLS cfg))
  | _ => None
  end
  = Some ([ Print "Dropper serving root: /srv/root";
            Print "Basic auth enabled. Set DROP_AUTH=USER:PASS to change credentials.";
            Print "Open http://127.0.0.1:8000 in your browser.";
            Run "127.0.0.1" 8000 ],
          example_root, Some admin_admin, Some "a.txt", Some "sub/b.txt", 2%nat).
Proof. vm_compute. reflexivity. Qed.

(** ** The path resolver *)

Lemma is_prefix_spec (a b : list string) :
  is_prefix a b = true <-> exists rest, b = a ++ rest.
Proof.
  revert b. induction a as [|x a IH]; intros b; simpl.
  - split; [by exists b|done].
  - destruct b as [|y b].
    + split; [done|]. by intros [rest Hrest].
    + rewrite andb_true_iff, bool_decide_eq_true, IH. split.
      * intros [-> [rest ->]]. by exists rest.
      * intros [rest [= -> ->]]. split; [done|by exists rest].
Qed.

Lemma relative_to_inside (t ROOT : PurePath) :
  (is_inside ROOT t -> exists rel, relative_to t ROOT = Ret rel)
  /\ (~ is_inside ROOT t -> relative_to t ROOT = Raise ValueError).
Proof.
  unfold relative_to, is_inside. split.
  - intros [Hroot Hparts]. apply is_prefix_spec in Hparts.
    rewrite Hparts, (bool_decide_eq_true_2 (root t = root ROOT) Hroot). simpl. eauto.
  - intros Hout. destruct (bool_decide (root t = root ROOT)) eqn:Hroot; [|done].
    destruct (is_prefix (parts ROOT) (parts t)) eqn:Hparts; [|done].
    exfalso. apply Hout. split; [|by apply is_prefix_spec].
    by apply (bool_decide_eq_true_1 (root t = root ROOT)).
Qed.

Lemma safe_resolve_unfold (getcwd : list string) (fs : node) (ROOT : PurePath) (p : string) :
  safe_resolve getcwd fs ROOT p =
  match resolve fs getcwd (joinpath ROOT p) with
  | Ret t =>
      match relative_to t ROOT with
      | Ret _ => Ret t
      | Raise _ => abort 404
      end
  | Raise e => Raise e
  end.
Proof.
  unfold safe_resolve. destruct (resolve fs getcwd (joinpath ROOT p)) as [t|e]; [|done].
  simpl. by destruct (relative_to t ROOT).
Qed.

Lemma resolve_root (fs : node) (getcwd : list string) (p t : PurePath) :
  resolve fs getcwd p = Ret t -> root t = "/".
Proof.
  unfold resolve. destruct (existsb has_nul (parts p)); [done|].
  destruct (joinrealpath _ _ _ _ _) as [[path [|]] seen]; [|done].
  by intros [= <-].
Qed.

(** Resolution on a tree without symbolic links. *)
Lemma entry_lookup_links (x : string) (entries : list (string * node)) (n : node) (mtime : Z) :
  entry_lookup x entries = Some n -> (count_links n <= count_links (Dir mtime entries))%nat.
Proof.
  induction entries as [|[y ch] entries IH]; [done|]. simpl.
  case_bool_decide as Hxy; [intros [= ->]; lia|].
  intros Hrec. specialize (IH Hrec). simpl in IH. lia.
Qed.

Lemma lookup_node_no_link (fs : node) (p : list string) (target : string) :
  count_links fs = O -> lookup_node fs p <> Some (Symlink target).
Proof.
  revert fs. induction p as [|x p IH]; intros fs Hfs.
  - simpl. intros [= ->]. discriminate Hfs.
  - simpl. destruct fs as [| mtime entries |]; try done.
    destruct (entry_lookup x entries) as [n|] eqn:Hx; [|done].
    apply IH. pose proof (entry_lookup_links _ _ _ mtime Hx). lia.
Qed.

Lemma joinrealpath_nil (budget : nat) (fs : node) (path : list string) (seen : seen_dict) :
  joinrealpath budget fs path [] seen = (path, true, seen).
Proof. by destruct budget. Qed.

Lemma joinrealpath_cons (budget : nat) (fs : node) (path : list string) (x : string)
    (rest : list string) (seen : seen_dict) :
  joinrealpath budget fs path (x :: rest) seen =
  if negb (is_component x) then joinrealpath budget fs path rest seen
  else if bool_decide (x = "..") then joinrealpath budget fs (removelast path) rest seen
  else
    match lookup_node fs (path ++ [x]) with
    | Some (Symlink target) =>
        match seen_get (path ++ [x]) seen with
        | Some (Some cached) => joinrealpath budget fs cached rest seen
        | Some None => ((path ++ [x]) ++ rest, false, seen)
        | None =>
            match budget with
            | O => ((path ++ [x]) ++ rest, false, seen)
            | S budget' =>
                let '(path', ok, seen') :=
                  joinrealpath budget' fs (if is_absolute target then [] else path)
                    (str_split_slash target) ((path ++ [x], None) :: seen) in
                if ok then joinrealpath budget fs path' rest ((path ++ [x], Some path') :: seen')
                else (path' ++ rest, false, seen')
            end
        end
    | _ => joinrealpath budget fs (path ++ [x]) rest seen
    end.
Proof. by destruct budget. Qed.

Lemma joinrealpath_no_links (budget : nat) (fs : node) (path rest : list string)
    (seen : seen_dict) :
  count_links fs = O ->
  exists path', joinrealpath budget fs path rest seen = (path', true, seen).
Proof.
  intros Hfs. revert path. induction rest as [|x rest IH]; intros path.
  - rewrite joinrealpath_nil. eauto.
  - rewrite joinrealpath_cons.
    destruct (negb (is_component x)); [apply IH|].
    case_bool_decide; [apply IH|].
    destruct (lookup_node fs (path ++ [x])) as [[| |target]|] eqn:Hl; try apply IH.
    exfalso. by apply (lookup_node_no_link fs (path ++ [x]) target).
Qed.

Lemma resolve_no_links (fs : node) (getcwd : list string) (p : PurePath) :
  count_links fs = O -> existsb has_nul (parts p) = false ->
  exists t, resolve fs getcwd p = Ret t.
Proof.
  intros Hfs Hnul. unfold resolve. rewrite Hnul.
  destruct (joinrealpath_no_links (S (count_links fs)) fs
              (if bool_decide (root p = EmptyString) then getcwd else []) (parts p) [] Hfs)
    as [path ->]. eauto.
Qed.

Lemma safe_resolve_raise_dl_view (getcwd : list string) (cfg : config) (fs : node)
    (p : string) (e : exn) :
  safe_resolve getcwd fs (ROOT cfg) p = Raise e -> dl_view getcwd cfg fs p = Raise e.
Proof. intros H. unfold dl_view. by rewrite H. Qed.

Lemma safe_resolve_raise_list_dir (format_mtime : Z -> string) (getcwd : list string)
    (fs : node) (root_dir : PurePath) (p : string) (e : exn) :
  safe_resolve getcwd fs root_dir p = Raise e ->
  list_dir format_mtime getcwd fs root_dir p = Raise e.
Proof. intros H. unfold list_dir. by rewrite H. Qed.

Lemma app_dl_open (format_mtime : Z -> string) (getcwd : list string) (cfg : config)
    (fs : node) (p : string) (header : option string) :
  AUTH cfg = None ->
  app format_mtime getcwd cfg fs (mkRequest (dl_route p) header)
  = handle_exception (dl_view getcwd cfg fs p).
Proof. intros HA. unfold app, dl. simpl. by rewrite requires_auth_open. Qed.

(** C1 (as the code has it): whenever the resolution of [ROOT / p]
    returns a path, [safe_resolve] returns that path if it is [ROOT] or
    below it, by whole components, and signals 404 if it is not; what
    [safe_resolve] returns is absolute and inside [ROOT]; on a tree without
    symbolic links the resolution of a path without NUL always returns;
    and the 404 of an escaping path is the 404 of a path that does not
    exist, for a listing and for a download alike. *)
Theorem safe_resolve_confines (format_mtime : Z -> string) (getcwd : list string)
    (fs : node) (root_dir : PurePath) (p : string) :
  (forall t, resolve fs getcwd (joinpath root_dir p) = Ret t ->
     (is_inside root_dir t -> safe_resolve getcwd fs root_dir p = Ret t)
     /\ (~ is_inside root_dir t -> safe_resolve getcwd fs root_dir p = abort 404))
  /\ (forall t, safe_resolve getcwd fs root_dir p = Ret t ->
        root t = "/" /\ is_inside root_dir t)
  /\ (count_links fs = O -> existsb has_nul (parts (joinpath root_dir p)) = false ->
      exists t, resolve fs getcwd (joinpath root_dir p) = Ret t)
  /\ (safe_resolve getcwd fs root_dir p = abort 404 ->
      list_dir format_mtime getcwd fs root_dir p = abort 404
      /\ forall cfg header, ROOT cfg = root_dir -> AUTH cfg = None ->
           app format_mtime getcwd cfg fs (mkRequest (dl_route p) header) = not_found)
  /\ (forall t, safe_resolve getcwd fs root_dir p = Ret t -> exists_ fs (parts t) = false ->
      list_dir format_mtime getcwd fs root_dir p = abort 404
      /\ forall cfg header, ROOT cfg = root_dir -> AUTH cfg = None ->
           app format_mtime getcwd cfg fs (mkRequest (dl_route p) header) = not_found).
Proof.
  split; [|split; [|split; [|split]]].
  - intros t Ht. rewrite safe_resolve_unfold, Ht.
    destruct (relative_to_inside t root_dir) as [Hin Hout]. split.
    + intros H. by destruct (Hin H) as [rel ->].
    + intros H. by rewrite (Hout H).
  - intros t. rewrite safe_resolve_unfold.
    destruct (resolve fs getcwd (joinpath root_dir p)) as [t'|e] eqn:Ht; [|done].
    destruct (relative_to t' root_dir) as [rel|e] eqn:Hrel; [|done].
    intros [= <-]. split; [by apply (resolve_root _ _ _ _ Ht)|].
    destruct (decide (is_prefix (parts root_dir) (parts t') = true
                      /\ root t' = root root_dir)) as [[Hp Hr]|Hno].
    + split; [done|by apply is_prefix_spec].
    + exfalso. unfold relative_to in Hrel.
      destruct (bool_decide (root t' = root root_dir)) eqn:Hr; [|done].
      destruct (is_prefix (parts root_dir) (parts t')) eqn:Hp; [|done].
      apply Hno. split; [done|]. by apply (bool_decide_eq_true_1 (root t' = root root_dir)).
  - apply resolve_no_links.
  - intros H404. split; [by apply safe_resolve_raise_list_dir|].
    intros cfg header <- HA. rewrite app_dl_open by done.
    by rewrite (safe_resolve_raise_dl_view _ _ _ _ _ H404).
  - intros t Ht Hmissing. split.
    + unfold list_dir. rewrite Ht. simpl. by rewrite Hmissing.
    + intros cfg header <- HA. rewrite app_dl_open by done.
      unfold dl_view. rewrite Ht. simpl. by rewrite Hmissing.
Qed.

(** C1, counterexample: an absolute path that lies inside the root is
    resolved, not refused; and [..] is the root itself when the root is
    ["/"]. *)
Lemma safe_resolve_accepts_absolute_inside :
  safe_resolve [] example_tree example_root "/srv/root/a.txt"
  = Ret (mkPath "/" ["srv"; "root"; "a.txt"])
  /\ safe_resolve [] example_tree (mkPath "/" []) ".." = Ret (mkPath "/" []).
Proof. split; vm_compute; reflexivity. Qed.

(** The paths the specification names, resolved against [/srv/root]. *)
Example safe_resolve_examples :
  let inside := safe_resolve [] example_tree example_root in
  inside EmptyString = Ret example_root
  /\ inside "sub/b.txt" = Ret (mkPath "/" ["srv"; "root"; "sub"; "b.txt"])
  /\ inside "missing/../a.txt" = Ret (mkPath "/" ["srv"; "root"; "a.txt"])
  /\ inside ".." = abort 404
  /\ inside "../../etc/passwd" = abort 404
  /\ inside "/etc/passwd" = abort 404
  /\ inside "../root2" = abort 404
  /\ inside "../root2/secret.txt" = abort 404
  /\ inside "sub/../../root2/secret.txt" = abort 404.
Proof. repeat split; vm_compute; reflexivity. Qed.

Example safe_resolve_links :
  let inside := safe_resolve [] linked_tree example_root in
  inside "in" = Ret (mkPath "/" ["srv"; "root"; "sub"; "b.txt"])
  /\ inside "out" = abort 404
  /\ inside "out/passwd" = abort 404
  /\ inside "loop" = Raise RuntimeError
  /\ inside (String zero "x") = Raise ValueError.
Proof. repeat split; vm_compute; reflexivity. Qed.

(** ** The short-name table *)

Lemma string_app_length (a b : string) :
  String.length (a +:+ b) = (String.length a + String.length b)%nat.
Proof.
  induction a as [|c a IH]; [done|].
  change (S (String.length (a +:+ b)) = S (String.length a + String.length b)).
  by rewrite IH.
Qed.

Lemma string_app_inv_tail (a b e : string) : a +:+ e = b +:+ e -> a = b.
Proof.
  revert b. induction a as [|c a IH]; intros [|d b] H.
  - done.
  - apply (f_equal String.length) in H. rewrite !string_app_length in H. simpl in H. lia.
  - apply (f_equal String.length) in H. rewrite !string_app_length in H. simpl in H. lia.
  - simpl in H. injection H as -> H. f_equal. by apply IH.
Qed.

Lemma suffixed_inj (base ext : string) (i j : Z) :
  suffixed base ext i = suffixed base ext j -> i = j.
Proof.
  unfold suffixed. intros H.
  apply (inj (String.app base)) in H. apply (inj (String.app "_")) in H.
  apply string_app_inv_tail in H. unfold str_of_int in H. by apply (inj pretty) in H.
Qed.

Lemma next_free_spec (steps : nat) (m m' : gmap string string) (base ext : string) (i0 : Z) :
  size m' = steps ->
  (forall j, i0 <= j -> m !! suffixed base ext j = m' !! suffixed base ext j) ->
  let i := next_free steps m base ext i0 in
  i0 <= i
  /\ m !! suffixed base ext i = None
  /\ forall j, i0 <= j < i -> is_Some (m !! suffixed base ext j).
Proof.
  revert m' i0. induction steps as [|steps IH]; intros m' i0 Hsize Hagree; simpl.
  - apply map_size_empty_inv in Hsize. subst m'.
    split; [lia|]. split; [|intros j Hj; lia].
    rewrite Hagree by lia. apply lookup_empty.
  - case_bool_decide as Htaken.
    + destruct (IH (delete (suffixed base ext i0) m') (i0 + 1)) as (Hle & Hfree & Hbelow).
      * rewrite map_size_delete_Some; [lia|]. by rewrite <- Hagree by lia.
      * intros j Hj. rewrite lookup_delete_ne; [apply Hagree; lia|].
        intros Heq. apply suffixed_inj in Heq. lia.
      * split; [lia|]. split; [done|]. intros j Hj.
        destruct (decide (j = i0)) as [->|Hne]; [done|]. apply Hbelow. lia.
    + split; [lia|]. split; [|intros j Hj; lia].
      by apply eq_None_not_Some.
Qed.

Lemma short_name_unused (SHORT_URLS : gmap string string) (f : string) :
  SHORT_URLS !! short_name SHORT_URLS f = None.
Proof.
  unfold short_name. case_bool_decide as Htaken.
  - destruct (splitext f) as [base ext].
    by destruct (next_free_spec (size SHORT_URLS) SHORT_URLS SHORT_URLS base ext 1)
      as (_ & Hfree & _).
  - by apply eq_None_not_Some.
Qed.

Lemma substring_all (s : string) : substring 0 (String.length s) s = s.
Proof. induction s as [|c s IH]; simpl; [done|]. by rewrite IH. Qed.

Lemma substring_split (p : string) (k : nat) :
  substring 0 k p +:+ substring k (String.length p - k) p = p.
Proof.
  revert k. induction p as [|c p IH]; intros k.
  - by destruct k.
  - destruct k as [|k].
    + simpl. by rewrite substring_all.
    + change (String c (substring 0 k p +:+ substring k (String.length p - k) p)
              = String c p).
      by rewrite IH.
Qed.

Lemma splitext_app (f : string) : (splitext f).1 +:+ (splitext f).2 = f.
Proof.
  assert (Hwhole : f +:+ EmptyString = f).
  { induction f as [|c f IH]; [done|].
    change (String c (f +:+ EmptyString) = String c f). by rewrite IH. }
  unfold splitext. cbv zeta. case_match; [|exact Hwhole].
  destruct (splitext_loop _ _ _ _) as [r|] eqn:Hloop; [|exact Hwhole].
  revert Hloop. generalize (Z.to_nat (str_rfind "." f - (str_rfind "/" f + 1))).
  generalize (str_rfind "/" f + 1). intros i left. revert i.
  induction left as [|left IH]; intros i Hloop; simpl in Hloop; [done|].
  case_match; [|by apply (IH (i + 1))].
  injection Hloop as <-. cbn [fst snd]. unfold str_take, str_drop. apply substring_split.
Qed.

(** Adding one file to the table. *)
Lemma short_urls_files_cons (rel_root f : string) (files : list string)
    (SHORT_URLS : gmap string string) :
  short_urls_files rel_root (f :: files) SHORT_URLS
  = short_urls_files rel_root files
      (<[short_name SHORT_URLS f := walk_relpath rel_root f]> SHORT_URLS).
Proof. reflexivity. Qed.

Lemma short_urls_files_grows (rel_root : string) (files : list string)
    (m : gmap string string) :
  m ⊆ short_urls_files rel_root files m
  /\ size (short_urls_files rel_root files m) = (size m + length files)%nat.
Proof.
  revert m. induction files as [|f files IH]; intros m; simpl.
  - split; [done|lia].
  - destruct (IH (<[short_name m f := walk_relpath rel_root f]> m)) as [Hsub Hsize].
    split.
    + etrans; [|exact Hsub]. apply insert_subseteq, short_name_unused.
    + rewrite Hsize, map_size_insert_None by apply short_name_unused. lia.
Qed.

Lemma short_urls_loop_grows (root_dir : PurePath)
    (walk : list (list string * list string * list string)) (m m' : gmap string string) :
  short_urls_loop root_dir walk m = Ret m' ->
  m ⊆ m' /\ size m' = (size m + walk_file_count walk)%nat.
Proof.
  revert m. induction walk as [|[[top ds] fs] walk IH]; intros m; simpl.
  - intros [= <-]. unfold walk_file_count. simpl. split; [done|lia].
  - destruct (relative_to (mkPath "/" top) root_dir) as [rel|e]; [|done]. simpl.
    intros Hloop. destruct (IH _ Hloop) as [Hsub Hsize].
    destruct (short_urls_files_grows (as_posix rel) fs m) as [Hsub' Hsize'].
    split; [by etrans|].
    rewrite Hsize, Hsize'. unfold walk_file_count. simpl. lia.
Qed.

(** Induction on a tree, with the hypothesis for every entry of a
    directory. *)
Lemma node_nested_ind (P : node -> Prop) :
  (forall mtime data, P (File mtime data)) ->
  (forall mtime entries, Forall (fun e => P e.2) entries -> P (Dir mtime entries)) ->
  (forall target, P (Symlink target)) ->
  forall n, P n.
Proof.
  intros HFile HDir HLink. fix IH 1. intros [mtime data|mtime entries|target].
  - apply HFile.
  - apply HDir. induction entries as [|[x ch] entries IHentries]; constructor.
    + apply IH.
    + apply IHentries.
  - apply HLink.
Qed.

(** Every directory a walk yields lies at or below its top. *)
Lemma walk_node_below (fs : node) (n : node) :
  forall top entry, In entry (walk_node fs top n) -> exists rest, entry.1.1 = top ++ rest.
Proof.
  induction n as [| mtime entries IH |] using node_nested_ind; intros top entry; [done| |done].
  cbn [walk_node]. intros [<-|Hin].
  - exists []. simpl. by rewrite app_nil_r.
  - revert Hin. induction IH as [|[x ch] entries Hch _ IHentries]; [done|].
    intros Hin. apply in_app_or in Hin as [Hin|Hin]; [|by apply IHentries].
    destruct ch as [| mtime' entries' |]; try done.
    destruct (Hch (top ++ [x]) entry Hin) as [rest Hrest].
    exists (x :: rest). by rewrite Hrest, <- app_assoc.
Qed.

Lemma os_walk_below (fs : node) (top : list string) (entry : list string * list string * list string) :
  In entry (os_walk fs top) -> exists rest, entry.1.1 = top ++ rest.
Proof.
  unfold os_walk. destruct (lookup_node fs top); [apply walk_node_below|done].
Qed.

Lemma short_urls_loop_returns (root_dir : PurePath)
    (walk : list (list string * list string * list string)) (m : gmap string string) :
  root root_dir = "/" ->
  (forall entry, In entry walk -> exists rest, entry.1.1 = parts root_dir ++ rest) ->
  exists m', short_urls_loop root_dir walk m = Ret m'.
Proof.
  intros Hroot. revert m. induction walk as [|[[top ds] fs] walk IH]; intros m Hbelow.
  - by exists m.
  - cbn [short_urls_loop].
    destruct (proj1 (relative_to_inside (mkPath "/" top) root_dir)) as [rel ->].
    { split; [done|]. apply (Hbelow (top, ds, fs)). by left. }
    apply IH. intros entry Hin. apply Hbelow. by right.
Qed.

Lemma build_short_urls_returns (fs : node) (root_dir : PurePath) :
  root root_dir = "/" ->
  exists m, build_short_urls fs root_dir = Ret m
            /\ size m = walk_file_count (os_walk fs (parts root_dir)).
Proof.
  intros Hroot.
  destruct (short_urls_loop_returns root_dir (os_walk fs (parts root_dir)) ∅ Hroot)
    as [m Hm]; [apply os_walk_below|].
  exists m. split; [done|].
  destruct (short_urls_loop_grows _ _ _ _ Hm) as [_ ->]. by rewrite map_size_empty.
Qed.

Lemma short_name_cases (m : gmap string string) (f : string) :
  m !! short_name m f = None
  /\ (m !! f = None -> short_name m f = f)
  /\ (is_Some (m !! f) ->
      exists i, 1 <= i
        /\ short_name m f = suffixed (splitext f).1 (splitext f).2 i
        /\ forall j, 1 <= j < i -> is_Some (m !! suffixed (splitext f).1 (splitext f).2 j)).
Proof.
  split; [apply short_name_unused|]. split.
  - intros Hf. unfold short_name. rewrite bool_decide_eq_false_2; [done|].
    rewrite Hf. by intros [? ?].
  - intros Hf. unfold short_name. rewrite bool_decide_eq_true_2 by done.
    destruct (splitext f) as [base ext]. cbn [fst snd].
    destruct (next_free_spec (size m) m m base ext 1) as (Hle & _ & Hbelow); [done..|]. eauto.
Qed.

(** The two loops are one pass over the files of the walk in its order. *)
Lemma short_urls_files_fold (rel_root : string) (files : list string) (m : gmap string string) :
  short_urls_files rel_root files m
  = fold_left (fun acc fr => <[short_name acc fr.1 := fr.2]> acc)
      (map (fun f => (f, walk_relpath rel_root f)) files) m.
Proof. revert m. induction files as [|f files IH]; intros m; simpl; [done|apply IH]. Qed.

Lemma short_urls_loop_fold (root_dir : PurePath)
    (walk : list (list string * list string * list string)) (m m' : gmap string string) :
  short_urls_loop root_dir walk m = Ret m' ->
  m' = fold_left (fun acc fr => <[short_name acc fr.1 := fr.2]> acc) (walk_files root_dir walk) m.
Proof.
  revert m. induction walk as [|[[top ds] files] walk IH]; intros m; simpl.
  - by intros [= <-].
  - destruct (relative_to (mkPath "/" top) root_dir) as [rel|e]; [|done]. simpl.
    intros Hloop. rewrite fold_left_app, <- short_urls_files_fold. by apply IH.
Qed.

Lemma short_names_in_order (files : list (string * string)) :
  forall (m : gmap string string) (used : list string),
    (forall k, is_Some (m !! k) <-> k ∈ used) -> NoDup used ->
    let m' := fold_left (fun acc fr => <[short_name acc fr.1 := fr.2]> acc) files m in
    exists names : list string,
      length names = length files
      /\ NoDup (used ++ names)
      /\ (forall k, is_Some (m' !! k) <-> k ∈ used ++ names)
      /\ (forall k r, m !! k = Some r -> m' !! k = Some r)
      /\ (forall j f r k, files !! j = Some (f, r) -> names !! j = Some k ->
            spec_short_name (used ++ take j names) f k /\ m' !! k = Some r)
      /\ (forall k r, m' !! k = Some r ->
            m !! k = Some r \/ exists j f, names !! j = Some k /\ files !! j = Some (f, r)).
Proof.
  induction files as [|[f r] files IH]; intros m used Hdom Hnodup; cbn zeta.
  - exists []. simpl. rewrite app_nil_r. repeat split; try done; try tauto.
    + by apply Hdom.
    + by apply Hdom.
  - cbn [fold_left fst snd]. set (k0 := short_name m f).
    destruct (short_name_cases m f) as (Hfree & Hbare & Htaken). fold k0 in Hfree, Hbare, Htaken.
    assert (Hk0 : k0 ∉ used).
    { intros Hin. apply Hdom in Hin. rewrite Hfree in Hin. by destruct Hin. }
    destruct (IH (<[k0 := r]> m) (used ++ [k0])) as (names & Hlen & Hnd & Hdom' & Hkeep & Hspec & Hsound).
    { intros k. rewrite elem_of_app, list_elem_of_singleton, <- Hdom.
      destruct (decide (k = k0)) as [->|Hne].
      - rewrite lookup_insert_eq. split; [by right|by eauto].
      - rewrite lookup_insert_ne by done. split; [by left|]. by intros [?|?]. }
    { apply NoDup_app. split; [done|]. split; [|apply NoDup_singleton].
      intros x Hx Hx'. apply list_elem_of_singleton in Hx'. by subst x. }
    cbv zeta in Hdom', Hkeep, Hspec, Hsound.
    exists (k0 :: names).
    assert (Happ : forall l, used ++ k0 :: l = (used ++ [k0]) ++ l)
      by (intros l; by rewrite <- app_assoc).
    split; [simpl; by rewrite Hlen|]. split; [by rewrite Happ|].
    split; [intros k; by rewrite Happ|]. split; [|split].
    + intros k v Hk. apply Hkeep. rewrite lookup_insert_ne; [done|]. intros <-. congruence.
    + intros [|j] f' r' k Hf' Hk.
      * injection Hf' as <- <-. injection Hk as <-. cbn [take]. rewrite app_nil_r. split.
        -- split; [apply splitext_app|]. split; [done|]. split.
           ++ intros Hf. apply Hbare. apply eq_None_not_Some. by rewrite Hdom.
           ++ intros Hf. apply Hdom in Hf. destruct (Htaken Hf) as (i & Hi & Hk & Hbelow).
              exists i. split; [done|]. split; [done|].
              intros j Hj. apply Hdom. by apply Hbelow.
        -- apply Hkeep. apply lookup_insert_eq.
      * cbn [take]. rewrite Happ. by apply (Hspec j).
    + intros k v Hk. destruct (Hsound k v Hk) as [Hold|(j & f' & Hj & Hf')].
      * destruct (decide (k = k0)) as [->|Hne].
        -- rewrite lookup_insert_eq in Hold. injection Hold as <-.
           right. by exists O, f.
        -- rewrite lookup_insert_ne in Hold by done. by left.
      * right. by exists (S j), f'.
Qed.

(** C3 (as the code has it): the table is made in one pass over the files
    in the order of the walk.  The file at place [j] gets a short name
    that depends on the names given to the files before it: its bare
    name when none of them has it, and otherwise its name with [_i]
    before the extension for the least [i >= 1] whose name none of them
    has.  No short name is given twice, the table maps the short name of
    each file to the root-relative path of that file and holds nothing
    else, so it has one entry for each file of the walk. *)
Theorem short_name_table (fs : node) (root_dir : PurePath) :
  (root root_dir = "/" -> exists m, build_short_urls fs root_dir = Ret m)
  /\ forall m, build_short_urls fs root_dir = Ret m ->
       let files := walk_files root_dir (os_walk fs (parts root_dir)) in
       exists names : list string,
         length names = length files
         /\ NoDup names
         /\ (forall j f r k, files !! j = Some (f, r) -> names !! j = Some k ->
               spec_short_name (take j names) f k /\ m !! k = Some r)
         /\ (forall k r, m !! k = Some r ->
               exists j f, names !! j = Some k /\ files !! j = Some (f, r))
         /\ size m = length files.
Proof.
  split.
  - intros Hroot. destruct (build_short_urls_returns fs root_dir Hroot) as (m & Hm & _). eauto.
  - intros m Hm files. unfold build_short_urls in Hm.
    apply short_urls_loop_fold in Hm. fold files in Hm.
    destruct (short_names_in_order files ∅ []) as (names & Hlen & Hnd & Hdom & _ & Hspec & Hsound).
    { intros k. rewrite lookup_empty. split; [by intros [? ?]|by intros ?%elem_of_nil]. }
    { constructor. }
    cbv zeta in Hdom, Hspec, Hsound. rewrite <- Hm in Hdom, Hspec, Hsound.
    rewrite app_nil_l in Hnd. exists names.
    split; [done|]. split; [done|]. split; [exact Hspec|]. split.
    + intros k r Hk. destruct (Hsound k r Hk) as [Hold|H]; [|done].
      by rewrite lookup_empty in Hold.
    + rewrite <- Hlen. rewrite <- (size_list_to_set (C := gset string) names) by done.
      rewrite <- size_dom. f_equal. apply set_eq. intros k.
      rewrite elem_of_dom, elem_of_list_to_set. apply Hdom.
Qed.

Lemma collision_tree_table :
  (m ← build_short_urls collision_tree example_root;
   Ret (m !! "a.txt", m !! "a_1.txt", m !! "a_2.txt", size m))
  = Ret (Some "a.txt", Some "a_1.txt", Some "sub/a.txt", 3%nat).
Proof. vm_compute. reflexivity. Qed.

Lemma two_files_tree_table :
  (m ← build_short_urls two_files_tree example_root;
   Ret (m !! "a.txt", m !! "a_1.txt", size m))
  = Ret (Some "a.txt", Some "sub/a.txt", 2%nat).
Proof. vm_compute. reflexivity. Qed.

(** C3, counterexample: with [a.txt] and [a_1.txt] in the root and a
    second [a.txt] in [sub], the second [a.txt] does not receive the
    suffix [_1] (that name is the file [a_1.txt]); it receives [_2]. *)
Lemma second_file_gets_2 :
  exists m, build_short_urls collision_tree example_root = Ret m
    /\ m !! "a.txt" = Some "a.txt"
    /\ m !! "a_1.txt" = Some "a_1.txt"
    /\ m !! "a_2.txt" = Some "sub/a.txt"
    /\ size m = 3%nat.
Proof.
  pose proof collision_tree_table as H.
  destruct (build_short_urls collision_tree example_root) as [m|e]; [|discriminate H].
  injection H as H1 H2 H3 H4. by exists m.
Qed.

(** With the two files alone, the first keeps [a.txt] and the second is
    [a_1.txt]. *)
Example two_files_short_names :
  exists m, build_short_urls two_files_tree example_root = Ret m
    /\ m !! "a.txt" = Some "a.txt"
    /\ m !! "a_1.txt" = Some "sub/a.txt"
    /\ size m = 2%nat.
Proof.
  pose proof two_files_tree_table as H.
  destruct (build_short_urls two_files_tree example_root) as [m|e]; [|discriminate H].
  injection H as H1 H2 H3. by exists m.
Qed.

(** ** Download by short name *)

Lemma requires_auth_twice (cfg : config) (req req' : request) (func : result response) :
  authorization req = authorization req' ->
  requires_auth cfg req (requires_auth cfg req' func) = requires_auth cfg req' func.
Proof.
  intros Hh. unfold requires_auth. rewrite Hh.
  destruct (match AUTH cfg with
            | Some _ => check_auth_header (AUTH cfg) (authorization req')
            | None => Ret true
            end) as [[|]|e]; simpl; done.
Qed.

Lemma requires_auth_header (cfg : config) (req req' : request) (func : result response) :
  authorization req = authorization req' ->
  requires_auth cfg req func = requires_auth cfg req' func.
Proof. intros Hh. unfold requires_auth. by rewrite Hh. Qed.

(** C5 (as the code has it): for a short name of the table, [/drop/name]
    is answered exactly as [/dl/relpath] for the path the table gives, with
    the same header (the same bytes as an attachment, the same 404 or
    401); for a name that is not in the table the answer is 404 when the
    gate accepts the request, and the 401 challenge when it does not. *)
Theorem drop_is_dl (format_mtime : Z -> string) (getcwd : list string)
    (cfg : config) (fs : node) (header : option string) (filename : string) :
  (forall relpath, SHORT_URLS cfg !! filename = Some relpath ->
     app format_mtime getcwd cfg fs (mkRequest (drop_route filename) header)
     = app format_mtime getcwd cfg fs (mkRequest (dl_route relpath) header))
  /\ (SHORT_URLS cfg !! filename = None ->
      (AUTH cfg = None
       \/ (exists cred, AUTH cfg = Some cred /\ carries_credential cred header) ->
       app format_mtime getcwd cfg fs (mkRequest (drop_route filename) header) = not_found)
      /\ ((exists cred, AUTH cfg = Some cred /\ ~ carries_credential cred header) ->
          app format_mtime getcwd cfg fs (mkRequest (drop_route filename) header)
          = challenge)).
Proof.
  split.
  - intros relpath Hname. unfold app. cbn [url]. f_equal.
    unfold drop, drop_view, dl. rewrite Hname. cbn [default].
    rewrite bool_decide_eq_true_2 by eauto. cbn [negb].
    rewrite requires_auth_twice by done. by apply requires_auth_header.
  - intros Hname. unfold app, drop, drop_view. cbn [url]. rewrite Hname.
    rewrite bool_decide_eq_false_2 by (by intros [? ?]). cbn [negb]. split.
    + intros [Hopen|(cred & Hcred & Hcarries)].
      * by rewrite requires_auth_open.
      * by rewrite (proj1 (requires_auth_guarded _ _ _ cred Hcred)).
    + intros (cred & Hcred & Hnot).
      by rewrite (proj2 (requires_auth_guarded _ _ _ cred Hcred)).
Qed.

(** C5, counterexample: in guarded mode a request without credentials
    for a short name that is not in the table is answered with the 401
    challenge, not with 404. *)
Lemma drop_unknown_unauthenticated :
  SHORT_URLS guarded_config !! "nope.txt" = None
  /\ app example_format [] guarded_config example_tree
       (mkRequest (drop_route "nope.txt") None) = challenge
  /\ status challenge = 401.
Proof. repeat split; vm_compute; reflexivity. Qed.

(** The example of the specification: [/drop/b.txt] serves the bytes of
    [/dl/sub/b.txt]. *)
Example drop_examples :
  let get r := app example_format [] open_config example_tree (mkRequest r None) in
  get (drop_route "b.txt") = mkResponse 200 None (Some "b.txt") None (FileBytes (bytes_of "bbb"))
  /\ get (dl_route "sub/b.txt") = get (drop_route "b.txt")
  /\ get (drop_route "c.txt") = not_found
  /\ get (dl_route "sub") = not_found
  /\ get (dl_route "../root2/secret.txt") = not_found.
Proof. repeat split; vm_compute; reflexivity. Qed.

(** ** Sizes and [stat] *)

Lemma human_size_returns (n : Z) : 0 <= n < 2 ^ 1023 -> exists s, human_size n = Ret s.
Proof.
  intros [Hlo Hhi]. pose proof human_size_scaled as Hsmall.
  destruct (decide (1024 ^ 5 <= n)) as [Hn|Hn].
  - destruct (human_size_petabytes n (conj Hn Hhi)) as (x & _ & ->). eauto.
  - clear Hhi.
    assert (Hk : exists k : nat, (k < 5)%nat /\ (k <> O -> 1024 ^ Z.of_nat k <= n)
                                 /\ n < 1024 ^ Z.of_nat (S k)).
    { destruct (decide (n < 1024)); [exists 0%nat; split; [lia|split; [done|simpl; lia]]|].
      destruct (decide (n < 1024 ^ 2)); [exists 1%nat; split; [lia|split; simpl; lia]|].
      destruct (decide (n < 1024 ^ 3)); [exists 2%nat; split; [lia|split; simpl; lia]|].
      destruct (decide (n < 1024 ^ 4)); [exists 3%nat; split; [lia|split; simpl; lia]|].
      exists 4%nat. split; [lia|split; simpl; lia]. }
    destruct Hk as (k & Hk & Hge & Hlt). rewrite (Hsmall k n Hk Hlo Hge Hlt). eauto.
Qed.

Lemma entry_lookup_sizes (x : string) (entries : list (string * node)) (n : node) (mtime : Z) :
  sizes_in_range (Dir mtime entries) = true -> entry_lookup x entries = Some n ->
  sizes_in_range n = true.
Proof.
  induction entries as [|[y ch] entries IH]; [done|]. simpl.
  intros Hall. apply andb_true_iff in Hall as [Hch Hall].
  case_bool_decide as Hxy; [by intros [= <-]|]. by apply IH.
Qed.

Lemma lookup_node_sizes (fs : node) (p : list string) (n : node) :
  sizes_in_range fs = true -> lookup_node fs p = Some n -> sizes_in_range n = true.
Proof.
  revert fs. induction p as [|x p IH]; intros fs Hfs; simpl.
  - by intros [= <-].
  - destruct fs as [| mtime entries |]; try done.
    destruct (entry_lookup x entries) as [ch|] eqn:Hx; [|done].
    apply IH. by apply (entry_lookup_sizes x entries ch mtime).
Qed.

Lemma stat_node_sizes (fs : node) (p : list string) (mtime : Z) (data : list byte) :
  sizes_in_range fs = true -> stat_node fs p = Some (File mtime data) ->
  0 <= Z.of_nat (length data) < 2 ^ 63.
Proof.
  intros Hfs. unfold stat_node. destruct (namei _ _ _ _) as [q|]; [|done].
  intros Hq. apply (lookup_node_sizes _ _ _ Hfs) in Hq. simpl in Hq.
  apply Z.ltb_lt in Hq. lia.
Qed.

Lemma is_dir_os_stat (fs : node) (p : list string) :
  is_dir fs p = true -> exists st, os_stat fs p = Ret st.
Proof.
  unfold is_dir, os_stat. destruct (stat_node fs p) as [[| |]|]; try done. eauto.
Qed.

Lemma is_file_os_stat (fs : node) (p : list string) :
  sizes_in_range fs = true -> is_file fs p = true ->
  exists st, os_stat fs p = Ret st /\ exists s, human_size (st_size st) = Ret s.
Proof.
  intros Hfs. unfold is_file, os_stat.
  destruct (stat_node fs p) as [[mtime data| |]|] eqn:Hstat; try done. intros _.
  eexists. split; [done|]. simpl. apply human_size_returns.
  destruct (stat_node_sizes fs p mtime data Hfs Hstat) as [Hlo Hhi]. split; [done|].
  eapply Z.lt_trans; [exact Hhi|]. by apply Z.pow_lt_mono_r.
Qed.

(** ** The index of a tree without symbolic links *)

Lemma names_plain_dir (mtime : Z) (entries : list (string * node)) :
  names_plain (Dir mtime entries) = true ->
  Forall (fun x => plain_name x = true) (map fst entries)
  /\ NoDup (map fst entries)
  /\ Forall (fun e => names_plain e.2 = true) entries.
Proof.
  cbn [names_plain]. rewrite !andb_true_iff. intros [[Hplain Hdup] Hall].
  split.
  { apply Forall_forall. intros x Hx.
    apply (proj1 (forallb_forall _ _) Hplain). by apply list_elem_of_In. }
  split; [by apply bool_decide_eq_true_1 in Hdup|].
  clear Hplain Hdup. induction entries as [|[x ch] entries IH]; constructor.
  - apply andb_true_iff in Hall. apply Hall.
  - apply IH. apply andb_true_iff in Hall. apply Hall.
Qed.

Lemma entry_lookup_In (x : string) (entries : list (string * node)) (n : node) :
  entry_lookup x entries = Some n -> In (x, n) entries.
Proof.
  induction entries as [|[y ch] entries IH]; [done|]. simpl.
  case_bool_decide as Hxy; [intros [= ->]; subst; by left|]. intros H. right. by apply IH.
Qed.

Lemma In_entry_lookup (x : string) (entries : list (string * node)) (n : node) :
  NoDup (map fst entries) -> In (x, n) entries -> entry_lookup x entries = Some n.
Proof.
  induction entries as [|[y ch] entries IH]; [done|]. simpl.
  intros Hdup. apply NoDup_cons in Hdup as [Hy Hdup]. intros [[= -> ->]|Hin].
  - by rewrite bool_decide_eq_true_2.
  - rewrite bool_decide_eq_false_2; [by apply IH|].
    intros ->. apply Hy. apply list_elem_of_In. apply in_map_iff. by exists (y, n).
Qed.

Lemma lookup_node_app (fs : node) (a b : list string) :
  lookup_node fs (a ++ b) = match lookup_node fs a with
                            | Some n => lookup_node n b
                            | None => None
                            end.
Proof.
  revert fs. induction a as [|x a IH]; intros fs; [done|]. simpl.
  destruct fs as [| mtime entries |]; try done.
  destruct (entry_lookup x entries); [apply IH|done].
Qed.

Lemma lookup_node_plain (fs : node) (p : list string) (n : node) :
  names_plain fs = true -> lookup_node fs p = Some n ->
  Forall (fun x => plain_name x = true) p /\ names_plain n = true.
Proof.
  revert fs. induction p as [|x p IH]; intros fs Hfs; simpl.
  - intros [= <-]. by split.
  - destruct fs as [| mtime entries |]; try done.
    destruct (entry_lookup x entries) as [ch|] eqn:Hx; [|done]. intros Hp.
    destruct (names_plain_dir _ _ Hfs) as (Hplain & _ & Hall).
    apply entry_lookup_In in Hx.
    assert (Hch : names_plain ch = true).
    { rewrite Forall_forall in Hall. apply (Hall (x, ch)). by apply list_elem_of_In. }
    destruct (IH ch Hch Hp) as [Hrest Hn]. split; [|done]. constructor; [|done].
    rewrite Forall_forall in Hplain. apply Hplain, list_elem_of_In, in_map_iff.
    by exists (x, ch).
Qed.

Lemma namei_nil (depth : nat) (fs : node) (cur : list string) :
  namei depth fs cur [] = Some cur.
Proof. by destruct depth. Qed.

Lemma namei_cons (depth : nat) (fs : node) (cur : list string) (x : string)
    (rest : list string) :
  namei depth fs cur (x :: rest) =
  match lookup_node fs cur with
  | Some (Dir _ _) =>
      if negb (is_component x) then namei depth fs cur rest
      else if bool_decide (x = "..") then namei depth fs (removelast cur) rest
      else
        match lookup_node fs (cur ++ [x]) with
        | Some (Symlink target) =>
            match depth with
            | O => None
            | S depth' =>
                if bool_decide (target = EmptyString) then None
                else
                  match namei depth' fs (if is_absolute target then [] else cur)
                          (str_split_slash target) with
                  | Some cur' => namei depth fs cur' rest
                  | None => None
                  end
            end
        | Some _ => namei depth fs (cur ++ [x]) rest
        | None => None
        end
  | _ => None
  end.
Proof. by destruct depth. Qed.

Lemma plain_name_component (x : string) :
  plain_name x = true -> is_component x = true /\ x <> "..".
Proof.
  unfold plain_name. rewrite !andb_true_iff, negb_true_iff.
  intros [[Hc Hdd] _]. split; [done|]. by apply bool_decide_eq_false_1 in Hdd.
Qed.

(** On a tree without links, [stat] finds what the names lead to. *)
Lemma namei_plain (depth : nat) (fs : node) (rest cur : list string) (n : node) :
  count_links fs = O -> Forall (fun x => plain_name x = true) rest ->
  lookup_node fs (cur ++ rest) = Some n ->
  namei depth fs cur rest = Some (cur ++ rest).
Proof.
  intros Hfs. revert cur. induction rest as [|x rest IH]; intros cur Hplain Hn.
  - by rewrite namei_nil, app_nil_r.
  - apply Forall_cons in Hplain as [Hx Hplain].
    destruct (plain_name_component x Hx) as [Hc Hdd].
    rewrite namei_cons.
    replace (cur ++ x :: rest) with ((cur ++ [x]) ++ rest) in * by by rewrite <- app_assoc.
    pose proof Hn as Hn'. rewrite lookup_node_app in Hn'.
    destruct (lookup_node fs (cur ++ [x])) as [ch|] eqn:Hch; [|done].
    pose proof Hch as Hch'. rewrite lookup_node_app in Hch'.
    destruct (lookup_node fs cur) as [[| mtime entries |]|]; try done.
    rewrite Hc. cbn [negb]. rewrite bool_decide_eq_false_2 by done.
    destruct ch as [| |target].
    + by apply IH.
    + by apply IH.
    + exfalso. by apply (lookup_node_no_link fs (cur ++ [x]) target).
Qed.

Lemma stat_node_plain (fs : node) (p : list string) (n : node) :
  count_links fs = O -> names_plain fs = true -> lookup_node fs p = Some n ->
  stat_node fs p = Some n.
Proof.
  intros Hlinks Hnames Hn. unfold stat_node.
  destruct (lookup_node_plain fs p n Hnames Hn) as [Hplain _].
  by rewrite (namei_plain MAXSYMLINKS fs p [] n Hlinks Hplain Hn).
Qed.

Lemma str_split_slash_plain (x : string) :
  forallb (fun c => negb (bool_decide (c = "/"%char))) (list_ascii_of_string x) = true ->
  str_split_slash x = [x].
Proof.
  induction x as [|c x IH]; [done|]. simpl. rewrite andb_true_iff, negb_true_iff.
  intros [Hc Hx]. by rewrite Hc, (IH Hx).
Qed.

Lemma splitroot_relative (c : ascii) (x : string) :
  c <> "/"%char -> splitroot (String c x) = (EmptyString, String c x).
Proof.
  intros Hne. unfold splitroot.
  destruct c as [[] [] [] [] [] [] [] []]; try reflexivity. by destruct Hne.
Qed.

Lemma Path_plain (x : string) : plain_name x = true -> Path x = mkPath EmptyString [x].
Proof.
  unfold plain_name. rewrite !andb_true_iff. intros [[Hc _] Hslash].
  destruct x as [|c x]; [done|].
  assert (Hne : c <> "/"%char).
  { simpl in Hslash. apply andb_true_iff in Hslash as [Hslash _].
    apply negb_true_iff in Hslash. by apply bool_decide_eq_false_1 in Hslash. }
  unfold Path. rewrite (splitroot_relative c x Hne).
  rewrite (str_split_slash_plain _ Hslash). cbn [List.filter]. by rewrite Hc.
Qed.

Lemma joinpath_plain (top : list string) (x : string) :
  plain_name x = true -> joinpath (mkPath "/" top) x = mkPath "/" (top ++ [x]).
Proof. intros Hx. unfold joinpath. by rewrite (Path_plain x Hx). Qed.

Lemma lookup_node_child (fs : node) (top : list string) (mtime : Z)
    (entries : list (string * node)) (x : string) (ch : node) :
  lookup_node fs top = Some (Dir mtime entries) -> NoDup (map fst entries) ->
  In (x, ch) entries -> lookup_node fs (top ++ [x]) = Some ch.
Proof.
  intros Htop Hdup Hin. rewrite lookup_node_app, Htop. simpl.
  by rewrite (In_entry_lookup x entries ch Hdup Hin).
Qed.

Lemma walk_node_ok (fs : node) (n : node) :
  forall top, lookup_node fs top = Some n -> names_plain n = true ->
  forall entry, In entry (walk_node fs top n) -> walk_entry_ok fs entry.
Proof.
  induction n as [| mtime entries IH |] using node_nested_ind;
    intros top Htop Hnames entry; [done| |done].
  destruct (names_plain_dir _ _ Hnames) as (Hplain & Hdup & Hall).
  cbn [walk_node]. intros [<-|Hin].
  - exists mtime, entries. split; [done|]. split; [done|]. intros f Hf. cbn [snd] in Hf.
    apply in_map_iff in Hf as ([x ch] & <- & Hx). apply filter_In in Hx as [Hx Hnd].
    exists ch. split; [by apply In_entry_lookup|].
    intros mtime' entries' ->. discriminate Hnd.
  - revert Hin.
    match goal with
    | |- In entry (?sub entries) -> _ =>
        assert (Haux : forall es, (forall e, In e es -> In e entries) ->
                                  In entry (sub es) -> walk_entry_ok fs entry);
          [|by apply Haux]
    end.
    intros es. induction es as [|[x ch] es IHes]; [done|]. intros Hsub Hin.
    apply in_app_or in Hin as [Hin|Hin].
    + destruct ch as [| mtime' entries' |]; try done.
      assert (Hx : In (x, Dir mtime' entries') entries) by (apply Hsub; by left).
      rewrite Forall_forall in IH. rewrite Forall_forall in Hall.
      apply (IH (x, Dir mtime' entries') ltac:(by apply list_elem_of_In) (top ++ [x])).
      * by apply (lookup_node_child fs top mtime entries).
      * apply (Hall (x, Dir mtime' entries')). by apply list_elem_of_In.
      * done.
    + apply IHes; [|done]. intros e He. apply Hsub. by right.
Qed.

Lemma build_index_files_returns (format_mtime : Z -> string) (fs : node)
    (top : list string) (rel_root : string) (mtime : Z) (entries : list (string * node))
    (files : list string) (out : list file_entry) :
  count_links fs = O -> names_plain fs = true -> sizes_in_range fs = true ->
  lookup_node fs top = Some (Dir mtime entries) ->
  (forall f, In f files ->
     exists ch, entry_lookup f entries = Some ch
                /\ forall mtime' entries', ch <> Dir mtime' entries') ->
  exists out', build_index_files format_mtime fs (mkPath "/" top) rel_root files out = Ret out'.
Proof.
  intros Hlinks Hnames Hsizes Htop. revert out.
  induction files as [|f files IH]; intros out Hfiles; [by exists out|].
  destruct (Hfiles f ltac:(by left)) as (ch & Hch & Hnodir).
  destruct (lookup_node_plain fs top _ Hnames Htop) as [_ Hdir].
  destruct (names_plain_dir _ _ Hdir) as (Hplain & Hdup & _).
  assert (Hf : plain_name f = true).
  { rewrite Forall_forall in Hplain. apply Hplain, list_elem_of_In, in_map_iff.
    exists (f, ch). split; [done|]. by apply entry_lookup_In. }
  assert (Hlook : lookup_node fs (top ++ [f]) = Some ch).
  { rewrite lookup_node_app, Htop. simpl. by rewrite Hch. }
  pose proof (stat_node_plain fs (top ++ [f]) ch Hlinks Hnames Hlook) as Hstat.
  cbn [build_index_files]. rewrite (joinpath_plain top f Hf). cbn [parts].
  destruct ch as [mtime' data| mtime' entries' |target].
  - destruct (is_file_os_stat fs (top ++ [f]) Hsizes) as (st & Hst & s & Hs).
    { unfold is_file. by rewrite Hstat. }
    rewrite Hst. simpl. rewrite Hs. simpl. apply IH.
    intros f' Hf'. apply Hfiles. by right.
  - by destruct (Hnodir mtime' entries').
  - exfalso. by apply (lookup_node_no_link fs (top ++ [f]) target).
Qed.

Lemma build_index_loop_returns (format_mtime : Z -> string) (fs : node) (root_dir : PurePath)
    (walk : list (list string * list string * list string)) (out : list file_entry) :
  count_links fs = O -> names_plain fs = true -> sizes_in_range fs = true ->
  root root_dir = "/" ->
  (forall entry, In entry walk ->
     walk_entry_ok fs entry /\ exists rest, entry.1.1 = parts root_dir ++ rest) ->
  exists out', build_index_loop format_mtime fs root_dir walk out = Ret out'.
Proof.
  intros Hlinks Hnames Hsizes Hroot. revert out.
  induction walk as [|[[top ds] files] walk IH]; intros out Hwalk; [by exists out|].
  cbn [build_index_loop].
  destruct (Hwalk (top, ds, files) ltac:(by left)) as [(mtime & entries & Htop & _ & Hfiles) Hbelow].
  destruct (proj1 (relative_to_inside (mkPath "/" top) root_dir)) as [rel ->]; [by split|].
  simpl.
  destruct (build_index_files_returns format_mtime fs top (as_posix rel) mtime entries
              files out Hlinks Hnames Hsizes Htop Hfiles) as [out' ->].
  simpl. apply IH. intros entry Hin. apply Hwalk. by right.
Qed.

(** On a tree without symbolic links, with plain and distinct names and
    files of a size in range, the index is always built. *)
Lemma build_index_returns (format_mtime : Z -> string) (fs : node) (root_dir : PurePath) :
  count_links fs = O -> names_plain fs = true -> sizes_in_range fs = true ->
  root root_dir = "/" ->
  exists idx, build_index format_mtime fs root_dir = Ret idx.
Proof.
  intros Hlinks Hnames Hsizes Hroot. unfold build_index.
  apply build_index_loop_returns; try done.
  intros entry Hin. split; [|by apply (os_walk_below fs)].
  unfold os_walk in Hin. destruct (lookup_node fs (parts root_dir)) as [n|] eqn:Hn; [|done].
  apply (walk_node_ok fs n (parts root_dir) Hn); [|done].
  by destruct (lookup_node_plain fs (parts root_dir) n Hnames Hn).
Qed.

(** ** The directory lister *)

Lemma list_dir_loop_spec (format_mtime : Z -> string) (fs : node) (rel_path : string)
    (p : PurePath) (children : list string) (dirs0 : list dir_entry)
    (files0 : list file_entry) :
  sizes_in_range fs = true ->
  exists ds fs',
    list_dir_loop format_mtime fs rel_path p children dirs0 files0
    = Ret (dirs0 ++ ds, files0 ++ fs')
    /\ Forall2 (dir_entry_of format_mtime fs rel_path p)
         (List.filter (fun c => is_dir fs (parts p ++ [c])) children) ds
    /\ Forall2 (file_entry_of format_mtime fs rel_path p)
         (List.filter (fun c => negb (is_dir fs (parts p ++ [c]))
                                && is_file fs (parts p ++ [c])) children) fs'.
Proof.
  intros Hfs. revert dirs0 files0.
  induction children as [|child children IH]; intros dirs0 files0.
  - exists [], []. simpl. rewrite !app_nil_r. by repeat split; constructor.
  - cbn [list_dir_loop List.filter].
    destruct (is_dir fs (parts p ++ [child])) eqn:Hdir; cbn [negb andb].
    + destruct (is_dir_os_stat _ _ Hdir) as [st Hst]. rewrite Hst. simpl.
      destruct (IH (dirs0 ++ [mkDirEntry child (as_posix (joinpath (Path rel_path) child))
                                 (format_mtime (st_mtime st))]) files0)
        as (ds & fs' & -> & Hds & Hfs').
      eexists (_ :: ds), fs'. rewrite <- app_assoc. split; [done|]. split; [|done].
      constructor; [|done]. repeat split. eauto.
    + destruct (is_file fs (parts p ++ [child])) eqn:Hfile.
      * destruct (is_file_os_stat _ _ Hfs Hfile) as (st & Hst & s & Hs).
        rewrite Hst. simpl. rewrite Hs. simpl.
        destruct (IH dirs0
                    (files0 ++ [mkFileEntry child (as_posix (joinpath (Path rel_path) child))
                                  s (format_mtime (st_mtime st))]))
          as (ds & fs' & -> & Hds & Hfs').
        eexists ds, (_ :: fs'). rewrite <- app_assoc. split; [done|]. split; [done|].
        constructor; [|done]. repeat split. eauto.
      * apply IH.
Qed.

Lemma string_app_assoc (a b c : string) : (a +:+ b) +:+ c = a +:+ b +:+ c.
Proof.
  induction a as [|x a IH]; [done|].
  change (String x ((a +:+ b) +:+ c) = String x (a +:+ b +:+ c)). by rewrite IH.
Qed.

Lemma str_join_snoc (ps : list string) (x : string) :
  str_join "/" (ps ++ [x]) =
  match ps with
  | [] => x
  | _ => str_join "/" ps +:+ "/" +:+ x
  end.
Proof.
  induction ps as [|p ps IH]; [done|].
  destruct ps as [|q ps]; [done|].
  change (p +:+ "/" +:+ str_join "/" ((q :: ps) ++ [x])
          = (p +:+ "/" +:+ str_join "/" (q :: ps)) +:+ "/" +:+ x).
  rewrite IH. by rewrite !string_app_assoc.
Qed.

(** The path of an entry, written out: the listed path, a slash, and the
    name (the name alone when the listed path is empty). *)
Lemma relpath_with_slash (rel_path child : string) :
  plain_name child = true ->
  as_posix (joinpath (Path rel_path) child) =
  match parts (Path rel_path) with
  | [] => root (Path rel_path) +:+ child
  | _ => as_posix (Path rel_path) +:+ "/" +:+ child
  end.
Proof.
  intros Hchild. unfold joinpath. rewrite (Path_plain child Hchild). cbn [root parts].
  rewrite bool_decide_eq_true_2 by done.
  destruct (Path rel_path) as [r ps]. cbn [root parts].
  destruct ps as [|p ps].
  - by destruct r.
  - pose proof (str_join_snoc (p :: ps) child) as Hjoin.
    assert (Hposix : forall l, as_posix (mkPath r (p :: l)) = r +:+ str_join "/" (p :: l))
      by (intros l; by destruct r).
    change (as_posix (mkPath r ((p :: ps) ++ [child]))
            = as_posix (mkPath r (p :: ps)) +:+ "/" +:+ child).
    change ((p :: ps) ++ [child]) with (p :: (ps ++ [child])) in *.
    rewrite !Hposix, Hjoin. by rewrite string_app_assoc.
Qed.

Lemma iter_div1024_nonneg (k : nat) (x : Q) : (0 <= x)%Q -> (0 <= Nat.iter k div1024 x)%Q.
Proof.
  intros Hx. induction k as [|k IH]; [done|]. rewrite Nat.iter_succ. unfold div1024.
  apply Qle_shift_div_l; [reflexivity|]. by rewrite Qmult_0_l.
Qed.

Lemma human_size_readable (n : Z) (s : string) :
  0 <= n < 2 ^ 1023 -> human_size n = Ret s -> human_readable n s.
Proof.
  intros [Hlo Hhi] Hs. unfold human_readable.
  destruct (decide (1024 ^ 5 <= n)) as [Hn|Hn].
  - destruct (human_size_petabytes n (conj Hn Hhi)) as (x & Hx & Hpb).
    assert (Hx0 : (0 <= x)%Q).
    { assert (Hlo' : 2 ^ 50 <= n) by (clear Hhi; lia).
      destruct (float_of_int_large n (conj Hlo' Hhi)) as (v & Hv & Hge).
      rewrite Hv in Hx. injection Hx as <-.
      change (inject_Z 0 <= inject_Z v)%Q. rewrite <- Zle_Qle. clear Hhi. lia. }
    exists 5%nat, x. split; [done|]. split; [done|]. split; [done|]. split; [done|]. split.
    + intros Hsmall. rewrite float_of_int_exact in Hx by (split; [lia|exact Hsmall]).
      by injection Hx.
    + cbv zeta. rewrite Hpb in Hs.
      assert (Heq : s = format_1f_float (Nat.iter 5 div1024 x) +:+ "PB") by congruence.
      rewrite Heq, (format_1f_float_nonneg _ (iter_div1024_nonneg 5 x Hx0)).
      by rewrite <- !string_app_assoc.
  - clear Hhi.
    assert (Hk : exists k : nat, (k < 5)%nat /\ (k <> O -> 1024 ^ Z.of_nat k <= n)
                                 /\ n < 1024 ^ Z.of_nat (S k)).
    { destruct (decide (n < 1024)); [exists 0%nat; split; [lia|split; [done|simpl; lia]]|].
      destruct (decide (n < 1024 ^ 2)); [exists 1%nat; split; [lia|split; simpl; lia]|].
      destruct (decide (n < 1024 ^ 3)); [exists 2%nat; split; [lia|split; simpl; lia]|].
      destruct (decide (n < 1024 ^ 4)); [exists 3%nat; split; [lia|split; simpl; lia]|].
      exists 4%nat. split; [lia|split; simpl; lia]. }
    destruct Hk as (k & Hk & Hge & Hlt).
    assert (Hexact : float_of_int n = Ret (inject_Z n)) by (apply float_of_int_exact; lia).
    exists k, (inject_Z n). split; [lia|]. split; [done|]. split; [done|].
    split; [done|]. split; [done|]. cbv zeta.
    rewrite (human_size_scaled k n Hk Hlo Hge Hlt) in Hs.
    assert (Heq : s = format_1f_float (Nat.iter k div1024 (inject_Z n))
                      +:+ nth k ["B"; "KB"; "MB"; "GB"; "TB"] EmptyString) by congruence.
    rewrite Heq, format_1f_float_nonneg.
    + rewrite <- !string_app_assoc.
      by do 5 (destruct k as [|k]; [done|]); lia.
    + apply iter_div1024_nonneg. change (inject_Z 0 <= inject_Z n)%Q. by rewrite <- Zle_Qle.
Qed.

Lemma listed_size_readable (format_mtime : Z -> string) (fs : node) (rel_path : string)
    (p : PurePath) (children : list string) (files : list file_entry) :
  sizes_in_range fs = true ->
  Forall2 (file_entry_of format_mtime fs rel_path p)
    (List.filter (fun c => negb (is_dir fs (parts p ++ [c])) && is_file fs (parts p ++ [c]))
       children) files ->
  Forall (fun e => exists mtime data,
            stat_node fs (parts p ++ [file_name e]) = Some (File mtime data)
            /\ human_readable (Z.of_nat (length data)) (file_size e)) files.
Proof.
  intros Hfs Hall. eapply Forall2_Forall_r; [exact Hall|].
  apply Forall_forall. intros c Hc e (Hname & _ & st & Hst & Hsize & _).
  apply list_elem_of_In, filter_In in Hc as [_ Hc]. apply andb_true_iff in Hc as [_ Hfile].
  unfold is_file in Hfile. unfold os_stat in Hst. rewrite Hname.
  destruct (stat_node fs (parts p ++ [c])) as [[mtime data| |]|] eqn:Hstat; try done.
  injection Hst as <-. cbn [st_size] in Hsize.
  exists mtime, data. split; [done|].
  destruct (stat_node_sizes fs _ mtime data Hfs Hstat) as [Hlo Hhi].
  apply human_size_readable; [|done]. split; [done|].
  eapply Z.lt_trans; [exact Hhi|]. by apply Z.pow_lt_mono_r.
Qed.

(** C6: for a verified path that is a directory, [list_dir] returns the
    listing of its immediate entries in the order of their names: the
    entries that are directories (with name, path and time, and no size)
    and those that are files, with the size [human_size] gives, which is
    the number of bytes of the file scaled by 1024 to its unit and
    printed with one decimal and the unit; each path is the listed path
    joined with the name, with a forward slash between them; for a path
    that does not exist or is no directory, and for a path that
    [safe_resolve] refuses, the answer is 404. *)
Theorem list_dir_lists_children (format_mtime : Z -> string) (getcwd : list string)
    (fs : node) (root_dir : PurePath) (rel_path : string) :
  (forall p, safe_resolve getcwd fs root_dir rel_path = Ret p ->
     (exists_ fs (parts p) = false \/ is_dir fs (parts p) = false ->
      list_dir format_mtime getcwd fs root_dir rel_path = abort 404)
     /\ (is_dir fs (parts p) = true -> sizes_in_range fs = true ->
         let children := sorted_names (listdir fs (parts p)) in
         Sorted String.le children
         /\ children ≡ₚ listdir fs (parts p)
         /\ (exists mtime entries, stat_node fs (parts p) = Some (Dir mtime entries)
                                   /\ listdir fs (parts p) = map fst entries)
         /\ exists l,
              list_dir format_mtime getcwd fs root_dir rel_path = Ret l
              /\ cwd l = as_posix (Path rel_path)
              /\ Forall2 (dir_entry_of format_mtime fs rel_path p)
                   (List.filter (fun c => is_dir fs (parts p ++ [c])) children) (dirs l)
              /\ Forall2 (file_entry_of format_mtime fs rel_path p)
                   (List.filter (fun c => negb (is_dir fs (parts p ++ [c]))
                                          && is_file fs (parts p ++ [c])) children)
                   (files l)
              /\ Forall (fun e => exists mtime data,
                            stat_node fs (parts p ++ [file_name e]) = Some (File mtime data)
                            /\ human_readable (Z.of_nat (length data)) (file_size e))
                   (files l)))
  /\ (safe_resolve getcwd fs root_dir rel_path = abort 404 ->
      list_dir format_mtime getcwd fs root_dir rel_path = abort 404)
  /\ (forall child, plain_name child = true ->
      as_posix (joinpath (Path rel_path) child) =
      match parts (Path rel_path) with
      | [] => root (Path rel_path) +:+ child
      | _ => as_posix (Path rel_path) +:+ "/" +:+ child
      end).
Proof.
  split; [|split; [by apply safe_resolve_raise_list_dir|apply relpath_with_slash]].
  intros p Hp. split.
  - intros Hnot. unfold list_dir. rewrite Hp. simpl.
    by destruct Hnot as [-> | ->]; [|rewrite orb_true_r].
  - intros Hdir Hfs children. split; [apply Sorted_merge_sort, _|].
    split; [apply merge_sort_Permutation|]. split.
    + unfold listdir. unfold is_dir in Hdir.
      destruct (stat_node fs (parts p)) as [[| mtime entries |]|]; try done. eauto.
    + unfold list_dir. rewrite Hp. simpl.
      assert (Hex : exists_ fs (parts p) = true).
      { unfold exists_. unfold is_dir in Hdir. by destruct (stat_node fs (parts p)). }
      rewrite Hex, Hdir. simpl.
      destruct (list_dir_loop_spec format_mtime fs rel_path p children [] [] Hfs)
        as (ds & fs' & Hloop & Hds & Hfs').
      fold children. rewrite Hloop. simpl. eexists. split; [done|].
      split; [done|]. split; [done|]. split; [done|].
      by apply (listed_size_readable format_mtime fs rel_path p children).
Qed.

(** The example of the specification: the root of the example tree lists
    one directory, [sub], and one file, [a.txt]; [sub] lists [b.txt]. *)
Example list_dir_examples :
  list_dir example_format [] example_tree example_root EmptyString
  = Ret (mkListing [mkDirEntry "sub" "sub" "10"]
           [mkFileEntry "a.txt" "a.txt" "1.5KB" "30"] ".")
  /\ list_dir example_format [] example_tree example_root "sub"
     = Ret (mkListing [] [mkFileEntry "b.txt" "sub/b.txt" "3.0B" "20"] "sub")
  /\ list_dir example_format [] example_tree example_root "a.txt" = abort 404
  /\ list_dir example_format [] example_tree example_root "missing" = abort 404
  /\ list_dir example_format [] example_tree example_root "../root2" = abort 404
  /\ app example_format [] open_config example_tree (mkRequest (ls_route (Some ".")) None)
     = ok (JsonListing (mkListing [mkDirEntry "sub" "sub" "10"]
                          [mkFileEntry "a.txt" "a.txt" "1.5KB" "30"] ".")).
Proof. repeat split; vm_compute; reflexivity. Qed.

(** ** Search *)

Lemma api_search_loop_filter (q : string) (idx out : list file_entry) :
  api_search_loop q idx out
  = out ++ List.filter
             (fun e => str_in q (str_lower (file_name e))
                       || str_in q (str_lower (file_relpath e))) idx.
Proof.
  revert out. induction idx as [|e idx IH]; intros out; simpl.
  - by rewrite app_nil_r.
  - destruct (str_in q (str_lower (file_name e)) || str_in q (str_lower (file_relpath e))).
    + by rewrite IH, <- app_assoc.
    + apply IH.
Qed.

Lemma string_app_nil_r (s : string) : s +:+ EmptyString = s.
Proof.
  induction s as [|c s IH]; [done|].
  change (String c (s +:+ EmptyString) = String c s). by rewrite IH.
Qed.

Lemma str_startswith_spec (p s : string) :
  str_startswith p s = true <-> exists post, s = p +:+ post.
Proof.
  revert s. induction p as [|a p IH]; intros s.
  - split; [by exists s|done].
  - destruct s as [|b s]; simpl.
    + split; [done|]. by intros [post Hpost].
    + rewrite andb_true_iff, bool_decide_eq_true, IH. split.
      * intros [-> [post ->]]. by exists post.
      * intros [post Hpost]. change (String b s = String a (p +:+ post)) in Hpost.
        injection Hpost as -> ->. split; [done|by exists post].
Qed.

(** [q in s] holds exactly when [s] is some text, then [q], then some text. *)
Lemma str_in_spec (q s : string) :
  str_in q s = true <-> exists pre post, s = pre +:+ q +:+ post.
Proof.
  induction s as [|c s IH].
  - simpl. rewrite orb_false_r, str_startswith_spec. split.
    + intros [post Hpost]. by exists EmptyString, post.
    + intros ([|a pre] & post & Hs); [by exists post|done].
  - cbn [str_in]. rewrite orb_true_iff, str_startswith_spec, IH. split.
    + intros [[post Hpost]|(pre & post & ->)].
      * by exists EmptyString, post.
      * by exists (String c pre), post.
    + intros ([|a pre] & post & Hs).
      * left. by exists post.
      * change (String c s = String a (pre +:+ q +:+ post)) in Hs.
        injection Hs as -> ->. right. by exists pre, post.
Qed.

(** C4 (as the code has it): the query is stripped of surrounding white
    space and lower-cased first; when nothing is left the answer is the
    empty array and the index is not even built; otherwise the answer is
    the index, in its order, restricted to the entries whose lower-cased
    name or lower-cased path contains the stripped, lower-cased query as a
    substring.  A request that the gate accepts gets this answer, and the
    index is always built on a tree without symbolic links (with plain,
    distinct names and sizes in range). *)
Theorem api_search_matches (format_mtime : Z -> string) (getcwd : list string)
    (cfg : config) (fs : node) (q : option string) :
  let needle := str_lower (str_strip (default EmptyString q)) in
  let matches e := str_in needle (str_lower (file_name e))
                   || str_in needle (str_lower (file_relpath e)) in
  (needle = EmptyString ->
   api_search_view format_mtime cfg fs q = Ret (ok (JsonEntries [])))
  /\ (needle <> EmptyString -> forall idx,
      build_index format_mtime fs (ROOT cfg) = Ret idx ->
      api_search_view format_mtime cfg fs q = Ret (ok (JsonEntries (List.filter matches idx))))
  /\ (forall e, matches e = true <->
        (exists pre post, str_lower (file_name e) = pre +:+ needle +:+ post)
        \/ (exists pre post, str_lower (file_relpath e) = pre +:+ needle +:+ post))
  /\ (forall header,
        AUTH cfg = None
        \/ (exists cred, AUTH cfg = Some cred /\ carries_credential cred header) ->
        app format_mtime getcwd cfg fs (mkRequest (search_route q) header)
        = handle_exception (api_search_view format_mtime cfg fs q))
  /\ (count_links fs = O -> names_plain fs = true -> sizes_in_range fs = true ->
      root (ROOT cfg) = "/" ->
      exists idx, build_index format_mtime fs (ROOT cfg) = Ret idx).
Proof.
  cbv zeta. split; [|split; [|split; [|split]]]; [| | | |apply build_index_returns].
  - intros Hq. unfold api_search_view. by rewrite Hq.
  - intros Hq idx Hidx. unfold api_search_view.
    rewrite bool_decide_eq_false_2 by done. rewrite Hidx. simpl.
    by rewrite api_search_loop_filter.
  - intros e. by rewrite orb_true_iff, !str_in_spec.
  - intros header Hgate. unfold app, api_search. cbn [url]. f_equal.
    destruct Hgate as [Hopen|(cred & Hcred & Hcarries)].
    + by apply requires_auth_open.
    + by apply (requires_auth_guarded _ _ _ cred).
Qed.

(** C4, counterexample: the query ["log "] (with a space after it) is
    answered with the entries that contain ["log"], while no name or path
    contains the lower-cased query itself. *)
Lemma search_strips_the_query :
  exists idx,
    build_index example_format search_tree example_root = Ret idx
    /\ app example_format [] search_config search_tree
         (mkRequest (search_route (Some "log ")) None)
       = ok (JsonEntries [ mkFileEntry "Login.txt" "Login.txt" "1.0B" "1";
                           mkFileEntry "data.csv" "catalog/data.csv" "3.0B" "3" ])
    /\ search_as_specified "log " idx = [].
Proof. eexists. repeat split; vm_compute; reflexivity. Qed.

(** The example of the specification: ["log"] finds [Login.txt] by its
    name and [catalog/data.csv] by its path; the empty query finds
    nothing. *)
Example search_examples :
  let search q := app example_format [] search_config search_tree
                    (mkRequest (search_route q) None) in
  search (Some "log")
  = ok (JsonEntries [ mkFileEntry "Login.txt" "Login.txt" "1.0B" "1";
                      mkFileEntry "data.csv" "catalog/data.csv" "3.0B" "3" ])
  /\ search (Some "LOG") = search (Some "log")
  /\ search (Some EmptyString) = ok (JsonEntries [])
  /\ search None = ok (JsonEntries [])
  /\ search (Some "   ") = ok (JsonEntries []).
Proof. repeat split; vm_compute; reflexivity. Qed.

(** ** The budget of [joinrealpath] *)

Lemma link_paths_length (n : node) : length (link_paths n) = count_links n.
Proof.
  induction n as [| mtime entries IH |] using node_nested_ind; [done| |done].
  cbn [link_paths count_links].
  induction IH as [|[x ch] entries Hch _ IHentries]; [done|].
  rewrite length_app, length_map, IHentries. simpl in Hch. by rewrite Hch.
Qed.

Lemma lookup_node_link_path (fs : node) (p : list string) (target : string) :
  lookup_node fs p = Some (Symlink target) -> p ∈ link_paths fs.
Proof.
  revert fs. induction p as [|x p IH]; intros fs; simpl.
  - intros [= ->]. simpl. by left.
  - destruct fs as [| mtime entries |]; try done.
    destruct (entry_lookup x entries) as [ch|] eqn:Hx; [|done]. intros Hp.
    apply IH in Hp. cbn [link_paths]. clear IH.
    induction entries as [|[y ch'] entries IHentries]; [done|]. simpl in Hx.
    apply elem_of_app. case_bool_decide as Hxy.
    + injection Hx as ->. subst y. left. by apply list_elem_of_fmap_2.
    + right. by apply IHentries.
Qed.

Lemma seen_matches_push (fs : node) (seen : seen_dict) (stack : list (list string))
    (newpath : list string) (target : string) :
  seen_matches fs seen stack -> seen_get newpath seen = None ->
  lookup_node fs newpath = Some (Symlink target) ->
  seen_matches fs ((newpath, None) :: seen) (newpath :: stack)
  /\ (S (length stack) <= count_links fs)%nat.
Proof.
  intros (Hdup & Hseen & Hlinks) Hnew Hlink.
  assert (Hfresh : newpath ∉ stack).
  { intros Hin. apply Hseen in Hin. congruence. }
  assert (Hmatch : seen_matches fs ((newpath, None) :: seen) (newpath :: stack)).
  { split; [by constructor|]. split.
    - intros k. simpl. rewrite elem_of_cons. case_bool_decide as Hk.
      + subst k. split; [by left|done].
      + rewrite Hseen. split; [by right|]. by intros [?|?].
    - intros k [->|Hk]%elem_of_cons; [|by apply Hlinks].
      by apply (lookup_node_link_path fs newpath target). }
  split; [done|]. destruct Hmatch as (Hdup' & _ & Hlinks').
  rewrite <- link_paths_length.
  change (S (length stack)) with (length (newpath :: stack)).
  apply submseteq_length, NoDup_submseteq; done.
Qed.

Lemma seen_matches_done (fs : node) (seen' : seen_dict) (stack : list (list string))
    (newpath path' : list string) :
  newpath ∉ stack ->
  seen_matches fs seen' (newpath :: stack) ->
  seen_matches fs ((newpath, Some path') :: seen') stack.
Proof.
  intros Hfresh (Hdup & Hseen & Hlinks).
  split; [by apply NoDup_cons in Hdup as [_ Hdup]|]. split.
  - intros k. simpl. case_bool_decide as Hk.
    + subst k. split; [done|]. intros Hin. by destruct Hfresh.
    + rewrite Hseen, elem_of_cons. split; [by intros [?|?]|by right].
  - intros k Hk. apply Hlinks. by right.
Qed.

(** Resolution does not depend on the budget once the budget exceeds the
    number of links that are not being resolved yet; when it succeeds,
    the links being resolved are the same as before. *)
Lemma joinrealpath_budget_stable (fs : node) (b1 : nat) :
  forall (b2 : nat) (stack : list (list string)) (rest path : list string) (seen : seen_dict),
    seen_matches fs seen stack ->
    (count_links fs - length stack < b1)%nat ->
    (count_links fs - length stack < b2)%nat ->
    joinrealpath b1 fs path rest seen = joinrealpath b2 fs path rest seen
    /\ forall path' seen',
         joinrealpath b1 fs path rest seen = (path', true, seen') ->
         seen_matches fs seen' stack.
Proof.
  induction b1 as [|b1 IHb]; intros b2 stack rest; [lia|].
  induction rest as [|x rest IHrest]; intros path seen Hseen Hb1 Hb2.
  - rewrite !joinrealpath_nil. split; [done|]. by intros path' seen' [= _ <-].
  - rewrite !joinrealpath_cons.
    destruct (negb (is_component x)); [by apply IHrest|].
    case_bool_decide; [by apply IHrest|].
    destruct (lookup_node fs (path ++ [x])) as [[| |target]|] eqn:Hlink;
      try by apply IHrest.
    destruct (seen_get (path ++ [x]) seen) as [[cached|]|] eqn:Hget.
    + by apply IHrest.
    + split; [done|]. by intros path' seen'.
    + destruct (seen_matches_push fs seen stack (path ++ [x]) target Hseen Hget Hlink)
        as [Hpush Hroom].
      destruct b2 as [|b2]; [lia|].
      destruct (IHb b2 ((path ++ [x]) :: stack) (str_split_slash target)
                  (if is_absolute target then [] else path)
                  ((path ++ [x], None) :: seen) Hpush) as [Heq Hok];
        [simpl; lia..|].
      rewrite <- Heq.
      destruct (joinrealpath b1 fs (if is_absolute target then [] else path)
                  (str_split_slash target) ((path ++ [x], None) :: seen))
        as [[path' ok] seen'] eqn:Hrec.
      destruct ok; [|split; [done|by intros ? ?]].
      apply IHrest; [|done..].
      apply (seen_matches_done fs seen' stack (path ++ [x]) path').
      * destruct Hseen as (_ & Hs & _). intros Hin. apply Hs in Hin. congruence.
      * by apply (Hok path' seen').
Qed.

(** The budget [resolve] starts with is never used up: any larger budget
    gives the same resolution. *)
Lemma joinrealpath_budget (fs : node) (budget : nat) (path rest : list string) :
  (count_links fs < budget)%nat ->
  joinrealpath budget fs path rest [] = joinrealpath (S (count_links fs)) fs path rest [].
Proof.
  intros Hb. apply (joinrealpath_budget_stable fs budget (S (count_links fs)) []).
  - split; [constructor|]. split; [|by intros k Hk%elem_of_nil].
    intros k. simpl. split; [done|by intros Hk%elem_of_nil].
  - simpl. lia.
  - simpl. lia.
Qed.

(** ** The theorems at work on the examples *)

Lemma check_auth_header_total_witness :
  check_auth_header (Some admin_admin) (Some "Bearer YWRtaW46YWRtaW4=") = Ret false.
Proof.
  refine (proj1 (proj2 (proj2 (proj2
            (check_auth_header_total (Some admin_admin) (Some "Bearer YWRtaW46YWRtaW4="))))
            "Bearer YWRtaW46YWRtaW4=" "Bearer" "YWRtaW46YWRtaW4=" eq_refl _) _).
  - vm_compute. reflexivity.
  - vm_compute. discriminate.
Defined.

Lemma human_size_spec_witness :
  exists x, float_of_int (1024 ^ 5) = Ret x
    /\ human_size (1024 ^ 5) = Ret (format_1f_float (Nat.iter 5 div1024 x) +:+ "PB").
Proof.
  apply (proj1 (proj2 (proj2 human_size_spec))). split; vm_compute; [discriminate|reflexivity].
Defined.

Lemma safe_resolve_confines_witness :
  safe_resolve [] example_tree example_root "../../etc/passwd" = abort 404.
Proof.
  refine (proj2 (proj1 (safe_resolve_confines example_format [] example_tree example_root
                          "../../etc/passwd")
                   (mkPath "/" ["etc"; "passwd"]) _) _).
  - vm_compute. reflexivity.
  - intros [_ [rest Hrest]]. simpl in Hrest. discriminate Hrest.
Defined.

Lemma short_name_table_witness :
  exists m, build_short_urls two_files_tree example_root = Ret m
    /\ m !! "a.txt" = Some "a.txt"
    /\ m !! "a_1.txt" = Some "sub/a.txt"
    /\ size m = 2%nat.
Proof.
  destruct (proj1 (short_name_table two_files_tree example_root) eq_refl) as [m Hm].
  exists m. split; [exact Hm|].
  destruct (proj2 (short_name_table two_files_tree example_root) m Hm)
    as (names & Hlen & _ & Hspec & _ & Hsize).
  change (walk_files example_root (os_walk two_files_tree (parts example_root)))
    with [("a.txt", "a.txt"); ("a.txt", "sub/a.txt")] in Hlen, Hspec, Hsize.
  destruct names as [|k0 [|k1 [|]]]; try discriminate Hlen.
  destruct (Hspec 0%nat "a.txt" "a.txt" k0 eq_refl eq_refl) as [(_ & _ & Hk0 & _) Hm0].
  destruct (Hspec 1%nat "a.txt" "sub/a.txt" k1 eq_refl eq_refl) as [(_ & _ & _ & Hk1) Hm1].
  rewrite (Hk0 ltac:(apply not_elem_of_nil)) in *.
  destruct (Hk1 ltac:(apply list_elem_of_here)) as (i & Hi & -> & Hbelow).
  destruct (decide (i = 1)) as [->|Hne].
  - by repeat split.
  - specialize (Hbelow 1 ltac:(lia)). apply list_elem_of_singleton in Hbelow.
    vm_compute in Hbelow. discriminate Hbelow.
Defined.

Lemma api_search_matches_witness :
  api_search_view example_format search_config search_tree (Some "Log")
  = Ret (ok (JsonEntries
               (List.filter
                  (fun e => str_in (str_lower (str_strip "Log")) (str_lower (file_name e))
                            || str_in (str_lower (str_strip "Log")) (str_lower (file_relpath e)))
                  [ mkFileEntry "Login.txt" "Login.txt" "1.0B" "1";
                    mkFileEntry "notes.md" "notes.md" "1.0B" "4";
                    mkFileEntry "data.csv" "catalog/data.csv" "3.0B" "3" ]))).
Proof.
  refine (proj1 (proj2 (api_search_matches example_format [] search_config search_tree
                          (Some "Log"))) _ _ _).
  - vm_compute. discriminate.
  - vm_compute. reflexivity.
Defined.

Lemma drop_is_dl_witness :
  app example_format [] open_config example_tree (mkRequest (drop_route "b.txt") None)
  = app example_format [] open_config example_tree (mkRequest (dl_route "sub/b.txt") None).
Proof.
  refine (proj1 (drop_is_dl example_format [] open_config example_tree None "b.txt")
            "sub/b.txt" _).
  vm_compute. reflexivity.
Defined.

Lemma list_dir_lists_children_witness :
  exists l,
    list_dir example_format [] example_tree example_root EmptyString = Ret l
    /\ cwd l = as_posix (Path EmptyString)
    /\ Forall2 (dir_entry_of example_format example_tree EmptyString example_root)
         (List.filter (fun c => is_dir example_tree (parts example_root ++ [c]))
            (sorted_names (listdir example_tree (parts example_root))))
         (dirs l)
    /\ Forall2 (file_entry_of example_format example_tree EmptyString example_root)
         (List.filter (fun c => negb (is_dir example_tree (parts example_root ++ [c]))
                                && is_file example_tree (parts example_root ++ [c]))
            (sorted_names (listdir example_tree (parts example_root))))
         (files l)
    /\ Forall (fun e => exists mtime data,
                  stat_node example_tree (parts example_root ++ [file_name e])
                  = Some (File mtime data)
                  /\ human_readable (Z.of_nat (length data)) (file_size e))
         (files l).
Proof.
  refine (proj2 (proj2 (proj2 (proj2 (proj1
            (list_dir_lists_children example_format [] example_tree example_root EmptyString)
            example_root _) _ _)))).
  - vm_compute. reflexivity.
  - vm_compute. reflexivity.
  - vm_compute. reflexivity.
Defined.

(** * Further properties of the program *)

(** ** Downloads *)

Lemma read_bytes_root_name (fs : node) : read_bytes fs [EmptyString] = None \/ exists m es, fs = Dir m es.
Proof.
  destruct fs as [m d|m es|t]; [left|right; eauto|left].
  - unfold read_bytes, stat_node. by rewrite namei_cons.
  - unfold read_bytes, stat_node. by rewrite namei_cons.
Qed.

Lemma parent_name (t : PurePath) :
  parts t <> [] -> parts (parent t) ++ [name t] = parts t.
Proof.
  intros Hne. unfold parent, name. cbn [parts].
  symmetry. by apply app_removelast_last.
Qed.

Lemma dl_view_cases (getcwd : list string) (cfg : config) (fs : node) (relpath : string) :
  match safe_resolve getcwd fs (ROOT cfg) relpath with
  | Raise e => dl_view getcwd cfg fs relpath = Raise e
  | Ret target =>
      match stat_node fs (parts target), parts target with
      | Some (File mtime data), _ :: _ =>
          dl_view getcwd cfg fs relpath
          = Ret (mkResponse 200 None (Some (name target)) None (FileBytes data))
      | _, _ => dl_view getcwd cfg fs relpath = abort 404
      end
  end.
Proof.
  unfold dl_view. destruct (safe_resolve getcwd fs (ROOT cfg) relpath) as [target|e]; [|done].
  simpl. unfold exists_, is_file.
  destruct (stat_node fs (parts target)) as [[mtime data|mtime es|t]|] eqn:Hstat;
    try done; try by destruct (parts target).
  simpl. unfold send_from_directory.
  destruct (parts target) as [|x ps] eqn:Hparts.
  - unfold stat_node in Hstat. rewrite namei_nil in Hstat.
    simpl in Hstat. injection Hstat as ->.
    unfold parent, name. rewrite Hparts. by simpl.
  - rewrite (parent_name target) by by rewrite Hparts.
    unfold read_bytes. by rewrite Hparts, Hstat.
Qed.

Lemma requires_auth_cases (cfg : config) (req : request) (func : result response) :
  requires_auth cfg req func = func \/ requires_auth cfg req func = Ret challenge.
Proof.
  unfold requires_auth. destruct (AUTH cfg) as [cred|]; [|by left].
  destruct (check_auth_header_returns (Some cred) (authorization req)) as [[|] ->];
    [by left|by right].
Qed.

(** What the resolver raises: [ValueError] for a NUL character,
    [RuntimeError] for a loop of links, and the 404 of a path outside the
    root. *)
Lemma resolve_raises (fs : node) (getcwd : list string) (p : PurePath) (e : exn) :
  resolve fs getcwd p = Raise e -> e = ValueError \/ e = RuntimeError.
Proof.
  unfold resolve. destruct (existsb has_nul (parts p)); [intros [= <-]; by left|].
  destruct (joinrealpath _ _ _ _ _) as [[path [|]] seen]; [done|].
  intros [= <-]. by right.
Qed.

Lemma safe_resolve_raises (getcwd : list string) (fs : node) (root_dir : PurePath)
    (p : string) (e : exn) :
  safe_resolve getcwd fs root_dir p = Raise e ->
  e = ValueError \/ e = RuntimeError \/ e = HTTPException 404.
Proof.
  rewrite safe_resolve_unfold.
  destruct (resolve fs getcwd (joinpath root_dir p)) as [t|e'] eqn:Hres.
  - destruct (relative_to t root_dir); [done|]. intros [= <-]. by right; right.
  - intros [= <-]. destruct (resolve_raises _ _ _ _ Hres) as [-> | ->]; [by left|by right; left].
Qed.

Lemma relative_to_Ret_inside (t root_dir rel : PurePath) :
  relative_to t root_dir = Ret rel -> is_inside root_dir t.
Proof.
  unfold relative_to.
  destruct (bool_decide (root t = root root_dir)) eqn:Hr; [|done].
  destruct (is_prefix (parts root_dir) (parts t)) eqn:Hp; [|done].
  intros _. split; [|by apply is_prefix_spec].
  by apply (bool_decide_eq_true_1 (root t = root root_dir)).
Qed.

(** What the resolver returns is absolute and inside the root. *)
Lemma safe_resolve_inside (getcwd : list string) (fs : node) (root_dir : PurePath)
    (p : string) (t : PurePath) :
  safe_resolve getcwd fs root_dir p = Ret t ->
  resolve fs getcwd (joinpath root_dir p) = Ret t /\ root t = "/" /\ is_inside root_dir t.
Proof.
  rewrite safe_resolve_unfold.
  destruct (resolve fs getcwd (joinpath root_dir p)) as [t'|e] eqn:Ht; [|done].
  destruct (relative_to t' root_dir) as [rel|e] eqn:Hrel; [|done].
  intros [= <-]. split; [done|]. split; [by apply (resolve_root _ _ _ _ Ht)|].
  by apply (relative_to_Ret_inside t' root_dir rel).
Qed.

(** X1: a download that is answered with 200 carries the bytes of a regular
    file whose resolved path is the root or below it, as an attachment
    under the name of that path; and when the gate lets the request
    through, a path that resolves to a regular file inside the root (a
    path with a name, so not ["/"] itself) is answered that way, while
    one that resolves to a directory or to nothing is answered 404. *)
Theorem dl_serves_files_inside_root (format_mtime : Z -> string) (getcwd : list string)
    (cfg : config) (fs : node) (header : option string) (relpath : string) :
  let resp := app format_mtime getcwd cfg fs (mkRequest (dl_route relpath) header) in
  (status resp = 200 ->
   exists target mtime data,
     safe_resolve getcwd fs (ROOT cfg) relpath = Ret target
     /\ is_inside (ROOT cfg) target
     /\ stat_node fs (parts target) = Some (File mtime data)
     /\ resp = mkResponse 200 None (Some (name target)) None (FileBytes data))
  /\ (AUTH cfg = None \/ (exists cred, AUTH cfg = Some cred /\ carries_credential cred header) ->
      forall target, safe_resolve getcwd fs (ROOT cfg) relpath = Ret target ->
      (forall mtime data, stat_node fs (parts target) = Some (File mtime data) ->
         parts target <> [] ->
         resp = mkResponse 200 None (Some (name target)) None (FileBytes data))
      /\ ((forall mtime data, stat_node fs (parts target) <> Some (File mtime data)) ->
          resp = not_found)).
Proof.
  cbv zeta. pose proof (dl_view_cases getcwd cfg fs relpath) as Hview. split.
  - unfold app, dl. cbn [url].
    destruct (requires_auth_cases cfg (mkRequest (dl_route relpath) header)
                (dl_view getcwd cfg fs relpath)) as [-> | ->]; [|done].
    destruct (safe_resolve getcwd fs (ROOT cfg) relpath) as [target|e] eqn:Hres.
    + destruct (stat_node fs (parts target)) as [[mtime data|mtime es|t]|] eqn:Hstat;
        try (rewrite Hview; by destruct (parts target)).
      destruct (parts target) as [|x ps] eqn:Hparts; [by rewrite Hview|].
      rewrite Hview. intros _. exists target, mtime, data.
      split; [done|]. split; [|by rewrite Hparts, Hstat].
      by destruct (safe_resolve_inside _ _ _ _ _ Hres) as (_ & _ & Hin).
    + rewrite Hview. by destruct (safe_resolve_raises _ _ _ _ _ Hres) as [-> | [-> | ->]].
  - intros Hgate target Hres.
    assert (Happ : app format_mtime getcwd cfg fs (mkRequest (dl_route relpath) header)
                   = handle_exception (dl_view getcwd cfg fs relpath)).
    { unfold app, dl. cbn [url]. f_equal.
      destruct Hgate as [Hopen|(cred & Hcred & Hcarries)].
      - by apply requires_auth_open.
      - by apply (requires_auth_guarded _ _ _ cred). }
    rewrite Happ. rewrite Hres in Hview. split.
    + intros mtime data Hstat Hne. rewrite Hstat in Hview.
      destruct (parts target); [done|]. by rewrite Hview.
    + intros Hnot. destruct (stat_node fs (parts target)) as [[mtime data|mtime es|t]|] eqn:Hstat;
        try (rewrite Hview; by destruct (parts target)); try by rewrite Hview.
      by destruct (Hnot mtime data).
Qed.

Lemma dl_serves_files_inside_root_witness :
  exists target mtime data,
    safe_resolve [] example_tree (ROOT open_config) "sub/b.txt" = Ret target
    /\ is_inside (ROOT open_config) target
    /\ stat_node example_tree (parts target) = Some (File mtime data)
    /\ app example_format [] open_config example_tree (mkRequest (dl_route "sub/b.txt") None)
       = mkResponse 200 None (Some (name target)) None (FileBytes data).
Proof.
  apply (proj1 (dl_serves_files_inside_root example_format [] open_config example_tree None
                  "sub/b.txt")).
  vm_compute. reflexivity.
Defined.

(** ** [pathlib]: a path and the text it prints as *)

Lemma str_split_slash_cons (x s : string) :
  no_slash x = true -> str_split_slash (x +:+ "/" +:+ s) = x :: str_split_slash s.
Proof.
  induction x as [|c x IH]; intros Hx.
  - reflexivity.
  - unfold no_slash in Hx. simpl in Hx. apply andb_true_iff in Hx as [Hc Hx].
    apply negb_true_iff in Hc.
    change (str_split_slash (String c (x +:+ "/" +:+ s)) = String c x :: str_split_slash s).
    cbn [str_split_slash]. rewrite Hc. by rewrite (IH Hx).
Qed.

Lemma str_split_slash_join (ps : list string) :
  ps <> [] -> Forall (fun x => no_slash x = true) ps ->
  str_split_slash (str_join "/" ps) = ps.
Proof.
  induction ps as [|x ps IH]; [done|]. intros _ Hall.
  apply Forall_cons in Hall as [Hx Hall].
  destruct ps as [|y ps].
  - by apply str_split_slash_plain.
  - change (str_split_slash (x +:+ "/" +:+ str_join "/" (y :: ps)) = x :: y :: ps).
    rewrite (str_split_slash_cons _ _ Hx). by rewrite IH.
Qed.

Lemma str_split_slash_no_slash (s : string) :
  Forall (fun x => no_slash x = true) (str_split_slash s).
Proof.
  induction s as [|c s IH]; [by repeat constructor|].
  cbn [str_split_slash]. case_bool_decide as Hc.
  - by constructor.
  - destruct (str_split_slash s) as [|w ws]; [by repeat constructor; unfold no_slash; simpl; rewrite bool_decide_eq_false_2|].
    apply Forall_cons in IH as [Hw Hws]. constructor; [|done].
    unfold no_slash. simpl. by rewrite bool_decide_eq_false_2.
Qed.

Lemma splitroot_cases (s : string) :
  let '(r, rel) := splitroot s in
  (r = EmptyString \/ r = "/" \/ r = "//").
Proof.
  unfold splitroot. destruct s as [|c s]; [by left|].
  destruct c as [[] [] [] [] [] [] [] []]; try by left.
  destruct (_ =? _)%nat; [by right; right|by right; left].
Qed.

Lemma Path_normal (s : string) : normal_path (Path s).
Proof.
  unfold Path. pose proof (splitroot_cases s) as Hr.
  destruct (splitroot s) as [r rel]. split; [done|]. cbn [parts].
  pose proof (str_split_slash_no_slash rel) as Hall.
  induction Hall as [|x l Hx Hl IH]; [constructor|].
  cbn [List.filter]. destruct (is_component x) eqn:Hc; [|done]. by constructor.
Qed.

Lemma plain_name_no_slash (x : string) : plain_name x = true -> no_slash x = true.
Proof. unfold plain_name. rewrite !andb_true_iff. by intros [_ H]. Qed.

Lemma joinpath_child (p : PurePath) (child : string) :
  plain_name child = true ->
  joinpath p child = mkPath (root p) (parts p ++ [child]).
Proof. intros Hc. unfold joinpath. by rewrite (Path_plain child Hc). Qed.

Lemma normal_path_child (p : PurePath) (child : string) :
  normal_path p -> plain_name child = true ->
  normal_path (mkPath (root p) (parts p ++ [child])).
Proof.
  intros [Hr Hps] Hc. split; [done|]. cbn [parts]. apply Forall_app. split; [done|].
  repeat constructor; [by apply plain_name_component|by apply plain_name_no_slash].
Qed.

Lemma filter_components (ps : list string) :
  Forall (fun x => is_component x = true /\ no_slash x = true) ps ->
  List.filter is_component ps = ps.
Proof.
  induction 1 as [|x ps [Hx _] _ IH]; [done|]. cbn [List.filter]. by rewrite Hx, IH.
Qed.

Lemma str_join_head (x : string) (ps : list string) :
  x <> EmptyString ->
  exists c s, str_join "/" (x :: ps) = String c s /\ String.get 0 x = Some c.
Proof.
  intros Hx. destruct x as [|c x]; [done|]. destruct ps as [|y ps].
  - by exists c, x.
  - exists c, (x +:+ "/" +:+ str_join "/" (y :: ps)). by split.
Qed.

Lemma no_slash_head (c : ascii) (x : string) : no_slash (String c x) = true -> c <> "/"%char.
Proof.
  unfold no_slash. simpl. rewrite andb_true_iff, negb_true_iff.
  intros [Hc _]. by apply bool_decide_eq_false_1 in Hc.
Qed.

(** Parsing the text of a path gives the path back. *)
Lemma Path_as_posix (p : PurePath) : normal_path p -> Path (as_posix p) = p.
Proof.
  destruct p as [r ps]. intros [Hr Hps]. cbn [root parts] in *.
  destruct ps as [|x ps].
  - by destruct Hr as [-> | [-> | ->]].
  - pose proof Hps as Hps'. apply Forall_cons in Hps' as [[Hx Hxs] _].
    assert (Hne : x <> EmptyString) by (by intros ->).
    destruct (str_join_head x ps Hne) as (c & s & Hjoin & Hget).
    assert (Hc : c <> "/"%char).
    { destruct x as [|c' x]; [done|]. injection Hget as <-. by apply (no_slash_head c' x). }
    assert (Hsplit : List.filter is_component (str_split_slash (str_join "/" (x :: ps)))
                     = x :: ps).
    { rewrite str_split_slash_join; [by apply filter_components|done|].
      eapply Forall_impl; [exact Hps|]. by intros y [_ Hy]. }
    assert (Hstrip : lstrip_slash (String c s) = String c s).
    { simpl. by rewrite bool_decide_eq_false_2. }
    destruct Hr as [-> | [-> | ->]].
    + change (as_posix (mkPath EmptyString (x :: ps))) with (str_join "/" (x :: ps)).
      unfold Path. rewrite Hjoin at 1. rewrite (splitroot_relative c s Hc).
      rewrite <- Hjoin. by rewrite Hsplit.
    + change (as_posix (mkPath "/" (x :: ps))) with (String "/" (str_join "/" (x :: ps))).
      unfold Path, splitroot. rewrite Hjoin.
      change (lstrip_slash (String "/" (String c s))) with (lstrip_slash (String c s)).
      rewrite Hstrip. cbn [String.length].
      replace (S (S (String.length s)) - S (String.length s))%nat with 1%nat by lia.
      cbn [Nat.eqb]. rewrite <- Hjoin. by rewrite Hsplit.
    + change (as_posix (mkPath "//" (x :: ps)))
        with (String "/" (String "/" (str_join "/" (x :: ps)))).
      unfold Path, splitroot. rewrite Hjoin.
      change (lstrip_slash (String "/" (String "/" (String c s))))
        with (lstrip_slash (String c s)).
      rewrite Hstrip. cbn [String.length].
      replace (S (S (S (String.length s))) - S (String.length s))%nat with 2%nat by lia.
      cbn [Nat.eqb]. rewrite <- Hjoin. by rewrite Hsplit.
Qed.

(** ** A listing and the path it reports *)

Lemma joinpath_Path (a : PurePath) (s s' : string) :
  Path s = Path s' -> joinpath a s = joinpath a s'.
Proof. intros H. unfold joinpath. by rewrite H. Qed.

Lemma safe_resolve_Path (getcwd : list string) (fs : node) (root_dir : PurePath) (s s' : string) :
  Path s = Path s' -> safe_resolve getcwd fs root_dir s = safe_resolve getcwd fs root_dir s'.
Proof. intros H. unfold safe_resolve. by rewrite (joinpath_Path root_dir s s' H). Qed.

Lemma list_dir_loop_Path (format_mtime : Z -> string) (fs : node) (s s' : string)
    (p : PurePath) (children : list string) (dirs0 : list dir_entry)
    (files0 : list file_entry) :
  Path s = Path s' ->
  list_dir_loop format_mtime fs s p children dirs0 files0
  = list_dir_loop format_mtime fs s' p children dirs0 files0.
Proof.
  intros H. revert dirs0 files0.
  induction children as [|child children IH]; intros dirs0 files0; [done|].
  cbn [list_dir_loop]. rewrite H.
  destruct (is_dir fs (parts p ++ [child])).
  - destruct (os_stat fs (parts p ++ [child])); [|done]. simpl. apply IH.
  - destruct (is_file fs (parts p ++ [child])); [|apply IH].
    destruct (os_stat fs (parts p ++ [child])); [|done]. simpl.
    destruct (human_size _); [|done]. simpl. apply IH.
Qed.

Lemma list_dir_Path (format_mtime : Z -> string) (getcwd : list string) (fs : node)
    (root_dir : PurePath) (s s' : string) :
  Path s = Path s' ->
  list_dir format_mtime getcwd fs root_dir s = list_dir format_mtime getcwd fs root_dir s'.
Proof.
  intros H. unfold list_dir. rewrite (safe_resolve_Path getcwd fs root_dir s s' H).
  destruct (safe_resolve getcwd fs root_dir s') as [p|e]; [|done]. simpl.
  destruct (negb (exists_ fs (parts p)) || negb (is_dir fs (parts p))); [done|].
  rewrite (list_dir_loop_Path format_mtime fs s s' p _ [] [] H). by rewrite H.
Qed.

Lemma list_dir_cwd (format_mtime : Z -> string) (getcwd : list string) (fs : node)
    (root_dir : PurePath) (rel_path : string) (l : listing) :
  list_dir format_mtime getcwd fs root_dir rel_path = Ret l ->
  cwd l = as_posix (Path rel_path).
Proof.
  unfold list_dir. destruct (safe_resolve getcwd fs root_dir rel_path) as [p|e]; [|done].
  simpl. destruct (negb (exists_ fs (parts p)) || negb (is_dir fs (parts p))); [done|].
  destruct (list_dir_loop _ _ _ _ _ _ _) as [[ds fs']|e]; [|done]. simpl. by intros [= <-].
Qed.

(** X2: the listing of a path and the listing of the path it reports as its
    [cwd] are the same: asking again with the reported path (as the page
    does when it is refreshed) changes nothing, whatever the spelling of
    the first path was.  More generally the answer depends on the
    requested text only through the path it denotes. *)
Theorem listing_cwd_round_trip (format_mtime : Z -> string) (getcwd : list string)
    (cfg : config) (fs : node) (path : option string) :
  (forall l, api_ls_view format_mtime getcwd cfg fs path = Ret (ok (JsonListing l)) ->
     api_ls_view format_mtime getcwd cfg fs (Some (cwd l)) = Ret (ok (JsonListing l)))
  /\ (forall s s', Path s = Path s' ->
        list_dir format_mtime getcwd fs (ROOT cfg) s
        = list_dir format_mtime getcwd fs (ROOT cfg) s')
  /\ api_ls_view format_mtime getcwd cfg fs None
     = api_ls_view format_mtime getcwd cfg fs (Some EmptyString).
Proof.
  split; [|split; [apply list_dir_Path|]].
  - intros l. unfold api_ls_view.
    set (rel := if bool_decide (default "." path = ".") then EmptyString else default "." path).
    destruct (list_dir format_mtime getcwd fs (ROOT cfg) rel) as [l'|e] eqn:Hl; [|done].
    simpl. intros [= ->]. pose proof (list_dir_cwd _ _ _ _ _ _ Hl) as Hcwd.
    cbn [default].
    assert (HP : Path (cwd l) = Path rel).
    { rewrite Hcwd. apply Path_as_posix, Path_normal. }
    rewrite (list_dir_Path format_mtime getcwd fs (ROOT cfg)
               (if bool_decide (cwd l = ".") then EmptyString else cwd l) rel).
    + by rewrite Hl.
    + case_bool_decide as Hdot; [|done]. rewrite <- HP, Hdot. reflexivity.
  - unfold api_ls_view. cbn [default].
    rewrite bool_decide_eq_true_2 by done.
    by rewrite (list_dir_Path format_mtime getcwd fs (ROOT cfg)
                  (if bool_decide (EmptyString = ".") then EmptyString else EmptyString)
                  EmptyString) by by case_bool_decide.
Qed.

Lemma listing_cwd_round_trip_witness :
  api_ls_view example_format [] open_config example_tree (Some "./sub/../sub//")
  = Ret (ok (JsonListing (mkListing [] [mkFileEntry "b.txt" "sub/../sub/b.txt" "3.0B" "20"]
                            "sub/../sub")))
  /\ api_ls_view example_format [] open_config example_tree (Some "sub/../sub")
     = Ret (ok (JsonListing (mkListing [] [mkFileEntry "b.txt" "sub/../sub/b.txt" "3.0B" "20"]
                               "sub/../sub"))).
Proof.
  split; [vm_compute; reflexivity|].
  apply (proj1 (listing_cwd_round_trip example_format [] open_config example_tree
                  (Some "./sub/../sub//"))
           (mkListing [] [mkFileEntry "b.txt" "sub/../sub/b.txt" "3.0B" "20"] "sub/../sub")).
  vm_compute. reflexivity.
Defined.

(** ** Resolving one more name *)

Lemma joinrealpath_app (budget : nat) (fs : node) (r1 r2 : list string) :
  forall (path : list string) (seen : seen_dict),
    joinrealpath budget fs path (r1 ++ r2) seen =
    let '(path', ok, seen') := joinrealpath budget fs path r1 seen in
    if ok then joinrealpath budget fs path' r2 seen' else (path' ++ r2, false, seen').
Proof.
  induction r1 as [|x r1 IH]; intros path seen.
  - by rewrite joinrealpath_nil.
  - change ((x :: r1) ++ r2) with (x :: (r1 ++ r2)). rewrite !joinrealpath_cons.
    destruct (negb (is_component x)); [apply IH|].
    case_bool_decide; [apply IH|].
    destruct (lookup_node fs (path ++ [x])) as [[| |target]|]; try apply IH.
    destruct (seen_get (path ++ [x]) seen) as [[cached|]|].
    + apply IH.
    + by rewrite <- !app_assoc.
    + destruct budget as [|budget']; [by rewrite <- !app_assoc|].
      destruct (joinrealpath budget' fs _ _ _) as [[path' [|]] seen'].
      * apply IH.
      * by rewrite <- !app_assoc.
Qed.

Lemma joinrealpath_name (budget : nat) (fs : node) (path : list string) (x : string)
    (seen : seen_dict) :
  is_component x = true -> x <> ".." ->
  (forall target, lookup_node fs (path ++ [x]) <> Some (Symlink target)) ->
  joinrealpath budget fs path [x] seen = (path ++ [x], true, seen).
Proof.
  intros Hc Hdd Hlink. rewrite joinrealpath_cons, Hc. cbn [negb].
  rewrite bool_decide_eq_false_2 by done.
  destruct (lookup_node fs (path ++ [x])) as [[| |target]|] eqn:Hl;
    try by rewrite joinrealpath_nil.
  by destruct (Hlink target).
Qed.

Lemma resolve_child (fs : node) (getcwd : list string) (j p : PurePath) (child : string) :
  resolve fs getcwd j = Ret p ->
  is_component child = true -> child <> ".." -> has_nul child = false ->
  (forall target, lookup_node fs (parts p ++ [child]) <> Some (Symlink target)) ->
  resolve fs getcwd (mkPath (root j) (parts j ++ [child]))
  = Ret (mkPath "/" (parts p ++ [child])).
Proof.
  unfold resolve. cbn [root parts]. intros Hres Hc Hdd Hnul Hlink.
  rewrite existsb_app. cbn [existsb]. rewrite Hnul, !orb_false_r.
  destruct (existsb has_nul (parts j)); [done|].
  rewrite joinrealpath_app.
  destruct (joinrealpath _ fs _ (parts j) []) as [[path [|]] seen]; [|done].
  injection Hres as <-. cbn [parts] in Hlink.
  by rewrite (joinrealpath_name _ fs path child seen Hc Hdd Hlink).
Qed.

Lemma joinpath_as_posix_child (root_dir : PurePath) (rel_path child : string) :
  plain_name child = true ->
  joinpath root_dir (as_posix (joinpath (Path rel_path) child))
  = mkPath (root (joinpath root_dir rel_path)) (parts (joinpath root_dir rel_path) ++ [child]).
Proof.
  intros Hc. rewrite (joinpath_child (Path rel_path) child Hc).
  unfold joinpath at 1.
  rewrite (Path_as_posix _ (normal_path_child _ child (Path_normal rel_path) Hc)).
  cbn [root parts]. unfold joinpath.
  case_bool_decide; cbn [root parts]; [|done]. by rewrite app_assoc.
Qed.

Lemma is_inside_child (root_dir p : PurePath) (child : string) :
  is_inside root_dir p -> is_inside root_dir (mkPath (root p) (parts p ++ [child])).
Proof.
  intros [Hr [rest Hrest]]. split; [done|]. exists (rest ++ [child]).
  cbn [parts]. by rewrite Hrest, app_assoc.
Qed.

(** The path a listing gives for a child that is no symbolic link
    resolves to that child. *)
Lemma safe_resolve_child (getcwd : list string) (fs : node) (root_dir p : PurePath)
    (rel_path child : string) :
  safe_resolve getcwd fs root_dir rel_path = Ret p ->
  plain_name child = true -> has_nul child = false ->
  (forall target, lookup_node fs (parts p ++ [child]) <> Some (Symlink target)) ->
  safe_resolve getcwd fs root_dir (as_posix (joinpath (Path rel_path) child))
  = Ret (mkPath "/" (parts p ++ [child])).
Proof.
  intros Hp Hplain Hnul Hlink.
  destruct (plain_name_component child Hplain) as [Hc Hdd].
  destruct (safe_resolve_inside _ _ _ _ _ Hp) as (Hres & _ & Hin).
  rewrite safe_resolve_unfold, (joinpath_as_posix_child root_dir rel_path child Hplain).
  rewrite (resolve_child fs getcwd _ p child Hres Hc Hdd Hnul Hlink).
  pose proof (resolve_root _ _ _ _ Hres) as Hroot.
  pose proof (is_inside_child root_dir p child Hin) as Hin'. rewrite Hroot in Hin'.
  by destruct (proj1 (relative_to_inside _ root_dir) Hin') as [rel' ->].
Qed.

(** ** From a listing to its entries *)

Lemma list_dir_loop_inv (format_mtime : Z -> string) (fs : node) (rel_path : string)
    (p : PurePath) (children : list string) :
  forall (dirs0 : list dir_entry) (files0 : list file_entry) ds fs',
    list_dir_loop format_mtime fs rel_path p children dirs0 files0 = Ret (ds, fs') ->
    exists ds1 fs1,
      ds = dirs0 ++ ds1 /\ fs' = files0 ++ fs1
      /\ Forall2 (dir_entry_of format_mtime fs rel_path p)
           (List.filter (fun c => is_dir fs (parts p ++ [c])) children) ds1
      /\ Forall2 (file_entry_of format_mtime fs rel_path p)
           (List.filter (fun c => negb (is_dir fs (parts p ++ [c]))
                                  && is_file fs (parts p ++ [c])) children) fs1.
Proof.
  induction children as [|child children IH]; intros dirs0 files0 ds fs'.
  - simpl. intros [= <- <-]. exists [], []. rewrite !app_nil_r. by repeat split; constructor.
  - cbn [list_dir_loop List.filter].
    destruct (is_dir fs (parts p ++ [child])) eqn:Hdir; cbn [negb andb].
    + destruct (os_stat fs (parts p ++ [child])) as [st|e] eqn:Hst; [|done]. simpl.
      intros Hloop. destruct (IH _ _ _ _ Hloop) as (ds1 & fs1 & -> & -> & Hds & Hfs).
      eexists (_ :: ds1), fs1. rewrite <- app_assoc. split; [done|]. split; [done|].
      split; [|done]. constructor; [|done]. repeat split. eauto.
    + destruct (is_file fs (parts p ++ [child])) eqn:Hfile; [|apply IH].
      destruct (os_stat fs (parts p ++ [child])) as [st|e] eqn:Hst; [|done]. simpl.
      destruct (human_size (st_size st)) as [s|e] eqn:Hs; [|done]. simpl.
      intros Hloop. destruct (IH _ _ _ _ Hloop) as (ds1 & fs1 & -> & -> & Hds & Hfs).
      eexists ds1, (_ :: fs1). rewrite <- app_assoc. split; [done|]. split; [done|].
      split; [done|]. constructor; [|done]. repeat split. eauto.
Qed.

Lemma list_dir_inv (format_mtime : Z -> string) (getcwd : list string) (fs : node)
    (root_dir : PurePath) (rel_path : string) (l : listing) :
  list_dir format_mtime getcwd fs root_dir rel_path = Ret l ->
  exists p mtime entries,
    safe_resolve getcwd fs root_dir rel_path = Ret p
    /\ stat_node fs (parts p) = Some (Dir mtime entries)
    /\ Forall2 (dir_entry_of format_mtime fs rel_path p)
         (List.filter (fun c => is_dir fs (parts p ++ [c])) (sorted_names (map fst entries)))
         (dirs l)
    /\ Forall2 (file_entry_of format_mtime fs rel_path p)
         (List.filter (fun c => negb (is_dir fs (parts p ++ [c]))
                                && is_file fs (parts p ++ [c]))
            (sorted_names (map fst entries)))
         (files l).
Proof.
  unfold list_dir. destruct (safe_resolve getcwd fs root_dir rel_path) as [p|e]; [|done].
  simpl. unfold exists_, is_dir at 1, listdir.
  destruct (stat_node fs (parts p)) as [[| mtime entries |]|] eqn:Hstat; try done. simpl.
  destruct (list_dir_loop _ _ _ _ _ _ _) as [[ds fs']|e] eqn:Hloop; [|done]. simpl.
  intros [= <-]. destruct (list_dir_loop_inv _ _ _ _ _ _ _ _ _ Hloop)
    as (ds1 & fs1 & -> & -> & Hds & Hfs).
  exists p, mtime, entries. by repeat split.
Qed.

Lemma entry_lookup_nul_free (x : string) (entries : list (string * node)) (n : node) (mtime : Z) :
  names_nul_free (Dir mtime entries) = true -> entry_lookup x entries = Some n ->
  has_nul x = false /\ names_nul_free n = true.
Proof.
  induction entries as [|[y ch] entries IH]; [done|]. cbn [names_nul_free entry_lookup].
  rewrite !andb_true_iff, negb_true_iff. intros [[Hy Hch] Hall].
  case_bool_decide as Hxy; [intros [= <-]; by subst|]. by apply IH.
Qed.

Lemma lookup_node_nul_free (fs : node) (p : list string) (n : node) :
  names_nul_free fs = true -> lookup_node fs p = Some n ->
  existsb has_nul p = false /\ names_nul_free n = true.
Proof.
  revert fs. induction p as [|x p IH]; intros fs Hfs; simpl.
  - by intros [= <-].
  - destruct fs as [| mtime entries |]; try done.
    destruct (entry_lookup x entries) as [ch|] eqn:Hx; [|done]. intros Hp.
    destruct (entry_lookup_nul_free x entries ch mtime Hfs Hx) as [Hnul Hch].
    destruct (IH ch Hch Hp) as [Hrest Hn]. by rewrite Hnul, Hrest.
Qed.

Lemma names_nul_free_dir (mtime : Z) (entries : list (string * node)) (x : string) :
  names_nul_free (Dir mtime entries) = true -> In x (map fst entries) -> has_nul x = false.
Proof.
  induction entries as [|[y ch] entries IH]; [done|]. cbn [names_nul_free map fst In].
  rewrite !andb_true_iff, negb_true_iff. intros [[Hy Hch] Hall] [<-|Hin]; [done|].
  by apply IH.
Qed.

(** The names a directory found by [stat] lists are plain and without
    NUL when those of the tree are. *)
Lemma stat_node_names (fs : node) (p : list string) (mtime : Z)
    (entries : list (string * node)) (x : string) :
  names_plain fs = true -> names_nul_free fs = true ->
  stat_node fs p = Some (Dir mtime entries) -> In x (sorted_names (map fst entries)) ->
  plain_name x = true /\ has_nul x = false.
Proof.
  intros Hplain Hnul. unfold stat_node. destruct (namei _ _ _ _) as [q|]; [|done].
  intros Hq Hx.
  assert (Hin : In x (map fst entries)).
  { apply list_elem_of_In. apply list_elem_of_In in Hx.
    unfold sorted_names in Hx. by rewrite merge_sort_Permutation in Hx. }
  destruct (lookup_node_plain fs q _ Hplain Hq) as [_ Hdir].
  destruct (lookup_node_nul_free fs q _ Hnul Hq) as [_ Hdir'].
  destruct (names_plain_dir _ _ Hdir) as (Hall & _ & _). split.
  - rewrite Forall_forall in Hall. by apply Hall, list_elem_of_In.
  - by apply (names_nul_free_dir mtime entries).
Qed.

Lemma Forall2_In_r {A B : Type} (P : A -> B -> Prop) (l : list A) (k : list B) (b : B) :
  Forall2 P l k -> In b k -> exists a, In a l /\ P a b.
Proof.
  induction 1 as [|a' b' l k Hab _ IH]; [done|]. intros [<-|Hin].
  - exists a'. split; [by left|done].
  - destruct (IH Hin) as (a & Ha & Hp). exists a. split; [by right|done].
Qed.

(** X3: every file a listing shows can be downloaded under the path the
    listing gives for it.  In a tree whose names are plain and hold no
    NUL, when the entry is no symbolic link, that path resolves to the
    entry, and the download is the file's bytes, as an attachment under
    the listed name; the listed size is that of those bytes. *)
Theorem listed_files_download (format_mtime : Z -> string) (getcwd : list string)
    (cfg : config) (fs : node) (rel_path : string) (p : PurePath) (l : listing)
    (e : file_entry) :
  names_plain fs = true -> names_nul_free fs = true ->
  safe_resolve getcwd fs (ROOT cfg) rel_path = Ret p ->
  list_dir format_mtime getcwd fs (ROOT cfg) rel_path = Ret l ->
  In e (files l) ->
  (forall target, lookup_node fs (parts p ++ [file_name e]) <> Some (Symlink target)) ->
  exists mtime data,
    stat_node fs (parts p ++ [file_name e]) = Some (File mtime data)
    /\ safe_resolve getcwd fs (ROOT cfg) (file_relpath e)
       = Ret (mkPath "/" (parts p ++ [file_name e]))
    /\ dl_view getcwd cfg fs (file_relpath e)
       = Ret (mkResponse 200 None (Some (file_name e)) None (FileBytes data))
    /\ human_size (Z.of_nat (length data)) = Ret (file_size e).
Proof.
  intros Hplain Hnul Hp Hl He Hlink.
  destruct (list_dir_inv _ _ _ _ _ _ Hl) as (p' & mtime & entries & Hp' & Hstat & _ & Hfiles).
  rewrite Hp in Hp'. injection Hp' as <-.
  destruct (Forall2_In_r _ _ _ e Hfiles He) as (child & Hchild & Hname & Hrel & st & Hst & Hsize & _).
  apply filter_In in Hchild as [Hchild Hfile]. apply andb_true_iff in Hfile as [_ Hfile].
  destruct (stat_node_names fs (parts p) mtime entries child Hplain Hnul Hstat Hchild)
    as [Hc Hn].
  rewrite Hname in *. clear Hname.
  unfold is_file in Hfile. unfold os_stat in Hst.
  destruct (stat_node fs (parts p ++ [child])) as [[mtime' data| |]|] eqn:Hch; try done.
  injection Hst as <-. cbn [st_size] in Hsize.
  pose proof (safe_resolve_child getcwd fs (ROOT cfg) p rel_path child Hp Hc Hn Hlink) as Hres.
  rewrite <- Hrel in Hres.
  exists mtime', data. split; [done|]. split; [done|]. split; [|done].
  pose proof (dl_view_cases getcwd cfg fs (file_relpath e)) as Hview.
  rewrite Hres in Hview. cbn [parts] in Hview. rewrite Hch in Hview.
  destruct (parts p ++ [child]) as [|x ps] eqn:Happ; [by destruct (parts p)|].
  rewrite Hview. unfold name. cbn [parts]. rewrite <- Happ. by rewrite last_last.
Qed.

(** X4: every directory a listing shows can be listed under the path the
    listing gives for it.  In a tree whose names are plain and hold no
    NUL and whose files are smaller than 2^63 bytes, when the entry is no
    symbolic link, that path resolves to the entry, which is a directory,
    and its listing reports that very path as its [cwd]. *)
Theorem listed_dirs_list (format_mtime : Z -> string) (getcwd : list string)
    (fs : node) (root_dir : PurePath) (rel_path : string) (p : PurePath) (l : listing)
    (d : dir_entry) :
  names_plain fs = true -> names_nul_free fs = true -> sizes_in_range fs = true ->
  safe_resolve getcwd fs root_dir rel_path = Ret p ->
  list_dir format_mtime getcwd fs root_dir rel_path = Ret l ->
  In d (dirs l) ->
  (forall target, lookup_node fs (parts p ++ [dir_name d]) <> Some (Symlink target)) ->
  safe_resolve getcwd fs root_dir (dir_relpath d) = Ret (mkPath "/" (parts p ++ [dir_name d]))
  /\ is_dir fs (parts p ++ [dir_name d]) = true
  /\ exists l', list_dir format_mtime getcwd fs root_dir (dir_relpath d) = Ret l'
                /\ cwd l' = dir_relpath d.
Proof.
  intros Hplain Hnul Hsizes Hp Hl Hd Hlink.
  destruct (list_dir_inv _ _ _ _ _ _ Hl) as (p' & mtime & entries & Hp' & Hstat & Hdirs & _).
  rewrite Hp in Hp'. injection Hp' as <-.
  destruct (Forall2_In_r _ _ _ d Hdirs Hd) as (child & Hchild & Hname & Hrel & _).
  apply filter_In in Hchild as [Hchild Hdir].
  destruct (stat_node_names fs (parts p) mtime entries child Hplain Hnul Hstat Hchild)
    as [Hc Hn].
  rewrite Hname in *. clear Hname.
  pose proof (safe_resolve_child getcwd fs root_dir p rel_path child Hp Hc Hn Hlink) as Hres.
  rewrite <- Hrel in Hres. split; [done|]. split; [done|].
  unfold list_dir. rewrite Hres. simpl.
  assert (Hex : exists_ fs (parts p ++ [child]) = true).
  { unfold exists_. unfold is_dir in Hdir. by destruct (stat_node fs (parts p ++ [child])). }
  rewrite Hex, Hdir. simpl.
  destruct (list_dir_loop_spec format_mtime fs (dir_relpath d)
              (mkPath "/" (parts p ++ [child]))
              (sorted_names (listdir fs (parts p ++ [child]))) [] [] Hsizes)
    as (ds & fs' & Hloop & _). cbn [parts] in Hloop. rewrite Hloop. simpl.
  eexists. split; [done|]. cbn [cwd].
  rewrite Hrel, (joinpath_child (Path rel_path) child Hc).
  by rewrite (Path_as_posix _ (normal_path_child _ child (Path_normal rel_path) Hc)).
Qed.

Lemma listed_files_download_witness :
  exists mtime data,
    stat_node example_tree (parts example_root ++ ["a.txt"]) = Some (File mtime data)
    /\ safe_resolve [] example_tree example_root "a.txt"
       = Ret (mkPath "/" (parts example_root ++ ["a.txt"]))
    /\ dl_view [] open_config example_tree "a.txt"
       = Ret (mkResponse 200 None (Some "a.txt") None (FileBytes data))
    /\ human_size (Z.of_nat (length data)) = Ret "1.5KB".
Proof.
  apply (listed_files_download example_format [] open_config example_tree EmptyString
           example_root
           (mkListing [mkDirEntry "sub" "sub" "10"] [mkFileEntry "a.txt" "a.txt" "1.5KB" "30"] ".")
           (mkFileEntry "a.txt" "a.txt" "1.5KB" "30")).
  - vm_compute. reflexivity.
  - vm_compute. reflexivity.
  - vm_compute. reflexivity.
  - vm_compute. reflexivity.
  - simpl. by left.
  - intros target. vm_compute. discriminate.
Defined.

Lemma listed_dirs_list_witness :
  safe_resolve [] example_tree example_root "sub" = Ret (mkPath "/" (parts example_root ++ ["sub"]))
  /\ is_dir example_tree (parts example_root ++ ["sub"]) = true
  /\ exists l', list_dir example_format [] example_tree example_root "sub" = Ret l'
                /\ cwd l' = "sub".
Proof.
  apply (listed_dirs_list example_format [] example_tree example_root EmptyString
           example_root
           (mkListing [mkDirEntry "sub" "sub" "10"] [mkFileEntry "a.txt" "a.txt" "1.5KB" "30"] ".")
           (mkDirEntry "sub" "sub" "10")).
  - vm_compute. reflexivity.
  - vm_compute. reflexivity.
  - vm_compute. reflexivity.
  - vm_compute. reflexivity.
  - vm_compute. reflexivity.
  - simpl. by left.
  - intros target. vm_compute. discriminate.
Defined.

(** ** The index and the table, entry by entry *)

Lemma build_index_files_inv (format_mtime : Z -> string) (fs : node) (root_p : PurePath)
    (rel_root : string) (files : list string) :
  forall out out',
    build_index_files format_mtime fs root_p rel_root files out = Ret out' ->
    exists new, out' = out ++ new
      /\ Forall2 (index_entry_of format_mtime fs root_p rel_root) files new.
Proof.
  induction files as [|f files IH]; intros out out'.
  - simpl. intros [= <-]. exists []. by rewrite app_nil_r.
  - cbn [build_index_files].
    destruct (os_stat fs (parts (joinpath root_p f))) as [st|e] eqn:Hst; [|done]. simpl.
    destruct (human_size (st_size st)) as [s|e] eqn:Hs; [|done]. simpl.
    intros Hloop. destruct (IH _ _ Hloop) as (new & -> & Hnew).
    eexists (_ :: new). rewrite <- app_assoc. split; [done|].
    constructor; [|done]. repeat split. eauto.
Qed.

Lemma Forall2_map_eq {A B C : Type} (P : A -> B -> Prop) (f : A -> C) (g : B -> C)
    (l : list A) (k : list B) :
  (forall a b, P a b -> g b = f a) -> Forall2 P l k -> map g k = map f l.
Proof. intros H. induction 1 as [|a b l k Hab _ IH]; [done|]. simpl. by rewrite (H a b), IH. Qed.

Lemma build_index_loop_inv (format_mtime : Z -> string) (fs : node) (root_dir : PurePath)
    (walk : list (list string * list string * list string)) :
  forall out out',
    build_index_loop format_mtime fs root_dir walk out = Ret out' ->
    exists new, out' = out ++ new
      /\ map file_relpath new = walk_relpaths root_dir walk
      /\ forall e, In e new ->
           exists top ds files rel f,
             In (top, ds, files) walk /\ In f files
             /\ relative_to (mkPath "/" top) root_dir = Ret rel
             /\ index_entry_of format_mtime fs (mkPath "/" top) (as_posix rel) f e.
Proof.
  induction walk as [|[[top ds] files] walk IH]; intros out out'.
  - simpl. intros [= <-]. exists []. by rewrite app_nil_r.
  - cbn [build_index_loop].
    destruct (relative_to (mkPath "/" top) root_dir) as [rel|e] eqn:Hrel; [|done]. simpl.
    destruct (build_index_files _ _ _ _ _ _) as [out1|e] eqn:Hfiles; [|done]. simpl.
    intros Hloop. destruct (build_index_files_inv _ _ _ _ _ _ _ Hfiles) as (new1 & -> & Hnew1).
    destruct (IH _ _ Hloop) as (new2 & -> & Hrel2 & Hnew2).
    exists (new1 ++ new2). rewrite <- app_assoc. split; [done|]. split.
    + unfold walk_relpaths. cbn [flat_map fst snd]. rewrite Hrel, map_app.
      f_equal; [|exact Hrel2].
      apply (Forall2_map_eq (index_entry_of format_mtime fs (mkPath "/" top) (as_posix rel)));
        [|done]. by intros f e (_ & He & _).
    + intros e He. apply in_app_or in He as [He|He].
      * destruct (Forall2_In_r _ _ _ e Hnew1 He) as (f & Hf & Hfe).
        exists top, ds, files, rel, f. split; [by left|done].
      * destruct (Hnew2 e He) as (top' & ds' & files' & rel' & f & Hin & Hrest).
        exists top', ds', files', rel', f. split; [by right|done].
Qed.

Lemma short_name_shape (m : gmap string string) (f : string) : short_name_of f (short_name m f).
Proof.
  unfold short_name, short_name_of. case_bool_decide as Htaken; [|by left]. right.
  destruct (splitext f) as [base ext]. cbn [fst snd].
  destruct (next_free_spec (size m) m m base ext 1) as (Hle & _ & _); [done..|]. eauto.
Qed.

Lemma short_urls_files_inv (rel_root : string) (files : list string) :
  forall m : gmap string string,
    let m' := short_urls_files rel_root files m in
    (forall k r, m' !! k = Some r ->
       m !! k = Some r
       \/ exists f, In f files /\ r = walk_relpath rel_root f /\ short_name_of f k)
    /\ (forall r, In r (map (walk_relpath rel_root) files) -> exists k, m' !! k = Some r).
Proof.
  induction files as [|f files IH]; intros m; cbn zeta.
  - split; [by left|done].
  - cbn [short_urls_files]. destruct (IH (<[short_name m f := walk_relpath rel_root f]> m))
      as [Hsound Hcomplete]. cbv zeta in Hsound, Hcomplete. split.
    + intros k r Hk. destruct (Hsound k r Hk) as [Hold|(f' & Hf' & Hr & Hshape)].
      * destruct (decide (k = short_name m f)) as [->|Hne].
        -- rewrite lookup_insert_eq in Hold. injection Hold as <-.
           right. exists f. split; [by left|]. split; [done|apply short_name_shape].
        -- rewrite lookup_insert_ne in Hold by done. by left.
      * right. exists f'. split; [by right|done].
    + intros r [<-|Hr]; [|by apply Hcomplete].
      exists (short_name m f).
      destruct (short_urls_files_grows rel_root files
                  (<[short_name m f := walk_relpath rel_root f]> m)) as [Hsub _].
      eapply lookup_weaken; [|exact Hsub]. apply lookup_insert_eq.
Qed.

Lemma short_urls_loop_inv (root_dir : PurePath)
    (walk : list (list string * list string * list string)) :
  forall m m' : gmap string string,
    short_urls_loop root_dir walk m = Ret m' ->
    (forall k r, m' !! k = Some r ->
       m !! k = Some r
       \/ exists top ds files rel f,
            In (top, ds, files) walk /\ In f files
            /\ relative_to (mkPath "/" top) root_dir = Ret rel
            /\ r = walk_relpath (as_posix rel) f /\ short_name_of f k)
    /\ (forall r, In r (walk_relpaths root_dir walk) -> exists k, m' !! k = Some r).
Proof.
  induction walk as [|[[top ds] files] walk IH]; intros m m'.
  - simpl. intros [= <-]. split; [by left|done].
  - cbn [short_urls_loop].
    destruct (relative_to (mkPath "/" top) root_dir) as [rel|e] eqn:Hrel; [|done]. simpl.
    intros Hloop. destruct (IH _ _ Hloop) as [Hsound Hcomplete].
    destruct (short_urls_files_inv (as_posix rel) files m) as [Hsound1 Hcomplete1].
    cbv zeta in Hsound1, Hcomplete1. split.
    + intros k r Hk.
      destruct (Hsound k r Hk) as [Hold|(top' & ds' & files' & rel' & f & Hin & Hrest)].
      * destruct (Hsound1 k r Hold) as [Hm|(f & Hf & Hr & Hshape)]; [by left|].
        right. exists top, ds, files, rel, f. split; [by left|done].
      * right. exists top', ds', files', rel', f. split; [by right|done].
    + intros r Hr. unfold walk_relpaths in Hr. cbn [flat_map fst snd] in Hr.
      rewrite Hrel in Hr. apply in_app_or in Hr as [Hr|Hr]; [|by apply Hcomplete].
      destruct (Hcomplete1 r Hr) as [k Hk]. exists k.
      destruct (short_urls_loop_grows _ _ _ _ Hloop) as [Hsub _].
      by eapply lookup_weaken.
Qed.

Lemma walk_relpaths_length (root_dir : PurePath)
    (walk : list (list string * list string * list string)) :
  (forall entry, In entry walk -> exists rel, relative_to (mkPath "/" entry.1.1) root_dir = Ret rel) ->
  length (walk_relpaths root_dir walk) = walk_file_count walk.
Proof.
  induction walk as [|[[top ds] files] walk IH]; intros Hrel; [done|].
  unfold walk_relpaths, walk_file_count. cbn [flat_map map fst snd sum_list].
  destruct (Hrel (top, ds, files) ltac:(by left)) as [rel Hr]. cbn [fst snd] in Hr.
  rewrite Hr, length_app, length_map. f_equal. apply IH. intros entry Hin. apply Hrel. by right.
Qed.

Lemma build_index_loop_rel (format_mtime : Z -> string) (fs : node) (root_dir : PurePath)
    (walk : list (list string * list string * list string)) :
  forall out out',
    build_index_loop format_mtime fs root_dir walk out = Ret out' ->
    forall entry, In entry walk ->
      exists rel, relative_to (mkPath "/" entry.1.1) root_dir = Ret rel.
Proof.
  induction walk as [|[[top ds] files] walk IH]; intros out out'; [done|].
  cbn [build_index_loop].
  destruct (relative_to (mkPath "/" top) root_dir) as [rel|e] eqn:Hrel; [|done]. simpl.
  destruct (build_index_files _ _ _ _ _ _) as [out1|e]; [|done]. simpl.
  intros Hloop entry [<-|Hin]; [by exists rel|]. by apply (IH _ _ Hloop).
Qed.

(** X5: the table built at start-up and the index a search builds walk the
    same tree: a path is the value of some short name exactly when it is
    the path of an entry of the index, and the table has as many short
    names as the index has entries. *)
Theorem short_urls_cover_index (format_mtime : Z -> string) (fs : node)
    (root_dir : PurePath) (idx : list file_entry) (m : gmap string string) :
  build_index format_mtime fs root_dir = Ret idx ->
  build_short_urls fs root_dir = Ret m ->
  (forall r, (exists k, m !! k = Some r) <-> In r (map file_relpath idx))
  /\ size m = length idx.
Proof.
  unfold build_index, build_short_urls. intros Hidx Hm.
  destruct (build_index_loop_inv _ _ _ _ _ _ Hidx) as (new & -> & Hrel & Hnew).
  destruct (short_urls_loop_inv _ _ _ _ Hm) as [Hsound Hcomplete].
  rewrite app_nil_l in *. rewrite Hrel. split.
  - intros r. split; [|apply Hcomplete].
    intros [k Hk]. destruct (Hsound k r Hk) as [Hold|(top & ds & files & rel & f & Hin & Hf & Hr & -> & _)];
      [by rewrite lookup_empty in Hold|].
    unfold walk_relpaths. apply in_flat_map. exists (top, ds, files). split; [done|].
    cbn [fst snd]. rewrite Hr. by apply in_map.
  - destruct (short_urls_loop_grows _ _ _ _ Hm) as [_ ->]. rewrite map_size_empty.
    rewrite <- (length_map file_relpath), Hrel. cbn [Nat.add]. symmetry.
    apply walk_relpaths_length. apply (build_index_loop_rel _ _ _ _ _ _ Hidx).
Qed.

Lemma short_urls_cover_index_witness :
  (forall r, (exists k, (<["a.txt" := "a.txt"]> (<["b.txt" := "sub/b.txt"]> ∅) : gmap string string) !! k = Some r)
             <-> In r (map file_relpath [mkFileEntry "a.txt" "a.txt" "1.5KB" "30";
                                         mkFileEntry "b.txt" "sub/b.txt" "3.0B" "20"]))
  /\ size (<["a.txt" := "a.txt"]> (<["b.txt" := "sub/b.txt"]> ∅) : gmap string string)
     = length [mkFileEntry "a.txt" "a.txt" "1.5KB" "30";
               mkFileEntry "b.txt" "sub/b.txt" "3.0B" "20"].
Proof.
  apply (short_urls_cover_index example_format example_tree example_root).
  - vm_compute. reflexivity.
  - vm_compute. reflexivity.
Defined.

(** ** The files of a walk, on a tree without symbolic links *)



Lemma plain_names_normal (ps : list string) :
  Forall (fun x => plain_name x = true) ps ->
  Forall (fun x => is_component x = true /\ no_slash x = true) ps.
Proof.
  intros H. eapply Forall_impl; [exact H|]. intros x Hx.
  split; [by apply plain_name_component|]. by apply plain_name_no_slash.
Qed.

Lemma as_posix_relative (ps : list string) :
  ps <> [] -> as_posix (mkPath EmptyString ps) = str_join "/" ps.
Proof. by destruct ps. Qed.

Lemma Path_str_join (ps : list string) :
  ps <> [] -> Forall (fun x => plain_name x = true) ps ->
  Path (str_join "/" ps) = mkPath EmptyString ps.
Proof.
  intros Hne Hps. rewrite <- (as_posix_relative ps Hne). apply Path_as_posix.
  split; [by left|]. by apply plain_names_normal.
Qed.

(** The path [build_index] and the table give a file: the names from the
    root to the file, joined with slashes. *)
Lemma walk_relpath_join (rest : list string) (f : string) :
  Forall (fun x => plain_name x = true) rest -> plain_name f = true ->
  walk_relpath (as_posix (mkPath EmptyString rest)) f = str_join "/" (rest ++ [f]).
Proof.
  intros Hrest Hf. unfold walk_relpath. destruct rest as [|x rest]; [done|].
  rewrite (as_posix_relative (x :: rest)) by done.
  rewrite bool_decide_eq_false_2.
  - cbn [negb]. rewrite (Path_str_join (x :: rest)) by done.
    rewrite (joinpath_child _ f Hf). cbn [root parts].
    by rewrite as_posix_relative.
  - intros Hdot. pose proof (Path_str_join (x :: rest) ltac:(done) Hrest) as HP.
    rewrite Hdot in HP. discriminate HP.
Qed.

Lemma relative_to_below (root_dir : PurePath) (rest : list string) (rel : PurePath) :
  relative_to (mkPath "/" (parts root_dir ++ rest)) root_dir = Ret rel ->
  rel = mkPath EmptyString rest.
Proof.
  unfold relative_to. cbn [root parts]. destruct (_ && _); [|done].
  intros [= <-]. by rewrite drop_app_length.
Qed.

Lemma os_walk_ok (fs : node) (top : list string)
    (entry : list string * list string * list string) :
  names_plain fs = true -> In entry (os_walk fs top) ->
  walk_entry_ok fs entry /\ exists rest, entry.1.1 = top ++ rest.
Proof.
  intros Hnames Hin. split; [|by apply (os_walk_below fs)].
  unfold os_walk in Hin. destruct (lookup_node fs top) as [n|] eqn:Hn; [|done].
  apply (walk_node_ok fs n top Hn); [|done].
  by destruct (lookup_node_plain fs top n Hnames Hn).
Qed.









(** ** A link that leads nowhere *)

Lemma walk_node_Dir (fs : node) (top : list string) (mtime : Z) (entries : list (string * node)) :
  walk_node fs top (Dir mtime entries)
  = (top,
     map fst (List.filter (entry_is_dir fs top) entries),
     map fst (List.filter (fun e => negb (entry_is_dir fs top e)) entries))
    :: flat_map (fun e => match e.2 with
                          | Dir _ _ => walk_node fs (top ++ [e.1]) e.2
                          | _ => []
                          end) entries.
Proof.
  cbn [walk_node]. f_equal.
  induction entries as [|[x ch] entries IH]; [done|]. cbn [flat_map fst snd]. by rewrite IH.
Qed.

(** Every directory below the top of a walk, reached through directories
    only, is met by the walk, with its entries split into directories
    and the rest. *)
Lemma walk_node_complete (fs : node) (rest : list string) :
  forall (n : node) (top : list string) (mtime : Z) (entries : list (string * node)),
    lookup_node n rest = Some (Dir mtime entries) ->
    In (top ++ rest,
        map fst (List.filter (entry_is_dir fs (top ++ rest)) entries),
        map fst (List.filter (fun e => negb (entry_is_dir fs (top ++ rest) e)) entries))
       (walk_node fs top n).
Proof.
  induction rest as [|x rest IH]; intros n top mtime entries.
  - simpl. intros [= ->]. rewrite walk_node_Dir, app_nil_r. by left.
  - simpl. destruct n as [| mtime0 entries0 |]; try done.
    destruct (entry_lookup x entries0) as [ch|] eqn:Hx; [|done]. intros Hrest.
    rewrite walk_node_Dir. right. apply in_flat_map. exists (x, ch).
    split; [by apply entry_lookup_In|]. cbn [fst snd].
    assert (Hdir : exists m es, ch = Dir m es).
    { destruct rest; simpl in Hrest; [injection Hrest as ->; eauto|].
      destruct ch; try done. eauto. }
    destruct Hdir as (m & es & ->).
    replace (top ++ x :: rest) with ((top ++ [x]) ++ rest) by by rewrite <- app_assoc.
    by apply (IH (Dir m es) (top ++ [x]) mtime entries).
Qed.

Lemma os_walk_complete (fs : node) (top rest : list string) (mtime : Z)
    (entries : list (string * node)) :
  lookup_node fs (top ++ rest) = Some (Dir mtime entries) ->
  In (top ++ rest,
      map fst (List.filter (entry_is_dir fs (top ++ rest)) entries),
      map fst (List.filter (fun e => negb (entry_is_dir fs (top ++ rest) e)) entries))
     (os_walk fs top).
Proof.
  rewrite lookup_node_app. unfold os_walk.
  destruct (lookup_node fs top) as [n|]; [|done]. intros Hn. by apply (walk_node_complete fs rest n top mtime).
Qed.

Lemma os_stat_human_size (fs : node) (p : list string) (st : stat_result) :
  sizes_in_range fs = true -> os_stat fs p = Ret st ->
  exists s, human_size (st_size st) = Ret s.
Proof.
  intros Hfs. unfold os_stat.
  destruct (stat_node fs p) as [[mtime data| mtime es |]|] eqn:Hstat; try done.
  - intros [= <-]. cbn [st_size]. apply human_size_returns.
    destruct (stat_node_sizes fs p mtime data Hfs Hstat) as [Hlo Hhi]. split; [done|].
    eapply Z.lt_trans; [exact Hhi|]. by apply Z.pow_lt_mono_r.
  - intros [= <-]. cbn [st_size]. by apply human_size_returns.
Qed.

Lemma namei_error_class (depth : nat) (fs : node) :
  forall cur rest e, namei_error depth fs cur rest = Some e -> stat_failure e.
Proof.
  unfold stat_failure.
  induction depth as [|depth IHdepth]; intros cur rest; revert cur;
    induction rest as [|x rest IH]; intros cur e; cbn [namei_error]; try done.
  - destruct (lookup_node fs cur) as [[| |]|]; try (intros [= <-]; tauto).
    destruct (negb (is_component x)); [apply IH|].
    destruct (bool_decide (x = "..")); [apply IH|].
    destruct (lookup_node fs (cur ++ [x])) as [[| |]|];
      try apply IH; intros [= <-]; tauto.
  - destruct (lookup_node fs cur) as [[| |]|]; try (intros [= <-]; tauto).
    destruct (negb (is_component x)); [apply IH|].
    destruct (bool_decide (x = "..")); [apply IH|].
    destruct (lookup_node fs (cur ++ [x])) as [[| |target]|];
      try apply IH; try (intros [= <-]; tauto).
    destruct (bool_decide (target = EmptyString)); [intros [= <-]; tauto|]. cbv zeta.
    destruct (namei depth fs _ _); [apply IH|apply IHdepth].
Qed.

Lemma os_stat_raises (fs : node) (p : list string) (e : exn) :
  os_stat fs p = Raise e -> stat_failure e.
Proof.
  assert (Hclass : stat_failure (default FileNotFoundError (namei_error MAXSYMLINKS fs [] p))).
  { destruct (namei_error MAXSYMLINKS fs [] p) as [e'|] eqn:He.
    - by apply (namei_error_class _ _ _ _ _ He).
    - by left. }
  unfold os_stat. destruct (stat_node fs p) as [[| |]|]; try done; by intros [= <-].
Qed.

Lemma build_index_files_stats (format_mtime : Z -> string) (fs : node) (root_p : PurePath)
    (rel_root : string) (files : list string) :
  sizes_in_range fs = true ->
  forall out,
    (exists out', build_index_files format_mtime fs root_p rel_root files out = Ret out'
                  /\ forall f, In f files ->
                       exists st, os_stat fs (parts (joinpath root_p f)) = Ret st)
    \/ exists e, build_index_files format_mtime fs root_p rel_root files out = Raise e
                 /\ stat_failure e.
Proof.
  intros Hfs. induction files as [|f files IH]; intros out.
  - left. exists out. by split.
  - cbn [build_index_files].
    destruct (os_stat fs (parts (joinpath root_p f))) as [st|e] eqn:Hst.
    + simpl. destruct (os_stat_human_size _ _ _ Hfs Hst) as [s ->]. simpl.
      destruct (IH (out ++ [mkFileEntry f (walk_relpath rel_root f) s
                              (format_mtime (st_mtime st))])) as [(out' & Hout & Hall)| Hraise].
      * left. exists out'. split; [done|]. intros f' [<-|Hf']; [eauto|by apply Hall].
      * by right.
    + right. simpl. exists e. split; [done|]. by apply (os_stat_raises _ _ _ Hst).
Qed.

Lemma build_index_loop_stats (format_mtime : Z -> string) (fs : node) (root_dir : PurePath)
    (walk : list (list string * list string * list string)) :
  sizes_in_range fs = true -> root root_dir = "/" ->
  (forall entry, In entry walk -> exists rest, entry.1.1 = parts root_dir ++ rest) ->
  forall out,
    (exists out', build_index_loop format_mtime fs root_dir walk out = Ret out'
                  /\ forall top ds files f, In (top, ds, files) walk -> In f files ->
                       exists st, os_stat fs (parts (joinpath (mkPath "/" top) f)) = Ret st)
    \/ exists e, build_index_loop format_mtime fs root_dir walk out = Raise e
                 /\ stat_failure e.
Proof.
  intros Hfs Hroot. induction walk as [|[[top ds] files] walk IH]; intros Hbelow out.
  - left. exists out. by split.
  - cbn [build_index_loop].
    destruct (proj1 (relative_to_inside (mkPath "/" top) root_dir)) as [rel ->].
    { split; [done|]. apply (Hbelow (top, ds, files)). by left. }
    simpl.
    destruct (build_index_files_stats format_mtime fs (mkPath "/" top) (as_posix rel)
                files Hfs out) as [(out1 & -> & Hall1)|(e & -> & He)]; [|right; by exists e].
    simpl. destruct (IH ltac:(intros entry Hin; apply Hbelow; by right) out1)
      as [(out' & Hout & Hall)| Hraise]; [|by right].
    left. exists out'. split; [done|].
    intros top' ds' files' f [[= <- <- <-]|Hin] Hf; [by apply Hall1|by apply (Hall top' ds' files')].
Qed.

(** X8: a symbolic link in a directory at or below the root whose target
    cannot be reached stops every search (the names of the tree being
    plain, its files smaller than 2^63 bytes and the root absolute): the
    walk hands the link to [build_index] as a file, [stat] fails on it
    or on a broken link met before it, and nothing catches the
    exception, which is a [FileNotFoundError], a [NotADirectoryError] or
    the [OSError] of a loop of links; so a search for a query that is not
    blank, once through the gate, is answered 500. *)
Theorem dangling_link_breaks_search (format_mtime : Z -> string) (getcwd : list string)
    (cfg : config) (fs : node) (rest : list string) (mtime : Z)
    (entries : list (string * node)) (f target : string) :
  names_plain fs = true -> sizes_in_range fs = true -> root (ROOT cfg) = "/" ->
  lookup_node fs (parts (ROOT cfg) ++ rest) = Some (Dir mtime entries) ->
  In (f, Symlink target) entries ->
  stat_node fs (parts (ROOT cfg) ++ rest ++ [f]) = None ->
  exists e,
    build_index format_mtime fs (ROOT cfg) = Raise e
    /\ (e = FileNotFoundError \/ e = NotADirectoryError \/ e = OSError)
    /\ forall q header,
         str_lower (str_strip q) <> EmptyString ->
         AUTH cfg = None \/ (exists cred, AUTH cfg = Some cred /\ carries_credential cred header) ->
         status (app format_mtime getcwd cfg fs (mkRequest (search_route (Some q)) header)) = 500.
Proof.
  intros Hnames Hsizes Hroot Hdir Hf Hstat.
  assert (Hidx : exists e, build_index format_mtime fs (ROOT cfg) = Raise e /\ stat_failure e).
  { unfold build_index.
    destruct (build_index_loop_stats format_mtime fs (ROOT cfg) (os_walk fs (parts (ROOT cfg)))
                Hsizes Hroot (os_walk_below fs (parts (ROOT cfg))) [])
      as [(out' & _ & Hall)|Hraise]; [|done].
    exfalso. pose proof (os_walk_complete fs _ _ _ _ Hdir) as Hin.
    destruct (lookup_node_plain fs _ _ Hnames Hdir) as [_ Hplain].
    destruct (names_plain_dir _ _ Hplain) as (Hall' & _ & _).
    assert (Hfp : plain_name f = true).
    { rewrite Forall_forall in Hall'. apply Hall', list_elem_of_In, in_map_iff.
      by exists (f, Symlink target). }
    destruct (Hall _ _ _ f Hin) as [st Hst].
    - apply in_map_iff. exists (f, Symlink target). split; [done|].
      apply filter_In. split; [done|]. unfold entry_is_dir, is_dir. cbn [fst snd].
      by rewrite <- app_assoc, Hstat.
    - rewrite (joinpath_plain _ f Hfp) in Hst. cbn [parts] in Hst.
      unfold os_stat in Hst. by rewrite <- app_assoc, Hstat in Hst. }
  destruct Hidx as (e & Hidx & He). exists e. split; [done|]. split; [exact He|].
  intros q header Hq Hgate.
  unfold app, api_search. cbn [url].
  replace (requires_auth cfg _ _) with (api_search_view format_mtime cfg fs (Some q)).
  - unfold api_search_view. cbn [default from_option id].
    rewrite bool_decide_eq_false_2 by done. rewrite Hidx.
    by destruct He as [->|[->| ->]].
  - symmetry. destruct Hgate as [Hopen|(cred & Hcred & Hcarries)].
    + by apply requires_auth_open.
    + by apply (requires_auth_guarded _ _ _ cred).
Qed.

Lemma dangling_link_breaks_search_witness :
  exists e,
    build_index example_format dangling_tree (ROOT search_config) = Raise e
    /\ (e = FileNotFoundError \/ e = NotADirectoryError \/ e = OSError)
    /\ forall q header,
         str_lower (str_strip q) <> EmptyString ->
         AUTH search_config = None
         \/ (exists cred, AUTH search_config = Some cred /\ carries_credential cred header) ->
         status (app example_format [] search_config dangling_tree
                   (mkRequest (search_route (Some q)) header)) = 500.
Proof.
  apply (dangling_link_breaks_search example_format [] search_config dangling_tree [] 0
           [("a.txt", File 1 []); ("gone", Symlink "nowhere")] "gone" "nowhere").
  - vm_compute. reflexivity.
  - vm_compute. reflexivity.
  - vm_compute. reflexivity.
  - vm_compute. reflexivity.
  - simpl. right. by left.
  - vm_compute. reflexivity.
Defined.

(** The three ways [stat] fails: on a link whose target is not there, on
    a path that goes through a regular file, and on a loop of links. *)
Example os_stat_failures :
  os_stat dangling_tree ["srv"; "root"; "gone"] = Raise FileNotFoundError
  /\ os_stat linked_tree ["srv"; "root"; "in"; "x"] = Raise NotADirectoryError
  /\ os_stat linked_tree ["srv"; "root"; "loop"] = Raise OSError
  /\ build_index example_format linked_tree example_root = Raise OSError.
Proof. repeat split; vm_compute; reflexivity. Qed.

(** ** Every file once *)

Lemma NoDup_filter_names (g : string * node -> bool) (es : list (string * node)) :
  NoDup (map fst es) -> NoDup (map fst (List.filter g es)).
Proof.
  induction es as [|[x ch] es IH]; [done|]. cbn [map fst]. intros Hdup.
  apply NoDup_cons in Hdup as [Hx Hdup]. cbn [List.filter].
  destruct (g (x, ch)); [|by apply IH]. cbn [map fst]. apply NoDup_cons. split; [|by apply IH].
  intros Hin. apply Hx. apply list_elem_of_In in Hin. apply list_elem_of_In.
  apply in_map_iff in Hin as (e & He & Hin). apply filter_In in Hin as [Hin _].
  apply in_map_iff. by exists e.
Qed.

Lemma walk_paths_app (a b : list (list string * list string * list string)) :
  walk_paths (a ++ b) = walk_paths a ++ walk_paths b.
Proof. apply flat_map_app. Qed.

Lemma walk_paths_below (fs : node) (n : node) (top p : list string) :
  In p (walk_paths (walk_node fs top n)) -> exists rest f, p = top ++ rest ++ [f].
Proof.
  unfold walk_paths. intros Hp. apply in_flat_map in Hp as (entry & Hentry & Hp).
  apply in_map_iff in Hp as (f & <- & _).
  destruct (walk_node_below fs n top entry Hentry) as [rest ->].
  exists rest, f. by rewrite app_assoc.
Qed.

Lemma walk_paths_NoDup (fs : node) (n : node) :
  names_plain n = true -> forall top, NoDup (walk_paths (walk_node fs top n)).
Proof.
  induction n as [| mtime entries IH |] using node_nested_ind;
    intros Hnames top; [constructor| |constructor].
  destruct (names_plain_dir _ _ Hnames) as (_ & Hdup & Hall).
  rewrite walk_node_Dir. unfold walk_paths at 1. cbn [flat_map fst snd]. fold walk_paths.
  apply NoDup_app. split; [|split].
  - apply (NoDup_fmap_2_strong (fun f => top ++ [f])); [|by apply NoDup_filter_names].
    intros f f' _ _ Heq. apply app_inv_head in Heq. by injection Heq.
  - intros p Hp Hsub. apply list_elem_of_In in Hp, Hsub.
    apply in_map_iff in Hp as (f & <- & _).
    apply in_flat_map in Hsub as (entry & Hentry & Hp).
    apply in_flat_map in Hentry as ([x ch] & _ & Hentry). cbn [fst snd] in Hentry.
    destruct ch as [| m es |]; try done.
    destruct (walk_node_below fs _ _ entry Hentry) as [rest Hrest].
    apply in_map_iff in Hp as (f' & Hp & _). rewrite Hrest in Hp.
    rewrite <- !app_assoc in Hp. apply app_inv_head in Hp.
    apply (f_equal length) in Hp. rewrite !length_app in Hp. simpl in Hp. lia.
  - clear Hnames. induction entries as [|[x ch] entries IHentries]; [constructor|].
    cbn [flat_map fst snd]. rewrite walk_paths_app.
    apply Forall_cons in IH as [Hch IH]. apply Forall_cons in Hall as [Hchn Hall].
    cbn [map fst] in Hdup. apply NoDup_cons in Hdup as [Hx Hdup].
    apply NoDup_app. split; [|split; [|by apply IHentries]].
    + destruct ch as [| m es |]; try constructor. by apply Hch.
    + intros p Hp Hsub. apply list_elem_of_In in Hp, Hsub.
      destruct ch as [| m es |]; try done.
      destruct (walk_paths_below fs _ _ p Hp) as (rest & f & ->).
      apply in_flat_map in Hsub as (entry & Hentry & Hq).
      apply in_flat_map in Hentry as ([y ch'] & Hy & Hentry). cbn [fst snd] in Hentry.
      destruct ch' as [| m' es' |]; try done.
      destruct (walk_node_below fs _ _ entry Hentry) as [rest' Hrest'].
      apply in_map_iff in Hq as (f' & Hq & _). rewrite Hrest' in Hq.
      rewrite <- !app_assoc in Hq. apply app_inv_head in Hq. injection Hq as -> _.
      apply Hx. apply list_elem_of_In, in_map_iff. by exists (x, Dir m' es').
Qed.

Lemma drop_app_length' {A : Type} (a b c : list A) :
  list.drop (length a) ((a ++ b) ++ c) = b ++ c.
Proof. by rewrite <- app_assoc, drop_app_length. Qed.

(** The paths the index gives are the paths of the files of the walk,
    cut at the root and joined with slashes. *)
Lemma walk_relpaths_paths (fs : node) (root_dir : PurePath)
    (walk : list (list string * list string * list string)) :
  names_plain fs = true ->
  (forall entry, In entry walk ->
     walk_entry_ok fs entry /\ exists rest, entry.1.1 = parts root_dir ++ rest) ->
  root root_dir = "/" ->
  walk_relpaths root_dir walk
  = map (fun p => str_join "/" (list.drop (length (parts root_dir)) p)) (walk_paths walk).
Proof.
  intros Hnames Hwalk Hroot. induction walk as [|[[top ds] files] walk IH]; [done|].
  unfold walk_relpaths, walk_paths. cbn [flat_map fst snd]. rewrite map_app.
  fold (walk_relpaths root_dir walk). fold (walk_paths walk).
  rewrite IH by (intros entry Hin; apply Hwalk; by right). f_equal.
  destruct (Hwalk (top, ds, files) ltac:(by left))
    as [(mtime & entries & Htop & Hdir & Hfiles) [rest Hbelow]].
  cbn [fst snd] in Htop, Hfiles, Hbelow. subst top.
  destruct (proj1 (relative_to_inside (mkPath "/" (parts root_dir ++ rest)) root_dir))
    as [rel Hrel]; [split; [done|by exists rest]|].
  rewrite Hrel. apply relative_to_below in Hrel. subst rel.
  rewrite map_map. apply map_ext_in. intros f Hf.
  rewrite drop_app_length'.
  destruct (lookup_node_plain fs _ _ Hnames Htop) as [Hplain _].
  apply Forall_app in Hplain as [_ Hrest].
  apply walk_relpath_join; [done|].
  destruct (Hfiles f Hf) as (ch & Hch & _).
  destruct (names_plain_dir _ _ Hdir) as (Hall & _ & _).
  rewrite Forall_forall in Hall. apply Hall, list_elem_of_In, in_map_iff.
  exists (f, ch). split; [done|]. by apply entry_lookup_In.
Qed.

Lemma os_walk_paths_NoDup (fs : node) (top : list string) :
  names_plain fs = true -> NoDup (walk_paths (os_walk fs top)).
Proof.
  intros Hnames. unfold os_walk. destruct (lookup_node fs top) as [n|] eqn:Hn; [|constructor].
  apply walk_paths_NoDup. by destruct (lookup_node_plain fs top n Hnames Hn).
Qed.

Lemma os_walk_paths_plain (fs : node) (top p : list string) :
  names_plain fs = true -> In p (walk_paths (os_walk fs top)) ->
  exists rest, p = top ++ rest /\ rest <> []
               /\ Forall (fun x => plain_name x = true) rest.
Proof.
  intros Hnames Hp. unfold walk_paths in Hp. apply in_flat_map in Hp as (entry & Hentry & Hp).
  apply in_map_iff in Hp as (f & <- & Hf).
  destruct (os_walk_ok fs top entry Hnames Hentry)
    as [(mtime & entries & Htop & Hdir & Hfiles) [rest Hbelow]].
  rewrite Hbelow in *. exists (rest ++ [f]). rewrite app_assoc. split; [done|].
  split; [by destruct rest|].
  destruct (lookup_node_plain fs _ _ Hnames Htop) as [Hplain _].
  apply Forall_app in Hplain as [_ Hrest]. apply Forall_app. split; [done|].
  repeat constructor. destruct (Hfiles f Hf) as (ch & Hch & _).
  destruct (names_plain_dir _ _ Hdir) as (Hall & _ & _).
  rewrite Forall_forall in Hall. apply Hall, list_elem_of_In, in_map_iff.
  exists (f, ch). split; [done|]. by apply entry_lookup_In.
Qed.

Lemma str_join_inj (a b : list string) :
  a <> [] -> b <> [] ->
  Forall (fun x => plain_name x = true) a -> Forall (fun x => plain_name x = true) b ->
  str_join "/" a = str_join "/" b -> a = b.
Proof.
  intros Ha Hb Hpa Hpb Heq.
  rewrite <- (str_split_slash_join a), <- (str_split_slash_join b), Heq; try done.
  - eapply Forall_impl; [exact Hpb|]. apply plain_name_no_slash.
  - eapply Forall_impl; [exact Hpa|]. apply plain_name_no_slash.
Qed.

(** X9: whenever the index is built, for an absolute root in a tree of plain
    names, it holds every regular file below the root, under the names
    from the root to the file joined with slashes, and no path twice. *)
Theorem index_lists_every_file_once (format_mtime : Z -> string) (fs : node)
    (root_dir : PurePath) (idx : list file_entry) :
  names_plain fs = true -> root root_dir = "/" ->
  build_index format_mtime fs root_dir = Ret idx ->
  NoDup (map file_relpath idx)
  /\ forall rest mtime data,
       rest <> [] ->
       lookup_node fs (parts root_dir ++ rest) = Some (File mtime data) ->
       exists e, In e idx /\ file_relpath e = str_join "/" rest
                 /\ file_name e = List.last rest EmptyString.
Proof.
  intros Hnames Hroot Hidx. unfold build_index in Hidx.
  destruct (build_index_loop_inv _ _ _ _ _ _ Hidx) as (new & -> & Hrel & Hnew).
  rewrite app_nil_l.
  rewrite (walk_relpaths_paths fs root_dir _ Hnames
             (fun entry => os_walk_ok fs (parts root_dir) entry Hnames) Hroot) in Hrel.
  split.
  - rewrite Hrel. apply NoDup_fmap_2_strong; [|by apply os_walk_paths_NoDup].
    intros p q Hp Hq Heq. apply list_elem_of_In in Hp, Hq.
    destruct (os_walk_paths_plain fs _ p Hnames Hp) as (rp & -> & Hnp & Hpp).
    destruct (os_walk_paths_plain fs _ q Hnames Hq) as (rq & -> & Hnq & Hpq).
    rewrite !drop_app_length in Heq. f_equal. by apply str_join_inj.
  - intros rest mtime data Hne Hlook.
    destruct (exists_last Hne) as (rest' & f & ->).
    rewrite app_assoc in Hlook. pose proof Hlook as Hlook'.
    rewrite lookup_node_app in Hlook'.
    destruct (lookup_node fs (parts root_dir ++ rest')) as [[| m es |]|] eqn:Hdir;
      try (by simpl in Hlook').
    simpl in Hlook'. destruct (entry_lookup f es) as [ch|] eqn:Hf; [|done].
    injection Hlook' as ->.
    pose proof (os_walk_complete fs _ _ _ _ Hdir) as Hin.
    assert (Hp : In ((parts root_dir ++ rest') ++ [f])
                   (walk_paths (os_walk fs (parts root_dir)))).
    { unfold walk_paths. apply in_flat_map. eexists. split; [exact Hin|].
      cbn [fst snd]. apply (in_map (fun f0 => (parts root_dir ++ rest') ++ [f0])).
      apply in_map_iff. exists (f, File mtime data).
      split; [done|]. apply filter_In. split; [by apply entry_lookup_In|done]. }
    assert (Hr : In (str_join "/" (rest' ++ [f])) (map file_relpath new)).
    { rewrite Hrel. apply in_map_iff. eexists. split; [|exact Hp].
      by rewrite drop_app_length'. }
    apply in_map_iff in Hr as (e & He & Hin'). exists e. split; [done|]. split; [done|].
    rewrite last_last.
    destruct (Hnew e Hin') as (top & ds & files & rel & f' & Hwalk & Hf' & Hrel'
                               & Hname & Hpath & _).
    rewrite Hname.
    destruct (os_walk_ok fs _ _ Hnames Hwalk)
      as [(mtime' & entries' & Htop & Hdir' & Hfiles) [rest'' Hbelow]].
    cbn [fst snd] in Htop, Hfiles, Hbelow. subst top.
    apply relative_to_below in Hrel'. subst rel.
    destruct (lookup_node_plain fs _ _ Hnames Htop) as [Hplain _].
    apply Forall_app in Hplain as [_ Hrest''].
    destruct (Hfiles f' Hf') as (ch & Hch & _).
    destruct (names_plain_dir _ _ Hdir') as (Hall & _ & _).
    assert (Hfp : plain_name f' = true).
    { rewrite Forall_forall in Hall. apply Hall, list_elem_of_In, in_map_iff.
      exists (f', ch). split; [done|]. by apply entry_lookup_In. }
    rewrite (walk_relpath_join rest'' f' Hrest'' Hfp) in Hpath.
    rewrite He in Hpath.
    destruct (lookup_node_plain fs _ _ Hnames Hlook) as [Hplain' _].
    rewrite <- app_assoc in Hplain'. apply Forall_app in Hplain' as [_ Hplain'].
    apply str_join_inj in Hpath; [| by destruct rest' | by destruct rest'' | done |].
    + by apply app_inj_tail in Hpath as [_ ->].
    + apply Forall_app. split; [done|]. by repeat constructor.
Qed.

Lemma index_lists_every_file_once_witness :
  NoDup (map file_relpath [mkFileEntry "a.txt" "a.txt" "1.5KB" "30";
                           mkFileEntry "b.txt" "sub/b.txt" "3.0B" "20"])
  /\ forall rest mtime data,
       rest <> [] ->
       lookup_node example_tree (parts example_root ++ rest) = Some (File mtime data) ->
       exists e, In e [mkFileEntry "a.txt" "a.txt" "1.5KB" "30";
                       mkFileEntry "b.txt" "sub/b.txt" "3.0B" "20"]
                 /\ file_relpath e = str_join "/" rest
                 /\ file_name e = List.last rest EmptyString.
Proof.
  apply (index_lists_every_file_once example_format example_tree example_root).
  - vm_compute. reflexivity.
  - vm_compute. reflexivity.
  - vm_compute. reflexivity.
Defined.

(** ** A NUL character in a path *)

Lemma safe_resolve_nul (getcwd : list string) (fs : node) (root_dir : PurePath) (p : string) :
  existsb has_nul (parts (Path p)) = true ->
  safe_resolve getcwd fs root_dir p = Raise ValueError.
Proof.
  intros Hnul. unfold safe_resolve, resolve.
  assert (Hj : existsb has_nul (parts (joinpath root_dir p)) = true).
  { unfold joinpath. case_bool_decide; [|done]. cbn [parts].
    by rewrite existsb_app, Hnul, orb_true_r. }
  by rewrite Hj.
Qed.

(** X10: a path with a NUL character in one of its components is not answered
    404: [resolve] raises [ValueError] before the [try] of [safe_resolve]
    is entered, nothing catches it, and the answer to a download and to a
    listing of such a path, once through the gate, is 500. *)
Theorem nul_path_is_500 (format_mtime : Z -> string) (getcwd : list string)
    (cfg : config) (fs : node) (header : option string) (relpath : string) :
  existsb has_nul (parts (Path relpath)) = true ->
  AUTH cfg = None \/ (exists cred, AUTH cfg = Some cred /\ carries_credential cred header) ->
  safe_resolve getcwd fs (ROOT cfg) relpath = Raise ValueError
  /\ app format_mtime getcwd cfg fs (mkRequest (dl_route relpath) header)
     = internal_server_error
  /\ app format_mtime getcwd cfg fs (mkRequest (ls_route (Some relpath)) header)
     = internal_server_error.
Proof.
  intros Hnul Hgate.
  assert (Hpass : forall req func, authorization req = header ->
                                   requires_auth cfg req func = func).
  { intros req func Hh. destruct Hgate as [Hopen|(cred & Hcred & Hcarries)].
    - by apply requires_auth_open.
    - apply (requires_auth_guarded _ _ _ cred Hcred). by rewrite Hh. }
  pose proof (safe_resolve_nul getcwd fs (ROOT cfg) relpath Hnul) as Hres.
  split; [done|]. split.
  - unfold app, dl. cbn [url]. rewrite Hpass by done. unfold dl_view. by rewrite Hres.
  - unfold app, api_ls. cbn [url]. rewrite Hpass by done.
    unfold api_ls_view. cbn [default from_option id].
    rewrite bool_decide_eq_false_2 by (intros ->; discriminate Hnul).
    unfold list_dir. by rewrite Hres.
Qed.

Lemma nul_path_is_500_witness :
  safe_resolve [] example_tree (ROOT open_config) (String zero "x") = Raise ValueError
  /\ app example_format [] open_config example_tree
       (mkRequest (dl_route (String zero "x")) None) = internal_server_error
  /\ app example_format [] open_config example_tree
       (mkRequest (ls_route (Some (String zero "x"))) None) = internal_server_error.
Proof.
  apply (nul_path_is_500 example_format [] open_config example_tree None (String zero "x")).
  - vm_compute. reflexivity.
  - left. vm_compute. reflexivity.
Defined.

(** ** Sizes that do not fit, and whole sizes *)

(** X11: a size of 2^1024 bytes or more cannot be shown: the division by
    [1024.0] converts the integer to a float, which overflows, so
    [human_size] raises [OverflowError] instead of falling back to PB. *)
Theorem human_size_overflow (n : Z) :
  2 ^ 1024 <= n -> human_size n = Raise OverflowError.
Proof.
  intros Hn. unfold human_size. cbn [human_size_loop number_lt].
  assert (Hbig : (n <? 1024) = false).
  { apply Z.ltb_ge. etrans; [|exact Hn]. done. }
  rewrite Hbig. cbn [number_div]. by rewrite (float_of_int_overflow n Hn).
Qed.

Lemma human_size_overflow_witness : human_size (2 ^ 1024) = Raise OverflowError.
Proof. apply (human_size_overflow (2 ^ 1024)). lia. Defined.

Lemma iter_div1024_whole (k : nat) (x : Q) (m : Z) :
  (x == inject_Z (m * 1024 ^ Z.of_nat k))%Q -> (Nat.iter k div1024 x == inject_Z m)%Q.
Proof.
  revert x. induction k as [|k IH]; intros x Hx.
  - simpl. rewrite Hx. by rewrite Z.mul_1_r.
  - rewrite Nat.iter_succ_r. apply IH. unfold div1024. rewrite Hx.
    rewrite Nat2Z.inj_succ, Z.pow_succ_r by lia.
    unfold Qdiv, Qmult, Qinv, Qeq, inject_Z. simpl. lia.
Qed.

Lemma format_1f_float_whole (x : Q) (m : Z) :
  (x == inject_Z m)%Q -> 0 <= m -> format_1f_float x = str_of_int m +:+ ".0".
Proof.
  intros Hx Hm. rewrite format_1f_float_nonneg by (rewrite Hx; by apply (Qle_trans _ (inject_Z 0)); [|rewrite <- Zle_Qle]).
  destruct x as [a b]. unfold Qeq in Hx. simpl in Hx. rewrite Z.mul_1_r in Hx.
  unfold round_half_even. cbn [Qmult Qnum Qden inject_Z]. rewrite Pos.mul_1_r.
  assert (Hdiv : a * 10 / Z.pos b = m * 10).
  { rewrite Hx. replace (m * Z.pos b * 10) with (m * 10 * Z.pos b) by lia.
    by apply Z.div_mul. }
  assert (Hmod : (a * 10) mod Z.pos b = 0).
  { rewrite Hx. replace (m * Z.pos b * 10) with (m * 10 * Z.pos b) by lia.
    by apply Z.mod_mul. }
  rewrite Hdiv, Hmod. change (2 * 0) with 0.
  replace (Z.pos b <? 0) with false by (symmetry; by apply Z.ltb_ge).
  replace (0 =? Z.pos b) with false by (symmetry; by apply Z.eqb_neq).
  cbn [andb]. rewrite Z.div_mul by done. by rewrite Z.mod_mul by done.
Qed.

(** X12: a whole number of bytes, kilobytes, megabytes, gigabytes or terabytes
    below 1024 is shown as that number with [.0] and the unit: 1024 bytes
    are ["1.0KB"], and a size below 1024 bytes is its own decimal digits
    followed by [.0B]. *)
Theorem human_size_whole (k : nat) (m : Z) :
  (k < 5)%nat -> 0 <= m < 1024 -> (k <> O -> 1 <= m) ->
  human_size (m * 1024 ^ Z.of_nat k)
  = Ret (str_of_int m +:+ ".0" +:+ nth k ["B"; "KB"; "MB"; "GB"; "TB"] EmptyString).
Proof.
  intros Hk [Hlo Hhi] Hpos.
  assert (Hp : 0 < 1024 ^ Z.of_nat k) by (apply Z.pow_pos_nonneg; lia).
  rewrite (human_size_scaled k (m * 1024 ^ Z.of_nat k) Hk).
  - rewrite (format_1f_float_whole _ m); [|by apply iter_div1024_whole|done].
    by rewrite string_app_assoc.
  - nia.
  - intros Hne. specialize (Hpos Hne). nia.
  - rewrite Nat2Z.inj_succ, Z.pow_succ_r by lia. nia.
Qed.

Lemma human_size_whole_witness : human_size (3 * 1024 ^ Z.of_nat 2) = Ret ("3" +:+ ".0" +:+ "MB").
Proof. apply (human_size_whole 2 3); [lia|lia|lia]. Defined.

(** ** What the server starts with *)

Lemma setup_root_Ret (getcwd : list string) (now : Z) (args : arguments) (fs : node)
    (events : list event) (root_dir : PurePath) (fs' : node) :
  setup_root getcwd now args fs = (events, Ret (root_dir, fs')) ->
  resolve fs getcwd (Path (arg_dir args)) = Ret root_dir
  /\ root root_dir = "/"
  /\ (if exists_ fs (parts root_dir)
      then events = [] /\ fs' = fs
      else events = [Print ("Creating root: " +:+ as_posix root_dir); Mkdir root_dir]
           /\ makedirs now fs (parts root_dir) = Ret fs').
Proof.
  unfold setup_root. destruct (resolve fs getcwd (Path (arg_dir args))) as [r|e] eqn:Hres;
    [|done].
  pose proof (resolve_root _ _ _ _ Hres) as Hroot.
  destruct (exists_ fs (parts r)) eqn:Hex; cbn [negb].
  - intros [= <- <- <-]. by rewrite Hex.
  - destruct (makedirs now fs (parts r)) as [fs1|e] eqn:Hmk; [|done]. simpl.
    intros [= <- <- <-]. by rewrite Hex.
Qed.

(** X13: the server runs only with the gate the command line asks for: open
    exactly when [--no-auth] is given (whatever [DROP_AUTH] holds), and
    otherwise guarded by the value of [DROP_AUTH], which is not empty.
    It runs on the port the [--port] text denotes, after everything else
    was printed, with an absolute root and the table of short names of
    the tree as it is then; and it does run whenever the root can be set
    up, the port is a number and the gate is settled. *)
Theorem main_serving (getcwd : list string) (now : Z) (args : arguments)
    (DROP_AUTH : option ustr) (fs : node) :
  (forall events cfg fs',
     main getcwd now args DROP_AUTH fs = (events, Serving cfg fs') ->
     AUTH cfg = (if arg_no_auth args then None else DROP_AUTH)
     /\ (AUTH cfg = None <-> arg_no_auth args = true)
     /\ AUTH cfg <> Some []
     /\ root (ROOT cfg) = "/"
     /\ build_short_urls fs' (ROOT cfg) = Ret (SHORT_URLS cfg)
     /\ exists port before,
          int_of_str (arg_port args) = Ret port
          /\ events = before ++ [Run (arg_host args) port]
          /\ forall host port', ~ In (Run host port') before)
  /\ (forall events root_dir fs' port,
        setup_root getcwd now args fs = (events, Ret (root_dir, fs')) ->
        arg_no_auth args = true \/ auth_is_empty DROP_AUTH = false ->
        int_of_str (arg_port args) = Ret port ->
        exists events' table,
          main getcwd now args DROP_AUTH fs
          = (events', Serving (mkConfig root_dir (if arg_no_auth args then None else DROP_AUTH)
                                 table) fs')).
Proof.
  split.
  - intros events cfg fs'. unfold main.
    pose proof (setup_root_no_run getcwd now args fs) as Hnorun.
    destruct (setup_root getcwd now args fs) as [ev [[r fs1]|e]] eqn:Hsetup; [|done].
    destruct (setup_root_Ret _ _ _ _ _ _ _ Hsetup) as (_ & Hroot & _).
    destruct (negb (arg_no_auth args) && auth_is_empty _) eqn:Hcheck; [done|].
    destruct (build_short_urls fs1 r) as [table|e] eqn:Htable; [|done].
    destruct (int_of_str (arg_port args)) as [port|e] eqn:Hport; [|done].
    intros [= <- <- <-]. cbn [AUTH ROOT SHORT_URLS].
    split; [done|]. split; [|split; [|split; [done|split; [done|]]]].
    + destruct (arg_no_auth args); [done|]. cbn [negb andb] in Hcheck.
      split; [|done]. intros ->. discriminate Hcheck.
    + destruct (arg_no_auth args); [done|]. cbn [negb andb] in Hcheck.
      intros ->. discriminate Hcheck.
    + exists port, (ev ++ [Print ("Dropper serving root: " +:+ as_posix r);
                           Print (if negb (auth_is_empty
                                             (if arg_no_auth args then None else DROP_AUTH))
                                  then "Basic auth enabled. Set DROP_AUTH=USER:PASS to change credentials."
                                  else "Authentication disabled (--no-auth). Anyone can access files.");
                           Print ("Open http://" +:+ arg_host args +:+ ":"
                                  +:+ str_of_int port +:+ " in your browser.")]).
      split; [done|]. split; [by rewrite <- app_assoc|].
      intros host port' Hin. apply in_app_or in Hin as [Hin|Hin].
      * by apply (Hnorun host port').
      * by destruct Hin as [H|[H|[H|[]]]].
  - intros events root_dir fs' port Hsetup Hgate Hport. unfold main.
    rewrite Hsetup. destruct (setup_root_Ret _ _ _ _ _ _ _ Hsetup) as (_ & Hroot & _).
    assert (Hcheck : negb (arg_no_auth args)
                     && auth_is_empty (if arg_no_auth args then None else DROP_AUTH) = false).
    { destruct Hgate as [-> | Hcred]; [done|]. destruct (arg_no_auth args); [done|].
      by rewrite Hcred. }
    rewrite Hcheck.
    destruct (build_short_urls_returns fs' root_dir Hroot) as (table & -> & _).
    rewrite Hport. eauto.
Qed.

Lemma main_serving_witness :
  exists events' table,
    main [] 0 example_arguments (Some admin_admin) example_tree
    = (events', Serving (mkConfig example_root
                           (if arg_no_auth example_arguments then None else Some admin_admin)
                           table) example_tree).
Proof.
  apply (proj2 (main_serving [] 0 example_arguments (Some admin_admin) example_tree)
           [] example_root example_tree 8000).
  - vm_compute. reflexivity.
  - right. vm_compute. reflexivity.
  - vm_compute. reflexivity.
Defined.

(** ** Creating the root *)

Lemma entry_lookup_app_Some (x : string) (es es' : list (string * node)) (n : node) :
  entry_lookup x es = Some n -> entry_lookup x (es ++ es') = Some n.
Proof.
  induction es as [|[y ch] es IH]; [done|]. simpl. by case_bool_decide.
Qed.

Lemma entry_lookup_app_None (x : string) (es es' : list (string * node)) :
  entry_lookup x es = None -> entry_lookup x (es ++ es') = entry_lookup x es'.
Proof.
  induction es as [|[y ch] es IH]; [done|]. simpl. by case_bool_decide.
Qed.

Lemma new_dirs_lookup (now : Z) (p : list string) :
  exists es, lookup_node (new_dirs now p) p = Some (Dir now es).
Proof.
  induction p as [|x p IH]; [by exists []|]. simpl.
  by rewrite bool_decide_eq_true_2.
Qed.

Lemma makedirs_cons (now : Z) (mtime : Z) (entries : list (string * node)) (x : string)
    (p : list string) :
  makedirs now (Dir mtime entries) (x :: p) =
  match entry_lookup x entries with
  | None => Ret (Dir now (entries ++ [(x, new_dirs now p)]))
  | Some _ =>
      entries' ←
        (fix update (es : list (string * node)) : result (list (string * node)) :=
           match es with
           | [] => Ret []
           | (y, n) :: es' =>
               if bool_decide (x = y) then
                 n' ← makedirs now n p; Ret ((y, n') :: es')
               else es'' ← update es'; Ret ((y, n) :: es'')
           end) entries;
      Ret (Dir mtime entries')
  end.
Proof. reflexivity. Qed.

(** [makedirs] returns a tree in which the path is a directory, and in
    which every file and link of the old tree is where it was. *)
Lemma makedirs_spec (now : Z) (p : list string) :
  forall fs fs',
    makedirs now fs p = Ret fs' ->
    (exists mtime es, lookup_node fs' p = Some (Dir mtime es))
    /\ forall q n, lookup_node fs q = Some n ->
         (forall mtime es, n <> Dir mtime es) -> lookup_node fs' q = Some n.
Proof.
  induction p as [|x p IH]; intros fs fs'.
  - simpl. destruct fs as [| mtime es |]; try done. intros [= <-]. split; [eauto|done].
  - destruct fs as [| mtime entries |]; try done. rewrite makedirs_cons.
    destruct (entry_lookup x entries) as [ch|] eqn:Hx.
    + match goal with
      | |- context [mbind _ (?upd entries)] =>
          assert (Hupd : forall es ch0, entry_lookup x es = Some ch0 ->
                    forall es', upd es = Ret es' ->
                      exists ch', makedirs now ch0 p = Ret ch'
                        /\ entry_lookup x es' = Some ch'
                        /\ forall y, y <> x -> entry_lookup y es' = entry_lookup y es)
      end.
      { induction es as [|[y n] es IHes]; [done|]. intros ch0. cbn [entry_lookup].
        case_bool_decide as Hxy.
        - intros [= ->] es'. destruct (makedirs now ch0 p) as [ch'|e]; [|done]. simpl.
          intros [= <-]. exists ch'. split; [done|]. cbn [entry_lookup].
          rewrite bool_decide_eq_true_2 by done. split; [done|]. intros z Hz.
          by rewrite bool_decide_eq_false_2 by congruence.
        - intros Hes es'.
          match goal with
          | |- context [mbind _ ?m] => destruct m as [es''|e] eqn:Hrec; [|done]
          end.
          simpl. intros [= <-]. destruct (IHes ch0 Hes es'' eq_refl) as (ch' & Hmk & Hl & Hother).
          exists ch'. split; [done|]. cbn [entry_lookup].
          rewrite bool_decide_eq_false_2 by done. split; [done|]. intros z Hz.
          case_bool_decide; [done|]. by apply Hother. }
      match goal with
      | |- context [mbind _ ?m] => destruct m as [es'|e] eqn:Hrec; [|done]
      end.
      simpl. intros [= <-].
      destruct (Hupd entries ch Hx es' Hrec) as (ch' & Hmk & Hl & Hother).
      destruct (IH ch ch' Hmk) as [Hdir Hkeep]. split.
      * simpl. by rewrite Hl.
      * intros q n Hq Hn. destruct q as [|y q]; [injection Hq as <-; by destruct (Hn mtime entries)|].
        simpl in Hq |- *. destruct (decide (y = x)) as [->|Hne].
        -- rewrite Hx in Hq. rewrite Hl. by apply Hkeep.
        -- by rewrite (Hother y Hne).
    + intros [= <-]. split.
      * simpl. rewrite (entry_lookup_app_None _ _ _ Hx). simpl.
        rewrite bool_decide_eq_true_2 by done. destruct (new_dirs_lookup now p) as [es ->]. eauto.
      * intros q n Hq Hn. destruct q as [|y q]; [injection Hq as <-; by destruct (Hn mtime entries)|].
        simpl in Hq |- *. destruct (entry_lookup y entries) as [ch|] eqn:Hy; [|done].
        by rewrite (entry_lookup_app_Some _ _ _ _ Hy).
Qed.

(** X14: setting up the root changes nothing when the root exists; when it
    does not, the script says so and creates it, after which the root is
    a directory of the tree, and every file and every link of the old
    tree is still where it was. *)
Theorem setup_root_keeps_files (getcwd : list string) (now : Z) (args : arguments)
    (fs : node) (events : list event) (root_dir : PurePath) (fs' : node) :
  setup_root getcwd now args fs = (events, Ret (root_dir, fs')) ->
  (exists_ fs (parts root_dir) = true -> events = [] /\ fs' = fs)
  /\ (exists_ fs (parts root_dir) = false ->
      events = [Print ("Creating root: " +:+ as_posix root_dir); Mkdir root_dir]
      /\ exists mtime es, lookup_node fs' (parts root_dir) = Some (Dir mtime es))
  /\ forall q n, lookup_node fs q = Some n ->
       (forall mtime es, n <> Dir mtime es) -> lookup_node fs' q = Some n.
Proof.
  intros Hsetup. destruct (setup_root_Ret _ _ _ _ _ _ _ Hsetup) as (_ & _ & Hcases).
  destruct (exists_ fs (parts root_dir)).
  - destruct Hcases as [-> ->]. by repeat split.
  - destruct Hcases as [-> Hmk]. destruct (makedirs_spec _ _ _ _ Hmk) as [Hdir Hkeep].
    by repeat split.
Qed.

Lemma setup_root_keeps_files_witness :
  (exists mtime es, lookup_node created_tree ["srv"; "new"; "root"] = Some (Dir mtime es))
  /\ lookup_node created_tree ["etc"; "passwd"] = Some (File 50 (bytes_of "root:x:0:0")).
Proof.
  destruct (setup_root_keeps_files [] 7 new_root_arguments example_tree
              [Print "Creating root: /srv/new/root"; Mkdir (mkPath "/" ["srv"; "new"; "root"])]
              (mkPath "/" ["srv"; "new"; "root"]) created_tree)
    as (_ & Hnew & Hkeep).
  - vm_compute. reflexivity.
  - split.
    + apply Hnew. vm_compute. reflexivity.
    + apply Hkeep; [vm_compute; reflexivity|done].
Defined.

(** ** The header of a client is accepted *)

Lemma forallb_seqZ (f : Z -> bool) (lo len : Z) :
  forallb f (seqZ lo len) = true -> forall n, lo <= n < lo + len -> f n = true.
Proof.
  intros H n Hn. apply (proj1 (forallb_forall f (seqZ lo len)) H).
  apply list_elem_of_In, elem_of_seqZ. lia.
Qed.

Lemma Z_of_byte_range (b : byte) : 0 <= Z_of_byte b < 256.
Proof.
  unfold Z_of_byte. pose proof (Byte.to_N_bounded b) as H. lia.
Qed.

Lemma Z_of_byte_of_Z (n : Z) : 0 <= n < 256 -> Z_of_byte (byte_of_Z n) = n.
Proof.
  intros Hn. apply Z.eqb_eq.
  apply (forallb_seqZ (fun n => Z_of_byte (byte_of_Z n) =? n) 0 256); [|lia].
  vm_compute. reflexivity.
Qed.

Lemma byte_of_Z_of_byte (b : byte) : byte_of_Z (Z_of_byte b) = b.
Proof. by destruct b. Qed.

Lemma table_round_trip (v : Z) :
  0 <= v < 64 ->
  table_a2b_base64 (table_b2a_base64 v) = Some v
  /\ bool_decide (table_b2a_base64 v = BASE64_PAD) = false
  /\ (ord (table_b2a_base64 v) <? 128) = true
  /\ isspace (table_b2a_base64 v) = false.
Proof.
  intros Hv.
  assert (Hall : forallb
            (fun v => bool_decide (table_a2b_base64 (table_b2a_base64 v) = Some v)
                      && negb (bool_decide (table_b2a_base64 v = BASE64_PAD))
                      && (ord (table_b2a_base64 v) <? 128)
                      && negb (isspace (table_b2a_base64 v))) (seqZ 0 64) = true)
    by (vm_compute; reflexivity).
  pose proof (forallb_seqZ _ 0 64 Hall v ltac:(lia)) as H.
  cbv beta in H. rewrite !andb_true_iff, !negb_true_iff in H.
  destruct H as [[[H1 H2] H3] H4]. by apply bool_decide_eq_true_1 in H1.
Qed.

(** Decoding one character of the alphabet. *)
Lemma a2b_base64_loop_value (v : Z) (l : list ascii) (quad_pos leftchar pads : Z) :
  0 <= v < 64 ->
  a2b_base64_loop (table_b2a_base64 v :: l) quad_pos leftchar pads =
  if quad_pos =? 0 then a2b_base64_loop l 1 v 0
  else if quad_pos =? 1 then
    out ← a2b_base64_loop l 2 (Z.land v 15) 0;
    Ret (byte_of_Z (Z.lor (Z.shiftl leftchar 2) (Z.shiftr v 4)) :: out)
  else if quad_pos =? 2 then
    out ← a2b_base64_loop l 3 (Z.land v 3) 0;
    Ret (byte_of_Z (Z.lor (Z.shiftl leftchar 4) (Z.shiftr v 2)) :: out)
  else
    out ← a2b_base64_loop l 0 0 0;
    Ret (byte_of_Z (Z.lor (Z.shiftl leftchar 6) v) :: out).
Proof.
  intros Hv. destruct (table_round_trip v Hv) as (Hval & Hpad & _).
  cbn [a2b_base64_loop]. by rewrite Hpad, Hval.
Qed.

(** The first two characters of a group give the first byte back. *)
Lemma sextets_first (a b : Z) :
  0 <= a < 256 -> 0 <= b < 256 ->
  let v0 := Z.shiftr a 2 in
  let v1 := Z.lor (Z.shiftl (Z.land a 3) 4) (Z.shiftr b 4) in
  0 <= v0 < 64 /\ 0 <= v1 < 64
  /\ Z.lor (Z.shiftl v0 2) (Z.shiftr v1 4) = a
  /\ Z.land v1 15 = Z.shiftr b 4.
Proof.
  intros Ha Hb.
  pose proof (forallb_seqZ
    (fun a => forallb
       (fun b =>
          let v0 := Z.shiftr a 2 in
          let v1 := Z.lor (Z.shiftl (Z.land a 3) 4) (Z.shiftr b 4) in
          (0 <=? v0) && (v0 <? 64) && (0 <=? v1) && (v1 <? 64)
          && (Z.lor (Z.shiftl v0 2) (Z.shiftr v1 4) =? a)
          && (Z.land v1 15 =? Z.shiftr b 4)) (seqZ 0 256)) 0 256
    ltac:(vm_compute; reflexivity) a ltac:(lia)) as H.
  cbv beta in H. pose proof (forallb_seqZ _ 0 256 H b ltac:(lia)) as H'.
  cbv beta zeta in H'. rewrite !andb_true_iff in H'.
  destruct H' as [[[[[H1 H2] H3] H4] H5] H6].
  cbv zeta. apply Z.leb_le in H1, H3. apply Z.ltb_lt in H2, H4. apply Z.eqb_eq in H5, H6.
  done.
Qed.

(** The second and third characters give the second byte back. *)
Lemma sextets_second (b c : Z) :
  0 <= b < 256 -> 0 <= c < 256 ->
  let v2 := Z.lor (Z.shiftl (Z.land b 15) 2) (Z.shiftr c 6) in
  0 <= v2 < 64
  /\ Z.lor (Z.shiftl (Z.shiftr b 4) 4) (Z.shiftr v2 2) = b
  /\ Z.land v2 3 = Z.shiftr c 6.
Proof.
  intros Hb Hc.
  pose proof (forallb_seqZ
    (fun b => forallb
       (fun c =>
          let v2 := Z.lor (Z.shiftl (Z.land b 15) 2) (Z.shiftr c 6) in
          (0 <=? v2) && (v2 <? 64)
          && (Z.lor (Z.shiftl (Z.shiftr b 4) 4) (Z.shiftr v2 2) =? b)
          && (Z.land v2 3 =? Z.shiftr c 6)) (seqZ 0 256)) 0 256
    ltac:(vm_compute; reflexivity) b ltac:(lia)) as H.
  cbv beta in H. pose proof (forallb_seqZ _ 0 256 H c ltac:(lia)) as H'.
  cbv beta zeta in H'. rewrite !andb_true_iff in H'.
  destruct H' as [[[H1 H2] H3] H4].
  cbv zeta. apply Z.leb_le in H1. apply Z.ltb_lt in H2. apply Z.eqb_eq in H3, H4.
  done.
Qed.

(** The third and fourth characters give the third byte back. *)
Lemma sextets_third (c : Z) :
  0 <= c < 256 ->
  0 <= Z.land c 63 < 64 /\ Z.lor (Z.shiftl (Z.shiftr c 6) 6) (Z.land c 63) = c.
Proof.
  intros Hc.
  pose proof (forallb_seqZ
    (fun c => (0 <=? Z.land c 63) && (Z.land c 63 <? 64)
              && (Z.lor (Z.shiftl (Z.shiftr c 6) 6) (Z.land c 63) =? c)) 0 256
    ltac:(vm_compute; reflexivity) c ltac:(lia)) as H.
  cbv beta in H. rewrite !andb_true_iff in H. destruct H as [[H1 H2] H3].
  apply Z.leb_le in H1. apply Z.ltb_lt in H2. apply Z.eqb_eq in H3. done.
Qed.

Lemma b2a_base64_three (x y z : byte) (data : list byte) :
  b2a_base64 (x :: y :: z :: data) =
  table_b2a_base64 (Z.shiftr (Z_of_byte x) 2)
  :: table_b2a_base64 (Z.lor (Z.shiftl (Z.land (Z_of_byte x) 3) 4) (Z.shiftr (Z_of_byte y) 4))
  :: table_b2a_base64 (Z.lor (Z.shiftl (Z.land (Z_of_byte y) 15) 2) (Z.shiftr (Z_of_byte z) 6))
  :: table_b2a_base64 (Z.land (Z_of_byte z) 63)
  :: b2a_base64 data.
Proof. reflexivity. Qed.

(** Decoding what [b2a_base64] wrote gives the bytes back. *)
Lemma a2b_base64_b2a_base64 (n : nat) :
  forall data : list byte, (length data <= n)%nat ->
    a2b_base64_loop (b2a_base64 data) 0 0 0 = Ret data.
Proof.
  induction n as [|n IH]; intros data Hlen.
  - destruct data; [done|simpl in Hlen; lia].
  - destruct data as [|x [|y [|z data]]].
    + done.
    + pose proof (Z_of_byte_range x) as Hx.
      destruct (sextets_first (Z_of_byte x) 0 Hx ltac:(lia)) as (H0 & H1 & Hfirst & _).
      cbv zeta in H1, Hfirst. change (Z.shiftr 0 4) with 0 in H1, Hfirst.
      rewrite Z.lor_0_r in H1, Hfirst.
      cbn [b2a_base64]. rewrite (a2b_base64_loop_value _ _ 0 0 0 H0). cbn [Z.eqb].
      rewrite (a2b_base64_loop_value _ _ 1 _ 0 H1). cbn [Z.eqb Pos.eqb].
      rewrite Hfirst, byte_of_Z_of_byte.
      rewrite (a2b_base64_loop_pad BASE64_PAD [BASE64_PAD] 2 _ 0) by done.
      change ((2 <=? 2) && (4 <=? 2 + (0 + 1))) with false. cbv iota.
      change (if 2 <=? 2 then 0 + 1 else 0) with 1.
      by rewrite (a2b_base64_loop_pad BASE64_PAD [] 2 _ 1) by done.
    + pose proof (Z_of_byte_range x) as Hx. pose proof (Z_of_byte_range y) as Hy.
      destruct (sextets_first (Z_of_byte x) (Z_of_byte y) Hx Hy) as (H0 & H1 & Hfirst & Hleft).
      destruct (sextets_second (Z_of_byte y) 0 Hy ltac:(lia)) as (H2 & Hsecond & _).
      cbv zeta in H1, Hfirst, Hleft, H2, Hsecond.
      change (Z.shiftr 0 6) with 0 in H2, Hsecond. rewrite Z.lor_0_r in H2, Hsecond.
      cbn [b2a_base64]. rewrite (a2b_base64_loop_value _ _ 0 0 0 H0). cbn [Z.eqb].
      rewrite (a2b_base64_loop_value _ _ 1 _ 0 H1). cbn [Z.eqb Pos.eqb].
      rewrite Hfirst, byte_of_Z_of_byte, Hleft.
      rewrite (a2b_base64_loop_value _ _ 2 _ 0 H2). cbn [Z.eqb Pos.eqb].
      rewrite Hsecond, byte_of_Z_of_byte.
      by rewrite (a2b_base64_loop_pad BASE64_PAD [] 3 _ 0) by done.
    + pose proof (Z_of_byte_range x) as Hx. pose proof (Z_of_byte_range y) as Hy.
      pose proof (Z_of_byte_range z) as Hz.
      destruct (sextets_first (Z_of_byte x) (Z_of_byte y) Hx Hy) as (H0 & H1 & Hfirst & Hleft).
      destruct (sextets_second (Z_of_byte y) (Z_of_byte z) Hy Hz) as (H2 & Hsecond & Hleft').
      destruct (sextets_third (Z_of_byte z) Hz) as (H3 & Hthird).
      cbv zeta in H1, Hfirst, Hleft, H2, Hsecond, Hleft'.
      rewrite b2a_base64_three.
      rewrite (a2b_base64_loop_value _ _ 0 0 0 H0). cbn [Z.eqb].
      rewrite (a2b_base64_loop_value _ _ 1 _ 0 H1). cbn [Z.eqb Pos.eqb].
      rewrite Hfirst, byte_of_Z_of_byte, Hleft.
      rewrite (a2b_base64_loop_value _ _ 2 _ 0 H2). cbn [Z.eqb Pos.eqb].
      rewrite Hsecond, byte_of_Z_of_byte, Hleft'.
      rewrite (a2b_base64_loop_value _ _ 3 _ 0 H3). cbn [Z.eqb Pos.eqb].
      rewrite Hthird, byte_of_Z_of_byte.
      rewrite IH by (simpl in Hlen; lia). done.
Qed.

Lemma b2a_base64_ascii (n : nat) :
  forall data : list byte, (length data <= n)%nat ->
    forallb (fun c => ord c <? 128) (b2a_base64 data) = true.
Proof.
  induction n as [|n IH]; intros data Hlen.
  - destruct data; [done|simpl in Hlen; lia].
  - destruct data as [|x [|y [|z data]]]; [done| | |].
    + pose proof (Z_of_byte_range x) as Hx.
      destruct (sextets_first (Z_of_byte x) 0 Hx ltac:(lia)) as (H0 & H1 & _).
      cbv zeta in H1. change (Z.shiftr 0 4) with 0 in H1. rewrite Z.lor_0_r in H1.
      destruct (table_round_trip _ H0) as (_ & _ & A0 & _).
      destruct (table_round_trip _ H1) as (_ & _ & A1 & _).
      cbn [b2a_base64 forallb]. by rewrite A0, A1.
    + pose proof (Z_of_byte_range x) as Hx. pose proof (Z_of_byte_range y) as Hy.
      destruct (sextets_first (Z_of_byte x) (Z_of_byte y) Hx Hy) as (H0 & H1 & _).
      destruct (sextets_second (Z_of_byte y) 0 Hy ltac:(lia)) as (H2 & _).
      cbv zeta in H1, H2. change (Z.shiftr 0 6) with 0 in H2. rewrite Z.lor_0_r in H2.
      destruct (table_round_trip _ H0) as (_ & _ & A0 & _).
      destruct (table_round_trip _ H1) as (_ & _ & A1 & _).
      destruct (table_round_trip _ H2) as (_ & _ & A2 & _).
      cbn [b2a_base64 forallb]. by rewrite A0, A1, A2.
    + pose proof (Z_of_byte_range x) as Hx. pose proof (Z_of_byte_range y) as Hy.
      pose proof (Z_of_byte_range z) as Hz.
      destruct (sextets_first (Z_of_byte x) (Z_of_byte y) Hx Hy) as (H0 & H1 & _).
      destruct (sextets_second (Z_of_byte y) (Z_of_byte z) Hy Hz) as (H2 & _).
      destruct (sextets_third (Z_of_byte z) Hz) as (H3 & _).
      cbv zeta in H1, H2.
      destruct (table_round_trip _ H0) as (_ & _ & A0 & _).
      destruct (table_round_trip _ H1) as (_ & _ & A1 & _).
      destruct (table_round_trip _ H2) as (_ & _ & A2 & _).
      destruct (table_round_trip _ H3) as (_ & _ & A3 & _).
      rewrite b2a_base64_three. cbn [forallb]. rewrite A0, A1, A2, A3. cbn [andb].
      apply IH. simpl in Hlen. lia.
Qed.

Lemma b2a_base64_head (data : list byte) :
  data <> [] -> exists c l, b2a_base64 data = c :: l /\ isspace c = false.
Proof.
  intros Hne. destruct data as [|x data]; [done|].
  pose proof (Z_of_byte_range x) as Hx.
  destruct (sextets_first (Z_of_byte x) 0 Hx ltac:(lia)) as (H0 & _).
  destruct (table_round_trip _ H0) as (_ & _ & _ & S0).
  destruct data as [|y [|z data]]; eexists _, _; (split; [reflexivity|exact S0]).
Qed.

(** [b64decode] after [b64encode] is the identity. *)
Lemma b64decode_b64encode (data : list byte) : b64decode (b64encode data) = Ret data.
Proof.
  unfold b64decode, b64encode, isascii, a2b_base64.
  rewrite list_ascii_of_string_of_list_ascii.
  rewrite (b2a_base64_ascii _ data (Nat.le_refl _)).
  apply (a2b_base64_b2a_base64 _ data (Nat.le_refl _)).
Qed.

(** [lia] with the equations of the divisions and remainders at hand. *)
Ltac dlia := Z.div_mod_to_equations; lia.

(** [decode("utf-8")] after [encode("utf-8")], one code point at a time. *)
Lemma utf8_decode_encode_char (c : Z) (rest : list byte) :
  is_scalar c = true ->
  utf8_decode (utf8_encode_char c ++ rest) = cs ← utf8_decode rest; Ret (c :: cs).
Proof.
  unfold is_scalar. rewrite orb_true_iff, !andb_true_iff, !Z.leb_le, Z.ltb_lt.
  intros Hc. unfold utf8_encode_char.
  destruct (c <? 128) eqn:H1; [apply Z.ltb_lt in H1|apply Z.ltb_ge in H1].
  { cbn [Datatypes.app utf8_decode]. rewrite Z_of_byte_of_Z by dlia.
    by rewrite (proj2 (Z.ltb_lt _ _) H1). }
  destruct (c <? 2048) eqn:H2; [apply Z.ltb_lt in H2|apply Z.ltb_ge in H2].
  { cbn [Datatypes.app utf8_decode]. rewrite !Z_of_byte_of_Z by dlia.
    rewrite (proj2 (Z.ltb_ge _ _)) by dlia.
    replace ((194 <=? 192 + c / 64) && (192 + c / 64 <=? 223)) with true
      by (symmetry; apply andb_true_iff; split; apply Z.leb_le; dlia).
    unfold is_continuation.
    replace ((128 <=? 128 + c mod 64) && (128 + c mod 64 <=? 191)) with true
      by (symmetry; apply andb_true_iff; split; apply Z.leb_le; dlia).
    destruct (utf8_decode rest) as [cs|e]; [|done]. simpl. do 2 f_equal. dlia. }
  destruct (c <? 65536) eqn:H3; [apply Z.ltb_lt in H3|apply Z.ltb_ge in H3].
  { cbn [Datatypes.app utf8_decode]. rewrite !Z_of_byte_of_Z by dlia.
    rewrite (proj2 (Z.ltb_ge _ _)) by dlia.
    replace ((194 <=? 224 + c / 4096) && (224 + c / 4096 <=? 223)) with false
      by (symmetry; apply andb_false_iff; right; apply Z.leb_gt; dlia).
    replace ((224 <=? 224 + c / 4096) && (224 + c / 4096 <=? 239)) with true
      by (symmetry; apply andb_true_iff; split; apply Z.leb_le; dlia).
    unfold is_continuation.
    replace ((128 <=? 128 + c mod 64) && (128 + c mod 64 <=? 191)) with true
      by (symmetry; apply andb_true_iff; split; apply Z.leb_le; dlia).
    match goal with
    | |- context [(?lo <=? ?b) && (?b <=? ?hi) && true] =>
        replace ((lo <=? b) && (b <=? hi)) with true
    end.
    - destruct (utf8_decode rest) as [cs|e]; [|done]. simpl. do 2 f_equal. dlia.
    - symmetry. apply andb_true_iff. split; apply Z.leb_le.
      + destruct (224 + c / 4096 =? 224) eqn:E; [apply Z.eqb_eq in E|]; dlia.
      + destruct (224 + c / 4096 =? 237) eqn:E; [apply Z.eqb_eq in E|]; dlia. }
  cbn [Datatypes.app utf8_decode]. rewrite !Z_of_byte_of_Z by dlia.
  rewrite (proj2 (Z.ltb_ge _ _)) by dlia.
  replace ((194 <=? 240 + c / 262144) && (240 + c / 262144 <=? 223)) with false
    by (symmetry; apply andb_false_iff; right; apply Z.leb_gt; dlia).
  replace ((224 <=? 240 + c / 262144) && (240 + c / 262144 <=? 239)) with false
    by (symmetry; apply andb_false_iff; right; apply Z.leb_gt; dlia).
  replace ((240 <=? 240 + c / 262144) && (240 + c / 262144 <=? 244)) with true
    by (symmetry; apply andb_true_iff; split; apply Z.leb_le; dlia).
  unfold is_continuation.
  replace ((128 <=? 128 + c mod 64) && (128 + c mod 64 <=? 191)) with true
    by (symmetry; apply andb_true_iff; split; apply Z.leb_le; dlia).
  replace ((128 <=? 128 + c / 64 mod 64) && (128 + c / 64 mod 64 <=? 191)) with true
    by (symmetry; apply andb_true_iff; split; apply Z.leb_le; dlia).
  match goal with
  | |- context [(?lo <=? ?b) && (?b <=? ?hi) && true && true] =>
      replace ((lo <=? b) && (b <=? hi)) with true
  end.
  - destruct (utf8_decode rest) as [cs|e]; [|done]. simpl. do 2 f_equal. dlia.
  - symmetry. apply andb_true_iff. split; apply Z.leb_le.
    + destruct (240 + c / 262144 =? 240) eqn:E; [apply Z.eqb_eq in E|]; dlia.
    + destruct (240 + c / 262144 =? 244) eqn:E; [apply Z.eqb_eq in E|]; dlia.
Qed.

Lemma utf8_decode_encode (s : ustr) :
  forallb is_scalar s = true -> utf8_decode (utf8_encode s) = Ret s.
Proof.
  induction s as [|c s IH]; [done|]. cbn [forallb]. rewrite andb_true_iff. intros [Hc Hs].
  unfold utf8_encode. cbn [flat_map]. fold (utf8_encode s).
  by rewrite (utf8_decode_encode_char c _ Hc), (IH Hs).
Qed.

Lemma utf8_encode_nonempty (s : ustr) : s <> [] -> utf8_encode s <> [].
Proof.
  destruct s as [|c s]; [done|]. intros _. unfold utf8_encode. cbn [flat_map].
  unfold utf8_encode_char. by repeat case_match.
Qed.

Lemma str_split_1_basic (c : ascii) (s : string) :
  isspace c = false -> str_split_1 ("Basic " +:+ String c s) = ["Basic"; String c s].
Proof.
  intros Hc. unfold str_split_1.
  change ("Basic " +:+ String c s)
    with (String "B" (String "a" (String "s" (String "i" (String "c"
            (String " " (String c s))))))).
  cbn [str_lstrip]. change (isspace "B") with false. cbv iota.
  cbn [span_word]. change (isspace "B") with false. change (isspace "a") with false.
  change (isspace "s") with false. change (isspace "i") with false.
  change (isspace "c") with false. change (isspace " ") with true. cbv iota beta.
  cbn [str_lstrip]. change (isspace " ") with true. cbv iota. by rewrite Hc.
Qed.

(** X15: the header a client makes of a credential is accepted exactly when
    that credential is the configured one: [check_auth_header] decodes
    the header to the client's credential and compares. *)
Theorem standard_header_accepted (cred : ustr) :
  cred <> [] -> forallb is_scalar cred = true ->
  carries_credential cred (Some (basic_header cred))
  /\ (forall AUTH : option ustr,
        check_auth_header AUTH (Some (basic_header cred))
        = Ret (bool_decide (Some cred = AUTH)))
  /\ (forall cfg req func,
        AUTH cfg = Some cred -> authorization req = Some (basic_header cred) ->
        requires_auth cfg req func = func).
Proof.
  intros Hne Hscalar.
  destruct (b2a_base64_head (utf8_encode cred) (utf8_encode_nonempty cred Hne))
    as (c & l & Hhead & Hc).
  assert (Hb64 : b64encode (utf8_encode cred) = String c (string_of_list_ascii l)).
  { unfold b64encode. by rewrite Hhead. }
  assert (Hsplit : str_split_1 (basic_header cred)
                   = ["Basic"; b64encode (utf8_encode cred)]).
  { unfold basic_header. rewrite Hb64. by apply str_split_1_basic. }
  assert (Hcheck : forall AUTH : option ustr,
             check_auth_header AUTH (Some (basic_header cred))
             = Ret (bool_decide (Some cred = AUTH))).
  { intros AUTH. rewrite check_auth_header_unfold.
    rewrite bool_decide_eq_false_2 by (intros Hempty; by rewrite Hempty in Hsplit).
    rewrite Hsplit. cbn [unpack2 mbind result_mbind result_bind try_except].
    change (str_lower "Basic") with "basic". rewrite bool_decide_eq_true_2 by done.
    cbn [negb]. rewrite b64decode_b64encode. cbn [mbind result_mbind result_bind].
    by rewrite (utf8_decode_encode cred Hscalar). }
  assert (Hcarries : carries_credential cred (Some (basic_header cred))).
  { apply check_auth_header_true. rewrite Hcheck. by rewrite bool_decide_eq_true_2. }
  split; [done|]. split; [done|].
  intros cfg req func HA Hh. apply (requires_auth_guarded cfg req func cred HA).
  by rewrite Hh.
Qed.

Lemma standard_header_accepted_witness :
  check_auth_header (Some admin_admin) (Some (basic_header admin_admin))
  = Ret (bool_decide (Some admin_admin = Some admin_admin))
  /\ basic_header admin_admin = "Basic YWRtaW46YWRtaW4=".
Proof.
  split; [|vm_compute; reflexivity].
  apply (proj1 (proj2 (standard_header_accepted admin_admin ltac:(done) eq_refl))).
Defined.

(** ** What the decoder of the gate does not look at *)

Lemma a2b_base64_loop_filter (l : list ascii) :
  forall quad_pos leftchar pads,
    a2b_base64_loop l quad_pos leftchar pads
    = a2b_base64_loop (List.filter (fun c => is_pad c || in_alphabet c) l)
        quad_pos leftchar pads.
Proof.
  induction l as [|c l IH]; intros quad_pos leftchar pads; [done|].
  cbn [List.filter]. unfold is_pad at 1, in_alphabet at 1.
  destruct (bool_decide (c = BASE64_PAD)) eqn:Hpad.
  - cbn [orb a2b_base64_loop]. rewrite Hpad. by destruct (_ && _).
  - cbn [orb]. destruct (table_a2b_base64 c) as [v|] eqn:Hv.
    + cbn [a2b_base64_loop]. rewrite Hpad, Hv.
      repeat case_match; try done; by rewrite IH.
    + cbn [a2b_base64_loop]. by rewrite Hpad, Hv.
Qed.

(** X16: the gate decodes the credential portion without validation: of an
    ASCII portion only the characters of the base64 alphabet and the pads
    count, so two headers with the same scheme whose portions agree on
    those characters get the same answer; a portion with a character
    that is not ASCII is rejected. *)
Theorem gate_ignores_other_characters (AUTH : option ustr) (h typ creds : string) :
  str_split_1 h = [typ; creds] ->
  (isascii creds = false -> check_auth_header AUTH (Some h) = Ret false)
  /\ (isascii creds = true ->
      forall h' creds',
        str_split_1 h' = [typ; creds'] -> isascii creds' = true ->
        base64_relevant creds = base64_relevant creds' ->
        check_auth_header AUTH (Some h) = check_auth_header AUTH (Some h')).
Proof.
  intros Hsplit.
  assert (Hne : forall s t c, str_split_1 s = [t; c] -> s <> EmptyString).
  { intros s t c Hs ->. discriminate Hs. }
  split.
  - intros Hascii. rewrite check_auth_header_unfold.
    rewrite bool_decide_eq_false_2 by by apply (Hne h typ creds).
    rewrite Hsplit. cbn [unpack2 mbind result_mbind result_bind].
    destruct (negb (bool_decide (str_lower typ = "basic"))); [done|].
    unfold b64decode. by rewrite Hascii.
  - intros Hascii h' creds' Hsplit' Hascii' Hrel.
    rewrite !check_auth_header_unfold.
    rewrite !bool_decide_eq_false_2 by (by apply (Hne h typ creds) || by apply (Hne h' typ creds')).
    rewrite Hsplit, Hsplit'. cbn [unpack2 mbind result_mbind result_bind].
    destruct (negb (bool_decide (str_lower typ = "basic"))); [done|].
    unfold b64decode, a2b_base64. rewrite Hascii, Hascii'.
    rewrite (a2b_base64_loop_filter (list_ascii_of_string creds)).
    rewrite (a2b_base64_loop_filter (list_ascii_of_string creds')).
    unfold base64_relevant in Hrel. by rewrite Hrel.
Qed.

Lemma gate_ignores_other_characters_witness :
  check_auth_header (Some admin_admin) (Some "Basic YWRt aW46*YWRtaW4=")
  = check_auth_header (Some admin_admin) (Some "Basic YWRtaW46YWRtaW4=")
  /\ check_auth_header (Some admin_admin) (Some "Basic YWRtaW46YWRtaW4=") = Ret true.
Proof.
  split; [|vm_compute; reflexivity].
  apply (proj2 (gate_ignores_other_characters (Some admin_admin) "Basic YWRt aW46*YWRtaW4="
                  "Basic" "YWRt aW46*YWRtaW4=" eq_refl) eq_refl
           "Basic YWRtaW46YWRtaW4=" "YWRtaW46YWRtaW4=" eq_refl eq_refl eq_refl).
Defined.

(** ** Search: the query, and what is found *)

Lemma lower_char_facts (c : ascii) :
  lower_char (lower_char c) = lower_char c /\ isspace (lower_char c) = isspace c.
Proof. destruct c as [[] [] [] [] [] [] [] []]; split; vm_compute; reflexivity. Qed.

Lemma str_lower_idem (s : string) : str_lower (str_lower s) = str_lower s.
Proof.
  induction s as [|c s IH]; [done|]. simpl.
  by rewrite (proj1 (lower_char_facts c)), IH.
Qed.

Lemma str_lstrip_lower (s : string) : str_lstrip (str_lower s) = str_lower (str_lstrip s).
Proof.
  induction s as [|c s IH]; [done|]. simpl. rewrite (proj2 (lower_char_facts c)).
  by destruct (isspace c).
Qed.

Lemma str_rstrip_aux_lower (s : string) :
  str_rstrip_aux (str_lower s) = (str_lower (str_rstrip_aux s).1, (str_rstrip_aux s).2).
Proof.
  induction s as [|c s IH]; [done|]. simpl. rewrite IH, (proj2 (lower_char_facts c)).
  destruct (str_rstrip_aux s) as [t blank]. simpl. by destruct (blank && isspace c).
Qed.

Lemma str_strip_lower (s : string) : str_strip (str_lower s) = str_lower (str_strip s).
Proof. unfold str_strip, str_rstrip. by rewrite str_lstrip_lower, str_rstrip_aux_lower. Qed.

Lemma str_rstrip_aux_idem (s : string) :
  str_rstrip_aux (str_rstrip_aux s).1 = str_rstrip_aux s.
Proof.
  induction s as [|c s IH]; [done|]. simpl.
  destruct (str_rstrip_aux s) as [t blank] eqn:Haux. simpl in IH.
  destruct (blank && isspace c) eqn:Hb; [done|]. simpl. by rewrite IH, Hb.
Qed.

Lemma str_rstrip_head (c : ascii) (s : string) :
  isspace c = false -> exists t, str_rstrip (String c s) = String c t.
Proof.
  intros Hc. unfold str_rstrip. simpl. destruct (str_rstrip_aux s) as [t blank].
  rewrite Hc, andb_false_r. by exists t.
Qed.

Lemma str_lstrip_head (s : string) :
  str_lstrip s = EmptyString \/ exists c t, str_lstrip s = String c t /\ isspace c = false.
Proof.
  induction s as [|c s IH]; [by left|]. simpl.
  destruct (isspace c) eqn:Hc; [done|]. right. by exists c, s.
Qed.

Lemma str_strip_idem (s : string) : str_strip (str_strip s) = str_strip s.
Proof.
  unfold str_strip at 1 3.
  assert (Hl : str_lstrip (str_rstrip (str_lstrip s)) = str_rstrip (str_lstrip s)).
  { destruct (str_lstrip_head s) as [-> | (c & t & -> & Hc)]; [done|].
    destruct (str_rstrip_head c t Hc) as [t' ->]. simpl. by rewrite Hc. }
  unfold str_strip. rewrite Hl. unfold str_rstrip. by rewrite str_rstrip_aux_idem.
Qed.

(** X17: the answer to a search depends on the query only through the query
    stripped of surrounding white space and lower-cased: the query in any
    letter case, with or without white space around it, and the query
    already brought to that form all get the same answer. *)
Theorem search_query_normalised (format_mtime : Z -> string) (getcwd : list string)
    (cfg : config) (fs : node) (header : option string) (q : string) :
  let answer q := app format_mtime getcwd cfg fs (mkRequest (search_route (Some q)) header) in
  answer (str_lower (str_strip q)) = answer q
  /\ answer (str_lower q) = answer q
  /\ answer (str_strip q) = answer q.
Proof.
  cbv zeta.
  assert (Hview : forall q1 q2,
             str_lower (str_strip q1) = str_lower (str_strip q2) ->
             app format_mtime getcwd cfg fs (mkRequest (search_route (Some q1)) header)
             = app format_mtime getcwd cfg fs (mkRequest (search_route (Some q2)) header)).
  { intros q1 q2 Hq. unfold app, api_search. cbn [url]. f_equal.
    rewrite (requires_auth_header cfg (mkRequest (search_route (Some q1)) header)
               (mkRequest (search_route (Some q2)) header)) by done.
    f_equal. unfold api_search_view. cbn [default from_option id]. by rewrite Hq. }
  split; [|split]; apply Hview.
  - by rewrite str_strip_lower, str_strip_idem, str_lower_idem.
  - by rewrite str_strip_lower, str_lower_idem.
  - by rewrite str_strip_idem.
Qed.



(** ** The statuses of the application *)

Lemma float_of_int_raises (n : Z) (e : exn) : float_of_int n = Raise e -> e = OverflowError.
Proof. unfold float_of_int. repeat case_match; try done; by intros [= <-]. Qed.

Lemma human_size_loop_raises (us : list string) :
  forall x e, human_size_loop us x = Raise e -> e = OverflowError.
Proof.
  assert (Hfmt : forall x e s, (s' ← format_1f x; Ret (s' +:+ s)) = Raise e -> e = OverflowError).
  { intros [z|x] e s; [|done]. simpl.
    destruct (float_of_int z) as [y|e'] eqn:Hy; [done|]. simpl. intros [= <-].
    by apply (float_of_int_raises z). }
  induction us as [|u us IH]; intros x e; cbn [human_size_loop]; [apply Hfmt|].
  destruct (number_lt x 1024); [apply Hfmt|].
  destruct x as [z|x]; cbn [number_div]; [|apply IH].
  destruct (float_of_int z) as [y|e'] eqn:Hy; simpl; [apply IH|].
  intros [= <-]. by apply (float_of_int_raises z).
Qed.

Lemma list_dir_loop_raises (format_mtime : Z -> string) (fs : node) (rel_path : string)
    (p : PurePath) (children : list string) :
  forall dirs0 files0 e,
    list_dir_loop format_mtime fs rel_path p children dirs0 files0 = Raise e ->
    not_found_or_error e.
Proof.
  induction children as [|child children IH]; intros dirs0 files0 e; [done|].
  cbn [list_dir_loop].
  destruct (is_dir fs (parts p ++ [child])).
  - destruct (os_stat fs (parts p ++ [child])) as [st|e'] eqn:Hst; simpl; [apply IH|].
    intros [= <-]. by destruct (os_stat_raises _ _ _ Hst) as [->|[->| ->]].
  - destruct (is_file fs (parts p ++ [child])); [|apply IH].
    destruct (os_stat fs (parts p ++ [child])) as [st|e'] eqn:Hst; simpl;
      [|intros [= <-]; by destruct (os_stat_raises _ _ _ Hst) as [->|[->| ->]]].
    destruct (human_size (st_size st)) as [s|e'] eqn:Hs; simpl; [apply IH|].
    intros [= <-]. by rewrite (human_size_loop_raises _ _ _ Hs).
Qed.

Lemma safe_resolve_raises_ok (getcwd : list string) (fs : node) (root_dir : PurePath)
    (p : string) (e : exn) :
  safe_resolve getcwd fs root_dir p = Raise e -> not_found_or_error e.
Proof. intros H. by destruct (safe_resolve_raises _ _ _ _ _ H) as [-> | [-> | ->]]. Qed.

Lemma list_dir_raises (format_mtime : Z -> string) (getcwd : list string) (fs : node)
    (root_dir : PurePath) (rel_path : string) (e : exn) :
  list_dir format_mtime getcwd fs root_dir rel_path = Raise e -> not_found_or_error e.
Proof.
  unfold list_dir.
  destruct (safe_resolve getcwd fs root_dir rel_path) as [p|e'] eqn:Hp; simpl;
    [|intros [= <-]; by apply (safe_resolve_raises_ok _ _ _ _ _ Hp)].
  destruct (negb (exists_ fs (parts p)) || negb (is_dir fs (parts p))); [by intros [= <-]|].
  destruct (list_dir_loop _ _ _ _ _ _ _) as [[ds fs']|e'] eqn:Hloop; simpl; [done|].
  intros [= <-]. by apply (list_dir_loop_raises _ _ _ _ _ _ _ _ Hloop).
Qed.

Lemma build_index_files_raises (format_mtime : Z -> string) (fs : node) (root_p : PurePath)
    (rel_root : string) (files : list string) :
  forall out e,
    build_index_files format_mtime fs root_p rel_root files out = Raise e ->
    not_found_or_error e.
Proof.
  induction files as [|f files IH]; intros out e; [done|]. cbn [build_index_files].
  destruct (os_stat fs (parts (joinpath root_p f))) as [st|e'] eqn:Hst; simpl;
    [|intros [= <-]; by destruct (os_stat_raises _ _ _ Hst) as [->|[->| ->]]].
  destruct (human_size (st_size st)) as [s|e'] eqn:Hs; simpl; [apply IH|].
  intros [= <-]. by rewrite (human_size_loop_raises _ _ _ Hs).
Qed.

Lemma build_index_raises (format_mtime : Z -> string) (fs : node) (root_dir : PurePath)
    (e : exn) :
  build_index format_mtime fs root_dir = Raise e -> not_found_or_error e.
Proof.
  unfold build_index. generalize (@nil file_entry), (os_walk fs (parts root_dir)).
  intros out walk. revert out.
  induction walk as [|[[top ds] files] walk IH]; intros out; [done|]. cbn [build_index_loop].
  destruct (relative_to (mkPath "/" top) root_dir) as [rel|e'] eqn:Hrel; simpl.
  - destruct (build_index_files _ _ _ _ _ _) as [out'|e'] eqn:Hfiles; simpl; [apply IH|].
    intros [= <-]. by apply (build_index_files_raises _ _ _ _ _ _ _ Hfiles).
  - intros [= <-]. unfold relative_to in Hrel. destruct (_ && _); [done|].
    by injection Hrel as <-.
Qed.

Lemma view_answers_status (r : result response) :
  view_answers r ->
  let s := status (handle_exception r) in s = 200 \/ s = 302 \/ s = 404 \/ s = 500.
Proof.
  destruct r as [resp|e]; simpl.
  - intros [H|H]; [by left|by right; left].
  - destruct e; simpl; try (intros _; by right; right; right).
    intros ->. by right; right; left.
Qed.

Lemma dl_view_answers (getcwd : list string) (cfg : config) (fs : node) (relpath : string) :
  view_answers (dl_view getcwd cfg fs relpath)
  /\ forall resp, dl_view getcwd cfg fs relpath = Ret resp -> status resp = 200.
Proof.
  pose proof (dl_view_cases getcwd cfg fs relpath) as Hview.
  destruct (safe_resolve getcwd fs (ROOT cfg) relpath) as [target|e] eqn:Hres.
  - destruct (stat_node fs (parts target)) as [[mtime data| |]|];
      try (rewrite Hview; by destruct (parts target)).
    destruct (parts target); rewrite Hview; [done|]. split; [by left|]. by intros resp [= <-].
  - rewrite Hview. split; [|done]. by apply (safe_resolve_raises_ok _ _ _ _ _ Hres).
Qed.

(** X19: a [GET] request for one of the routes that carries no header
    besides [Authorization] (so none that asks for a range or makes the
    answer conditional: those are outside this model of a request) is
    answered with one of five statuses: 200, 302, 401, 404 or 500.  It is
    401 only in guarded mode, and then it is the challenge; it is 302
    only for [/download/...].  In particular the views raise no
    [HTTPException] but that of [abort(404)], so no such request is
    answered 403. *)
Theorem app_status_codes (format_mtime : Z -> string) (getcwd : list string)
    (cfg : config) (fs : node) (req : request) :
  let resp := app format_mtime getcwd cfg fs req in
  (status resp = 200 \/ status resp = 302 \/ status resp = 401
   \/ status resp = 404 \/ status resp = 500)
  /\ (status resp = 401 ->
      AUTH cfg <> None /\ url req <> ping_route /\ resp = challenge)
  /\ (status resp = 302 -> exists relpath, url req = download_route relpath).
Proof.
  cbv zeta.
  assert (Hgate : forall func,
             view_answers func ->
             (forall resp, func = Ret resp -> status resp = 200) \/
             (forall resp, func = Ret resp -> status resp = 302)  ->
             let resp := handle_exception (requires_auth cfg req func) in
             (status resp = 200 \/ status resp = 302 \/ status resp = 401
              \/ status resp = 404 \/ status resp = 500)
             /\ (status resp = 401 -> AUTH cfg <> None /\ resp = challenge)
             /\ (status resp = 302 -> exists r, func = Ret r /\ status r = 302)).
  { intros func Hfunc Hret. cbv zeta.
    assert (Hf : let s := status (handle_exception func) in
                 (s = 200 \/ s = 302 \/ s = 404 \/ s = 500) /\ s <> 401
                 /\ (s = 302 -> exists r, func = Ret r /\ status r = 302)).
    { pose proof (view_answers_status func Hfunc) as Hs. cbv zeta in Hs |- *.
      split; [done|]. split; [by destruct Hs as [-> | [-> | [-> | ->]]]|].
      destruct func as [r|e]; simpl; [eauto|]. destruct e; simpl in *; try done.
      subst code. done. }
    cbv zeta in Hf. destruct Hf as (Hs & Hne & H302).
    destruct (AUTH cfg) as [cred|] eqn:HA.
    - destruct (requires_auth_cases cfg req func) as [-> | ->].
      + split; [by destruct Hs as [-> | [-> | [-> | ->]]]; tauto|]. split; [done|done].
      + cbn [handle_exception]. split; [by right; right; left|]. split; [done|done].
    - rewrite (requires_auth_open cfg req func HA).
      split; [by destruct Hs as [-> | [-> | [-> | ->]]]; tauto|]. split; [done|done]. }
  unfold app. destruct (url req) as [|path|q|relpath|relpath|filename|] eqn:Hurl.
  - destruct (Hgate (index_page_view cfg)) as (H1 & H2 & H3); [by left|left; by intros resp [= <-]|].
    split; [done|]. split.
    + intros H. by destruct (H2 H).
    + intros H. by destruct (H3 H) as (r & [= <-] & Hr).
  - assert (Hview : view_answers (api_ls_view format_mtime getcwd cfg fs path)
                    /\ forall resp, api_ls_view format_mtime getcwd cfg fs path = Ret resp ->
                                    status resp = 200).
    { unfold api_ls_view. destruct (list_dir _ _ _ _ _) as [l|e] eqn:Hl; simpl.
      - split; [by left|by intros resp [= <-]].
      - split; [by apply (list_dir_raises _ _ _ _ _ _ Hl)|done]. }
    destruct (Hgate _ (proj1 Hview) (or_introl (proj2 Hview))) as (H1 & H2 & H3).
    split; [done|]. split.
    + intros H. by destruct (H2 H).
    + intros H. destruct (H3 H) as (r & Hr & Hs). by rewrite (proj2 Hview r Hr) in Hs.
  - assert (Hview : view_answers (api_search_view format_mtime cfg fs q)
                    /\ forall resp, api_search_view format_mtime cfg fs q = Ret resp ->
                                    status resp = 200).
    { unfold api_search_view. case_bool_decide; [split; [by left|by intros resp [= <-]]|].
      destruct (build_index _ _ _) as [idx|e] eqn:Hidx; simpl.
      - split; [by left|by intros resp [= <-]].
      - split; [by apply (build_index_raises _ _ _ _ Hidx)|done]. }
    destruct (Hgate _ (proj1 Hview) (or_introl (proj2 Hview))) as (H1 & H2 & H3).
    split; [done|]. split.
    + intros H. by destruct (H2 H).
    + intros H. destruct (H3 H) as (r & Hr & Hs). by rewrite (proj2 Hview r Hr) in Hs.
  - pose proof (dl_view_answers getcwd cfg fs relpath) as Hview.
    destruct (Hgate _ (proj1 Hview) (or_introl (proj2 Hview))) as (H1 & H2 & H3).
    split; [done|]. split.
    + intros H. by destruct (H2 H).
    + intros H. destruct (H3 H) as (r & Hr & Hs). by rewrite (proj2 Hview r Hr) in Hs.
  - destruct (Hgate (legacy_dl_view relpath)) as (H1 & H2 & H3);
      [by right|right; by intros resp [= <-]|].
    split; [done|]. split.
    + intros H. by destruct (H2 H).
    + intros _. by exists relpath.
  - assert (Hdrop : drop getcwd cfg fs req filename
                    = requires_auth cfg req
                        (if negb (bool_decide (is_Some (SHORT_URLS cfg !! filename)))
                         then abort 404
                         else dl_view getcwd cfg fs
                                (default EmptyString (SHORT_URLS cfg !! filename)))).
    { unfold drop, drop_view, dl. destruct (negb _); [done|].
      by apply requires_auth_twice. }
    rewrite Hdrop.
    assert (Hview : view_answers
                      (if negb (bool_decide (is_Some (SHORT_URLS cfg !! filename)))
                       then abort 404
                       else dl_view getcwd cfg fs
                              (default EmptyString (SHORT_URLS cfg !! filename)))
                    /\ forall resp,
                         (if negb (bool_decide (is_Some (SHORT_URLS cfg !! filename)))
                          then abort 404
                          else dl_view getcwd cfg fs
                                 (default EmptyString (SHORT_URLS cfg !! filename)))
                         = Ret resp -> status resp = 200).
    { destruct (negb _); [done|]. apply dl_view_answers. }
    destruct (Hgate _ (proj1 Hview) (or_introl (proj2 Hview))) as (H1 & H2 & H3).
    split; [done|]. split.
    + intros H. by destruct (H2 H).
    + intros H. destruct (H3 H) as (r & Hr & Hs). by rewrite (proj2 Hview r Hr) in Hs.
  - split; [by left|]. split; [done|done].
Qed.

Lemma app_status_codes_witness :
  AUTH guarded_config <> None
  /\ url (mkRequest (dl_route "a.txt") None) <> ping_route
  /\ app example_format [] guarded_config example_tree (mkRequest (dl_route "a.txt") None)
     = challenge.
Proof.
  apply (proj1 (proj2 (app_status_codes example_format [] guarded_config example_tree
                         (mkRequest (dl_route "a.txt") None)))).
  vm_compute. reflexivity.
Defined.

(** ** What a resolved path leads to *)

Lemma real_path_nil (fs : node) : real_path fs [].
Proof.
  split; [constructor|]. intros q x k target H. apply (f_equal length) in H.
  rewrite !length_app in H. simpl in H. lia.
Qed.

Lemma real_path_prefix (fs : node) (p k : list string) :
  real_path fs (p ++ k) -> real_path fs p.
Proof.
  intros [Hall Hlinks]. split; [by apply Forall_app in Hall as [? _]|].
  intros q x k' target ->. apply (Hlinks q x (k' ++ k) target). by rewrite <- !app_assoc.
Qed.

Lemma real_path_removelast (fs : node) (p : list string) :
  real_path fs p -> real_path fs (removelast p).
Proof.
  intros H. destruct (decide (p = [])) as [->|Hne]; [done|].
  rewrite (app_removelast_last EmptyString Hne) in H. by apply real_path_prefix in H.
Qed.

Lemma real_path_snoc (fs : node) (p : list string) (x : string) :
  real_path fs p -> is_component x = true -> x <> ".." ->
  (forall target, lookup_node fs (p ++ [x]) <> Some (Symlink target)) ->
  real_path fs (p ++ [x]).
Proof.
  intros [Hall Hlinks] Hc Hdd Hx. split; [apply Forall_app; by repeat constructor|].
  intros q y k target Heq.
  destruct k as [|z k _] using rev_ind.
  - rewrite app_nil_r in Heq. apply app_inj_tail in Heq as [-> ->]. apply Hx.
  - rewrite !app_assoc in Heq. apply app_inj_tail in Heq as [-> _].
    apply (Hlinks q y k target). by rewrite <- !app_assoc.
Qed.

(** [realpath] gives a path without links whenever it succeeds. *)
Lemma joinrealpath_real (fs : node) (budget : nat) :
  forall (rest path : list string) (seen : seen_dict) path' seen',
    real_path fs path -> seen_real fs seen ->
    joinrealpath budget fs path rest seen = (path', true, seen') ->
    real_path fs path' /\ seen_real fs seen'.
Proof.
  induction budget as [budget IHb] using lt_wf_ind.
  induction rest as [|x rest IHrest]; intros path seen path' seen' Hpath Hseen.
  - rewrite joinrealpath_nil. by intros [= <- <-].
  - rewrite joinrealpath_cons.
    destruct (is_component x) eqn:Hc; cbn [negb]; [|by apply IHrest].
    case_bool_decide as Hdd; [apply IHrest; [by apply real_path_removelast|done]|].
    destruct (lookup_node fs (path ++ [x])) as [[| |target]|] eqn:Hlink;
      try (apply IHrest; [apply real_path_snoc; try done; by rewrite Hlink|done]).
    destruct (seen_get (path ++ [x]) seen) as [[cached|]|] eqn:Hget.
    + apply IHrest; [by apply (Hseen (path ++ [x]))|done].
    + done.
    + destruct budget as [|budget']; [done|].
      destruct (joinrealpath budget' fs (if is_absolute target then [] else path)
                  (str_split_slash target) ((path ++ [x], None) :: seen))
        as [[p1 ok] s1] eqn:Hrec.
      destruct ok; [|done].
      assert (Hstart : real_path fs (if is_absolute target then [] else path))
        by (destruct (is_absolute target); [apply real_path_nil|exact Hpath]).
      assert (Hseen0 : seen_real fs ((path ++ [x], None) :: seen))
        by (intros k v; simpl; case_bool_decide; [done|apply Hseen]).
      destruct (IHb budget' ltac:(lia) _ _ _ _ _ Hstart Hseen0 Hrec) as [Hp1 Hs1].
      apply IHrest; [done|].
      intros k v. simpl. case_bool_decide; [by intros [= <-]|apply Hs1].
Qed.

Lemma resolve_real (fs : node) (getcwd : list string) (p t : PurePath) :
  root p <> EmptyString -> resolve fs getcwd p = Ret t -> real_path fs (parts t).
Proof.
  intros Hroot. unfold resolve. destruct (existsb has_nul (parts p)); [done|].
  rewrite bool_decide_eq_false_2 by done.
  destruct (joinrealpath _ fs [] (parts p) []) as [[path ok] seen] eqn:Hjoin.
  destruct ok; [|done]. intros [= <-]. cbn [parts].
  assert (Hseen : seen_real fs []) by (by intros k v).
  by destruct (joinrealpath_real fs _ _ _ _ _ _ (real_path_nil fs) Hseen Hjoin).
Qed.

(** On a path without links [stat] follows no link: it finds what the
    names lead to. *)
Lemma namei_real (depth : nat) (fs : node) (rest : list string) :
  forall cur, real_path fs (cur ++ rest) ->
    namei depth fs cur rest = Some (cur ++ rest)
    \/ (namei depth fs cur rest = None /\ lookup_node fs (cur ++ rest) = None).
Proof.
  induction rest as [|x rest IH]; intros cur Hreal.
  - left. by rewrite namei_nil, app_nil_r.
  - replace (cur ++ x :: rest) with ((cur ++ [x]) ++ rest) in * by by rewrite <- app_assoc.
    rewrite namei_cons. destruct Hreal as [Hall Hlinks].
    pose proof Hall as Hall'. apply Forall_app in Hall' as [Hcur _].
    apply Forall_app in Hcur as [_ Hx]. apply Forall_cons in Hx as [[Hc Hdd] _].
    pose proof (lookup_node_app fs (cur ++ [x]) rest) as Happ.
    destruct (lookup_node fs (cur ++ [x])) as [ch|] eqn:Hch.
    + pose proof Hch as Hch'. rewrite lookup_node_app in Hch'.
      destruct (lookup_node fs cur) as [[| mtime entries |]|]; try done.
      rewrite Hc. cbn [negb]. rewrite bool_decide_eq_false_2 by done.
      destruct ch as [| |target].
      * by apply IH.
      * by apply IH.
      * by destruct (Hlinks cur x rest target).
    + right. split; [|done].
      destruct (lookup_node fs cur) as [[| mtime entries |]|]; try done.
      rewrite Hc. cbn [negb]. by rewrite bool_decide_eq_false_2 by done.
Qed.

Lemma stat_node_real (fs : node) (p : list string) :
  real_path fs p -> stat_node fs p = lookup_node fs p.
Proof.
  intros Hreal. unfold stat_node.
  destruct (namei_real MAXSYMLINKS fs p [] Hreal) as [H | [H1 H2]]; simpl in *.
  - by rewrite H.
  - by rewrite H1, H2.
Qed.

(** What [safe_resolve] returns is a path below the root without
    symbolic links, so [stat] on it finds the node of the tree there. *)
Lemma safe_resolve_real (getcwd : list string) (fs : node) (root_dir : PurePath)
    (p : string) (t : PurePath) :
  root root_dir = "/" -> safe_resolve getcwd fs root_dir p = Ret t ->
  (exists rest, parts t = parts root_dir ++ rest)
  /\ stat_node fs (parts t) = lookup_node fs (parts t).
Proof.
  intros Hroot Ht. destruct (safe_resolve_inside _ _ _ _ _ Ht) as (Hres & _ & _ & Hin).
  split; [done|]. apply stat_node_real.
  apply (resolve_real fs getcwd (joinpath root_dir p) t); [|done].
  unfold joinpath. case_bool_decide as Hrel; cbn [root]; [by rewrite Hroot|done].
Qed.

(** X20: whatever symbolic links the tree holds, a download from an
    absolute root that is answered with 200 carries the bytes of a regular file that lies at or
    below the root in the tree itself: the names of its path, from the
    root on, lead to it through directories only. *)
Theorem download_confined_to_root (format_mtime : Z -> string) (getcwd : list string)
    (cfg : config) (fs : node) (header : option string) (relpath : string) :
  root (ROOT cfg) = "/" ->
  status (app format_mtime getcwd cfg fs (mkRequest (dl_route relpath) header)) = 200 ->
  exists rest mtime data,
    safe_resolve getcwd fs (ROOT cfg) relpath = Ret (mkPath "/" (parts (ROOT cfg) ++ rest))
    /\ lookup_node fs (parts (ROOT cfg) ++ rest) = Some (File mtime data)
    /\ app format_mtime getcwd cfg fs (mkRequest (dl_route relpath) header)
       = mkResponse 200 None (Some (List.last (parts (ROOT cfg) ++ rest) EmptyString)) None
           (FileBytes data).
Proof.
  intros Hroot. unfold app, dl. cbn [url].
  destruct (requires_auth_cases cfg (mkRequest (dl_route relpath) header)
              (dl_view getcwd cfg fs relpath)) as [-> | ->]; [|done].
  pose proof (dl_view_cases getcwd cfg fs relpath) as Hview.
  destruct (safe_resolve getcwd fs (ROOT cfg) relpath) as [target|e] eqn:Hres;
    [|rewrite Hview; by destruct (safe_resolve_raises _ _ _ _ _ Hres) as [-> | [-> | ->]]].
  destruct (safe_resolve_real _ _ _ _ _ Hroot Hres) as [[rest Hrest] Hstat].
  destruct (safe_resolve_inside _ _ _ _ _ Hres) as (_ & Ht & _).
  destruct (stat_node fs (parts target)) as [[mtime data| |]|] eqn:Hnode;
    try (rewrite Hview; by destruct (parts target)).
  destruct (parts target) as [|x ps] eqn:Hparts; [by rewrite Hview|].
  rewrite Hview. intros _. exists rest, mtime, data.
  assert (Htarget : target = mkPath "/" (parts (ROOT cfg) ++ rest)).
  { destruct target as [r ps']. cbn [root parts] in *. by rewrite Ht, <- Hrest, Hparts. }
  split; [by rewrite Htarget|]. split; [by rewrite <- Hrest, <- Hstat|].
  cbn [handle_exception]. unfold name. by rewrite Hparts, Hrest.
Qed.

Lemma download_confined_to_root_witness :
  exists rest mtime data,
    safe_resolve [] linked_tree (ROOT open_config) "in"
    = Ret (mkPath "/" (parts (ROOT open_config) ++ rest))
    /\ lookup_node linked_tree (parts (ROOT open_config) ++ rest) = Some (File mtime data)
    /\ app example_format [] open_config linked_tree (mkRequest (dl_route "in") None)
       = mkResponse 200 None (Some (List.last (parts (ROOT open_config) ++ rest) EmptyString))
           None (FileBytes data).
Proof.
  apply (download_confined_to_root example_format [] open_config linked_tree None "in").
  - vm_compute. reflexivity.
  - vm_compute. reflexivity.
Defined.

(** X21: whatever symbolic links the tree holds, a listing under an
    absolute root shows entries of a directory that lies at or below the root in the tree itself:
    every name it shows, as a directory or as a file, is the name of an
    entry of that directory. *)
Theorem listing_confined_to_root (format_mtime : Z -> string) (getcwd : list string)
    (fs : node) (root_dir : PurePath) (rel_path : string) (l : listing) :
  root root_dir = "/" ->
  list_dir format_mtime getcwd fs root_dir rel_path = Ret l ->
  exists rest mtime entries,
    safe_resolve getcwd fs root_dir rel_path = Ret (mkPath "/" (parts root_dir ++ rest))
    /\ lookup_node fs (parts root_dir ++ rest) = Some (Dir mtime entries)
    /\ Forall (fun d => In (dir_name d) (map fst entries)) (dirs l)
    /\ Forall (fun f => In (file_name f) (map fst entries)) (files l).
Proof.
  intros Hroot Hl.
  destruct (list_dir_inv _ _ _ _ _ _ Hl) as (p & mtime & entries & Hp & Hstat & Hdirs & Hfiles).
  destruct (safe_resolve_real _ _ _ _ _ Hroot Hp) as [[rest Hrest] Hreal].
  destruct (safe_resolve_inside _ _ _ _ _ Hp) as (_ & Ht & _).
  exists rest, mtime, entries.
  assert (Htarget : p = mkPath "/" (parts root_dir ++ rest)).
  { destruct p as [r ps]. cbn [root parts] in *. by rewrite Ht, Hrest. }
  split; [by rewrite <- Htarget|]. split; [by rewrite <- Hrest, <- Hreal|].
  assert (Hnames : forall c, In c (sorted_names (map fst entries)) -> In c (map fst entries)).
  { intros c Hc. apply list_elem_of_In. apply list_elem_of_In in Hc.
    unfold sorted_names in Hc. by rewrite merge_sort_Permutation in Hc. }
  split; apply Forall_forall; intros e He; apply list_elem_of_In in He.
  - destruct (Forall2_In_r _ _ _ e Hdirs He) as (c & Hc & <- & _).
    apply filter_In in Hc as [Hc _]. by apply Hnames.
  - destruct (Forall2_In_r _ _ _ e Hfiles He) as (c & Hc & <- & _).
    apply filter_In in Hc as [Hc _]. by apply Hnames.
Qed.

Lemma listing_confined_to_root_witness :
  exists rest mtime entries,
    safe_resolve [] linked_tree example_root "sub/../sub"
    = Ret (mkPath "/" (parts example_root ++ rest))
    /\ lookup_node linked_tree (parts example_root ++ rest) = Some (Dir mtime entries)
    /\ Forall (fun d => In (dir_name d) (map fst entries)) []
    /\ Forall (fun f => In (file_name f) (map fst entries))
         [mkFileEntry "b.txt" "sub/../sub/b.txt" "3.0B" "20"].
Proof.
  apply (listing_confined_to_root example_format [] linked_tree example_root "sub/../sub"
           (mkListing [] [mkFileEntry "b.txt" "sub/../sub/b.txt" "3.0B" "20"] "sub/../sub")).
  - vm_compute. reflexivity.
  - vm_compute. reflexivity.
Defined.
